(** * Old-metadata retention of createrepo_c (src/helpers.c)

    A shallow embedding of [helpers.c]: the classic and the repomd driven
    selection of old metadata ([cr_repodata_blacklist_classic],
    [cr_repodata_blacklist]), the pruner ([cr_remove_metadata_classic]) and
    the migrator ([cr_old_metadata_retention]), over a small model of the
    file system and of the GLib primitives the file calls. *)

From Stdlib Require Import ZArith List Bool Ascii String Lia Permutation Sorted.
Import ListNotations.

Local Open Scope string_scope.
Local Open Scope Z_scope.

(* ================================================================== *)
(** ** C strings *)

Module CStr.

(** [strchr s c <> NULL]. *)
Fixpoint contains (c : ascii) (s : string) : bool :=
  match s with
  | EmptyString => false
  | String a r => Ascii.eqb a c || contains c r
  end.

(** [strrchr s c]: the characters before the last [c] of [s], that is
    [g_strndup (s, strrchr (s, c) - s)]; [None] when [strrchr] is NULL. *)
Fixpoint before_last (c : ascii) (s : string) : option string :=
  match s with
  | EmptyString => None
  | String a r =>
      match before_last c r with
      | Some p => Some (String a p)
      | None => if Ascii.eqb a c then Some EmptyString else None
      end
  end.

(** The characters after the last [c] of [s]; all of [s] without a [c]. *)
Fixpoint after_last (c : ascii) (s : string) : string :=
  match s with
  | EmptyString => EmptyString
  | String a r =>
      if contains c r then after_last c r
      else if Ascii.eqb a c then r else s
  end.

(** Pointer arithmetic [s + n]. *)
Fixpoint skip (n : nat) (s : string) : string :=
  match n, s with
  | O, _ => s
  | S n', String _ r => skip n' r
  | S _, EmptyString => EmptyString
  end.

(** [s] without the run of [c] at its end. *)
Fixpoint strip_trailing (c : ascii) (s : string) : string :=
  match s with
  | EmptyString => EmptyString
  | String a r =>
      match strip_trailing c r with
      | EmptyString => if Ascii.eqb a c then EmptyString else String a EmptyString
      | r' => String a r'
      end
  end.

(** [s] after the prefix [p], when [s] starts with [p]. *)
Fixpoint strip_prefix (p s : string) : option string :=
  match p, s with
  | EmptyString, _ => Some s
  | String a p', String b s' =>
      if Ascii.eqb a b then strip_prefix p' s' else None
  | String _ _, EmptyString => None
  end.

(** The last character. *)
Fixpoint last_char (s : string) : option ascii :=
  match s with
  | EmptyString => None
  | String a EmptyString => Some a
  | String _ r => last_char r
  end.

End CStr.

(* ================================================================== *)
(** ** GLib primitives

    GLib is an external library; these definitions follow its reference
    manual and [gstrfuncs.c] / [gfileutils.c] / [gslist.c]. *)

(** [g_str_has_suffix]: the lengths are compared, then the tail of [str]
    with [suffix]. *)
Definition g_str_has_suffix (str suffix : string) : bool :=
  let str_len := String.length str in
  let suffix_len := String.length suffix in
  if (str_len <? suffix_len)%nat then false
  else String.eqb (CStr.skip (str_len - suffix_len) str) suffix.

Definition slash : ascii := "/"%char.
Definition dot : ascii := "."%char.

(** [g_path_get_basename]: ["."] for the empty string, ["/"] for a string
    of separators only, else the last component without trailing
    separators. *)
Definition g_path_get_basename (file_name : string) : string :=
  match file_name with
  | EmptyString => "."
  | _ =>
      match CStr.strip_trailing slash file_name with
      | EmptyString => "/"
      | t => CStr.after_last slash t
      end
  end.

(** [g_build_filename] of two elements: one separator at the junction. *)
Definition g_build_filename (dir file : string) : string :=
  match dir with
  | EmptyString => file
  | _ => CStr.strip_trailing slash dir ++ "/" ++ file
  end.

(** [g_slist_find_custom (list, s, g_strcmp0) != NULL]. *)
Definition g_slist_find_strcmp0 (lst : list string) (s : string) : bool :=
  existsb (String.eqb s) lst.

Section GSList.
Context {A : Type}.

(** [g_slist_insert_sorted]: the new element goes before the first element
    [e] with [func (data, e) <= 0], or to the end. *)
Fixpoint g_slist_insert_sorted (lst : list A) (data : A)
         (func : A -> A -> Z) : list A :=
  match lst with
  | [] => [data]
  | e :: rest =>
      if 0 <? func data e
      then e :: g_slist_insert_sorted rest data func
      else data :: e :: rest
  end.

(** [g_slist_nth]: the list from its [n]-th link on. *)
Definition g_slist_nth (lst : list A) (n : nat) : list A := skipn n lst.

End GSList.

(* ================================================================== *)
(** ** The six families of old metadata *)

Inductive family : Type :=
| Primary | PrimaryDb | Filelists | FilelistsDb | Other | OtherDb.

Definition family_eqb (a b : family) : bool :=
  match a, b with
  | Primary, Primary | PrimaryDb, PrimaryDb
  | Filelists, Filelists | FilelistsDb, FilelistsDb
  | Other, Other | OtherDb, OtherDb => true
  | _, _ => false
  end.

Definition families : list family :=
  [Primary; PrimaryDb; Filelists; FilelistsDb; Other; OtherDb].

Definition marker (f : family) : string :=
  match f with
  | Primary => "primary.xml"
  | PrimaryDb => "primary.sqlite"
  | Filelists => "filelists.xml"
  | FilelistsDb => "filelists.sqlite"
  | Other => "other.xml"
  | OtherDb => "other.sqlite"
  end.

(** The [if / else if] chain of the directory loop, on the name without its
    suffix. *)
Definition family_of_stem (name_without_suffix : string) : option family :=
  if g_str_has_suffix name_without_suffix "primary.xml" then Some Primary
  else if g_str_has_suffix name_without_suffix "primary.sqlite" then Some PrimaryDb
  else if g_str_has_suffix name_without_suffix "filelists.xml" then Some Filelists
  else if g_str_has_suffix name_without_suffix "filelists.sqlite" then Some FilelistsDb
  else if g_str_has_suffix name_without_suffix "other.xml" then Some Other
  else if g_str_has_suffix name_without_suffix "other.sqlite" then Some OtherDb
  else None.

(** The list a directory entry is routed to: [None] for a name without a
    dot, and for a name whose stem ends with none of the markers. *)
Definition classify (filename : string) : option family :=
  match CStr.before_last dot filename with
  | None => None
  | Some name_without_suffix => family_of_stem name_without_suffix
  end.

(* ================================================================== *)
(** ** The file system

    Files are kept by the path string they are reached with, in the order a
    directory scan returns them; [".."] segments, links and doubled
    separators are outside the model.  A node stands for any directory
    entry (a regular file or a subdirectory). *)

(** One record of a parsed [repomd.xml]; a NULL field is [None]. *)
Record cr_RepomdRecord : Type := mkRecord {
  location_href : option string;
  location_base : option string
}.

Record node : Type := mkNode {
  n_mtime : option Z;      (** [st_mtime]; [None] when [stat] fails on the entry *)
  n_content : string;
  n_removable : bool;      (** whether [g_remove] succeeds on it *)
  n_copyable : bool;       (** whether it can be copied *)
  n_repomd : option (list cr_RepomdRecord)
                           (** the records a repomd parser finds in it;
                               [None] when it does not parse *)
}.

Record filesystem : Type := mkFS {
  fs_dirs : list string;             (** the directories, each ending in ["/"] *)
  fs_files : list (string * node)
}.

Module FS.

Fixpoint lookup (p : string) (l : list (string * node)) : option node :=
  match l with
  | [] => None
  | (q, n) :: r => if String.eqb q p then Some n else lookup p r
  end.

Definition unlink (p : string) (l : list (string * node)) : list (string * node) :=
  filter (fun kv => negb (String.eqb (fst kv) p)) l.

Fixpoint write (p : string) (n : node) (l : list (string * node))
  : list (string * node) :=
  match l with
  | [] => [(p, n)]
  | (q, m) :: r => if String.eqb q p then (p, n) :: r else (q, m) :: write p n r
  end.

Definition has_dir (d : string) (fs : filesystem) : bool :=
  existsb (String.eqb d) (fs_dirs fs).

(** A directory path with its final separator. *)
Definition as_dir (path : string) : string :=
  match CStr.last_char path with
  | Some c => if Ascii.eqb c slash then path else path ++ "/"
  | None => path
  end.

(** The directory a path lies in: the path up to its last separator. *)
Definition parent (path : string) : string :=
  match CStr.before_last slash path with
  | Some d => d ++ "/"
  | None => EmptyString
  end.

(** The name under which [p] is listed in directory [d]. *)
Definition entry_name (d p : string) : option string :=
  match CStr.strip_prefix d p with
  | Some EmptyString => None
  | Some name => if CStr.contains slash name then None else Some name
  | None => None
  end.

Definition entries (d : string) (l : list (string * node)) : list string :=
  flat_map (fun kv => match entry_name d (fst kv) with
                      | Some name => [name]
                      | None => []
                      end) l.

(** What [g_dir_open] followed by [g_dir_read_name] until NULL yields. *)
Definition opendir (path : string) (fs : filesystem) : option (list string) :=
  let d := as_dir path in
  if has_dir d fs then Some (entries d (fs_files fs)) else None.

Definition stat (path : string) (fs : filesystem) : option Z :=
  match lookup path (fs_files fs) with
  | Some n => n_mtime n
  | None => None
  end.

Definition exists_ (path : string) (fs : filesystem) : bool :=
  match lookup path (fs_files fs) with
  | Some _ => true
  | None => has_dir (as_dir path) fs
  end.

Definition remove (path : string) (fs : filesystem) : option filesystem :=
  match lookup path (fs_files fs) with
  | Some n =>
      if n_removable n
      then Some (mkFS (fs_dirs fs) (unlink path (fs_files fs)))
      else None
  | None => None
  end.

(** Modelled from the spec: [cr_cp] of misc.c is not among the sources; it
    is the recursive, attribute-preserving copy of one entry to the
    destination path.  It fails on a missing or unreadable source and on a
    missing destination directory, and then changes nothing. *)
Definition copy (src dst : string) (fs : filesystem) : option filesystem :=
  match lookup src (fs_files fs) with
  | Some n =>
      if n_copyable n && has_dir (parent dst) fs
      then Some (mkFS (fs_dirs fs) (write dst n (fs_files fs)))
      else None
  | None => None
  end.

(** Modelled from the spec: [cr_xml_parse_repomd] of xml_parse_repomd.c is
    not among the sources; it reads the records of the manifest at [path]
    and reports an error when the file is missing or does not parse. *)
Definition parse_repomd (path : string) (fs : filesystem)
  : option (list cr_RepomdRecord) :=
  match lookup path (fs_files fs) with
  | Some n => n_repomd n
  | None => None
  end.

End FS.

(* ================================================================== *)
(** ** Calls and log lines, in the order they happen *)

Inductive event : Type :=
| EvDirOpen (path : string) (ok : bool)
| EvStat (path : string) (ok : bool)
| EvFileTest (path : string) (found : bool)
| EvRemove (path : string) (ok : bool)
| EvCopy (src dst : string) (ok : bool)
| EvParseRepomd (path : string) (ok : bool)
| EvWarning (msg : string)
| EvDebug (msg : string).

(** A computation reads and changes the file system and emits events. *)
Definition M (A : Type) : Type := filesystem -> A * filesystem * list event.

Definition ret {A} (a : A) : M A := fun fs => (a, fs, []).

Definition bind {A B} (m : M A) (k : A -> M B) : M B :=
  fun fs =>
    let '(a, fs1, t1) := m fs in
    let '(b, fs2, t2) := k a fs1 in
    (b, fs2, (t1 ++ t2)%list).

Declare Scope io_scope.
Delimit Scope io_scope with io.
Notation "x <- m ;; k" := (bind m (fun x => k))
  (at level 61, m at next level, right associativity) : io_scope.
Notation "m ;;; k" := (bind m (fun _ => k))
  (at level 61, right associativity) : io_scope.
Local Open Scope io_scope.

Definition result {A} (r : A * filesystem * list event) : A := fst (fst r).
Definition final_fs {A} (r : A * filesystem * list event) : filesystem := snd (fst r).
Definition trace {A} (r : A * filesystem * list event) : list event := snd r.

Definition g_dir_open (path : string) : M (option (list string)) :=
  fun fs =>
    match FS.opendir path fs with
    | Some names => (Some names, fs, [EvDirOpen path true])
    | None => (None, fs, [EvDirOpen path false])
    end.

Definition stat (path : string) : M (option Z) :=
  fun fs =>
    match FS.stat path fs with
    | Some t => (Some t, fs, [EvStat path true])
    | None => (None, fs, [EvStat path false])
    end.

Definition g_file_test_exists (path : string) : M bool :=
  fun fs => let b := FS.exists_ path fs in (b, fs, [EvFileTest path b]).

Definition g_remove (path : string) : M bool :=
  fun fs =>
    match FS.remove path fs with
    | Some fs' => (true, fs', [EvRemove path true])
    | None => (false, fs, [EvRemove path false])
    end.

Definition cr_cp (src dst : string) : M bool :=
  fun fs =>
    match FS.copy src dst fs with
    | Some fs' => (true, fs', [EvCopy src dst true])
    | None => (false, fs, [EvCopy src dst false])
    end.

Definition cr_xml_parse_repomd (path : string) : M (option (list cr_RepomdRecord)) :=
  fun fs =>
    match FS.parse_repomd path fs with
    | Some recs => (Some recs, fs, [EvParseRepomd path true])
    | None => (None, fs, [EvParseRepomd path false])
    end.

(** The log, by level.  Where the C format ends with the text of a system
    or library error ([strerror (errno)], [tmp_err->message] of a failed
    copy), the message stops before it. *)
Definition g_warning (msg : string) : M unit := fun fs => (tt, fs, [EvWarning msg]).
Definition g_debug (msg : string) : M unit := fun fs => (tt, fs, [EvDebug msg]).

(* ================================================================== *)
(** ** Errors *)

Inductive error_domain : Type := CR_HELPER_ERROR | G_FILE_ERROR.

Record GError : Type := mkGError {
  ge_domain : error_domain;
  ge_code : Z;
  ge_message : string
}.

(** Modelled from the spec: error.h is not among the sources.  The spec
    names success, the I/O error and the invalid-argument error; the numbers
    are the places of [CRE_OK], [CRE_IO] and [CRE_BADARG] in the enumeration
    of error.h, which starts with [CRE_OK]. *)
Definition CRE_OK : Z := 0.
Definition CRE_IO : Z := 2.
Definition CRE_BADARG : Z := 6.

(** [FALSE] where the C code returns it from a function of type [int]. *)
Definition FALSE : Z := 0.

(** The error GLib reports for a directory that cannot be opened; its code
    and text are GLib's, the model keeps one of them. *)
Definition g_dir_open_error (path : string) : GError :=
  mkGError G_FILE_ERROR 4 ("Error opening directory: " ++ path).

Definition badarg_error : GError :=
  mkGError CR_HELPER_ERROR CRE_BADARG
           "Number of retained old metadatas must be integer number >= -1".

Definition cannot_open_error (path : string) : GError :=
  mkGError CR_HELPER_ERROR CRE_IO
           ("Cannot open directory: " ++ path ++ ": "
              ++ ge_message (g_dir_open_error path)).

Definition g_propagate_prefixed_error (e : GError) (prefix : string) : GError :=
  mkGError (ge_domain e) (ge_code e) (prefix ++ ge_message e).

(* ================================================================== *)
(** ** helpers.c *)

(** [time_t] and [int] values are integers here: the code only compares
    them. *)
Record OldFile : Type := mkOldFile {
  mtime : Z;
  path : string
}.

Definition cr_cmp_old_repodata_files (a b : OldFile) : Z :=
  if mtime a <? mtime b then 1
  else if mtime a >? mtime b then -1
  else 0.

(** The six lists [pri_lst] ... [oth_db_lst], reached through [lists[x]]. *)
Definition lists : Type := family -> list OldFile.

Definition no_lists : lists := fun _ => [].

Definition set_list (x : family) (l : list OldFile) (ls : lists) : lists :=
  fun y => if family_eqb x y then l else ls y.

Definition cr_stat_and_insert (dirname filename : string) (lst : list OldFile)
  : M (list OldFile) :=
  let path := dirname ++ filename in
  buf <- stat path ;;
  let st_mtime := match buf with Some t => t | None => 1 end in
  ret (g_slist_insert_sorted lst (mkOldFile st_mtime path)
                             cr_cmp_old_repodata_files).

(** The [while ((filename = g_dir_read_name (dirp)))] loop of
    [cr_repodata_blacklist_classic]. *)
Fixpoint scan_repodata (repodata_path : string) (names : list string)
         (ls : lists) : M lists :=
  match names with
  | [] => ret ls
  | filename :: rest =>
      match classify filename with
      | None => scan_repodata repodata_path rest ls
      | Some x =>
          l <- cr_stat_and_insert repodata_path filename (ls x) ;;
          scan_repodata repodata_path rest (set_list x l ls)
      end
  end.

(** The [for (int x = 0; x < num_of_lists; x++)] loop: the records from the
    [retain]-th on are prepended to the blacklist by their base name. *)
Definition append_to_blacklist (ls : lists) (retain : nat)
           (blacklist : list string) : list string :=
  fold_left
    (fun bl x =>
       fold_left (fun bl old_file => g_path_get_basename (path old_file) :: bl)
                 (g_slist_nth (ls x) retain) bl)
    families blacklist.

(** The value of a selector: its return value, [*blacklist] and [*err]. *)
Definition selection : Type := bool * list string * option GError.

Definition cr_repodata_blacklist_classic (repodata_path : string) (retain : Z)
  : M selection :=
  if retain =? -1 then ret (true, [], None)
  else if retain <? 0 then ret (false, [], Some badarg_error)
  else
    dirp <- g_dir_open repodata_path ;;
    match dirp with
    | None =>
        g_warning (ge_message (cannot_open_error repodata_path)) ;;;
        ret (false, [], Some (cannot_open_error repodata_path))
    | Some names =>
        ls <- scan_repodata repodata_path names no_lists ;;
        ret (true, append_to_blacklist ls (Z.to_nat retain) [], None)
    end.

(** The [for] loop over [repomd->records] of [cr_repodata_blacklist]. *)
Fixpoint blacklist_records (records : list cr_RepomdRecord)
         (blacklist : list string) : M (list string) :=
  match records with
  | [] => ret blacklist
  | rec :: rest =>
      match location_href rec with
      | None =>
          g_warning "Record without location href in old repo" ;;;
          blacklist_records rest blacklist
      | Some href =>
          match location_base rec with
          | Some base =>
              g_debug ("Old repomd record with base location is ignored: "
                         ++ base ++ " - " ++ href) ;;;
              blacklist_records rest blacklist
          | None =>
              blacklist_records rest (g_path_get_basename href :: blacklist)
          end
      end
  end.

Definition cr_repodata_blacklist (repodata_path : string) (retain : Z)
  : M selection :=
  if (retain =? -1) || (0 <? retain) then ret (true, [], None)
  else if retain <? 0 then ret (false, [], Some badarg_error)
  else
    let old_repomd_path := g_build_filename repodata_path "repomd.xml" in
    parsed <- cr_xml_parse_repomd old_repomd_path ;;
    records <- match parsed with
               | Some records => ret records
               | None =>
                   g_warning ("Cannot parse repomd: " ++ old_repomd_path) ;;;
                   ret []
               end ;;
    blacklist <- blacklist_records records [] ;;
    ret (true, blacklist, None).

(** The [while] loop of [cr_remove_metadata_classic]. *)
Fixpoint remove_blacklisted (full_repopath : string) (blacklist : list string)
         (names : list string) : M unit :=
  match names with
  | [] => ret tt
  | filename :: rest =>
      if negb (g_slist_find_strcmp0 blacklist filename)
      then remove_blacklisted full_repopath blacklist rest
      else
        let full_path := full_repopath ++ filename in
        removed <- g_remove full_path ;;
        (if removed then g_debug ("Removed " ++ full_path)
         else g_warning ("Cannot remove " ++ full_path)) ;;;
        remove_blacklisted full_repopath blacklist rest
  end.

(** [cr_remove_metadata_classic] from the blacklist on: the directory is
    opened and walked. *)
Definition remove_metadata_with (repopath full_repopath : string)
           (blacklist : list string) : M (Z * option GError) :=
  dirp <- g_dir_open full_repopath ;;
  match dirp with
  | None =>
      g_debug ("cr_remove_metadata_classic: Path " ++ repopath
                 ++ " doesn't exist") ;;;
      ret (CRE_IO,
           Some (g_propagate_prefixed_error (g_dir_open_error full_repopath)
                                            "Cannot open a dir: "))
  | Some names =>
      remove_blacklisted full_repopath blacklist names ;;;
      ret (CRE_OK, None)
  end.

(** The value of the pruner: its [int] return value and [*err]. *)
Definition cr_remove_metadata_classic (repopath : string) (retain : Z)
  : M (Z * option GError) :=
  let full_repopath := repopath ++ "/repodata/" in
  sel <- cr_repodata_blacklist_classic full_repopath retain ;;
  let '(ret_, blacklist, err) := sel in
  if negb ret_ then ret (FALSE, err)
  else
    let blacklist := "repomd.xml" :: blacklist in
    remove_metadata_with repopath full_repopath blacklist.

(** The [while] loop of [cr_old_metadata_retention]. *)
Fixpoint copy_not_blacklisted (old_repo new_repo : string)
         (blacklist : list string) (names : list string) : M unit :=
  match names with
  | [] => ret tt
  | filename :: rest =>
      if g_slist_find_strcmp0 blacklist filename
      then
        g_debug ("Blacklisted: " ++ filename) ;;;
        copy_not_blacklisted old_repo new_repo blacklist rest
      else
        let full_path := old_repo ++ filename in
        let new_full_path := new_repo ++ filename in
        present <- g_file_test_exists new_full_path ;;
        if present
        then
          g_debug ("Skipped copy: " ++ full_path ++ " -> " ++ new_full_path
                     ++ " (file already exists)") ;;;
          copy_not_blacklisted old_repo new_repo blacklist rest
        else
          copied <- cr_cp full_path new_full_path ;;
          (if copied
           then g_debug ("Copied " ++ full_path ++ " -> " ++ new_full_path)
           else g_warning ("Cannot copy " ++ full_path ++ " -> "
                             ++ new_full_path)) ;;;
          copy_not_blacklisted old_repo new_repo blacklist rest
  end.

(** [cr_old_metadata_retention] from the blacklist on. *)
Definition old_metadata_retention_with (old_repo new_repo : string)
           (blacklist : list string) : M (bool * option GError) :=
  dirp <- g_dir_open old_repo ;;
  match dirp with
  | None =>
      g_warning (ge_message (cannot_open_error old_repo)) ;;;
      ret (false, Some (cannot_open_error old_repo))
  | Some names =>
      copy_not_blacklisted old_repo new_repo blacklist names ;;;
      ret (true, None)
  end.

Definition compatibility_mode : bool := true.

(** The value of the migrator: its [gboolean] return value and [*err]. *)
Definition cr_old_metadata_retention (old_repo new_repo : string)
           (retain_old : Z) : M (bool * option GError) :=
  present <- g_file_test_exists old_repo ;;
  if negb present then ret (true, None)
  else
    g_debug "Copying files from old repository to the new one" ;;;
    sel <- (if compatibility_mode
            then cr_repodata_blacklist_classic old_repo retain_old
            else cr_repodata_blacklist old_repo retain_old) ;;
    let '(ret_, blacklist, err) := sel in
    if negb ret_ then ret (false, err)
    else
      let blacklist := "repomd.xml" :: blacklist in
      old_metadata_retention_with old_repo new_repo blacklist.

(* ================================================================== *)
(** ** Sample repositories *)

(** A file that can be removed and copied. *)
Definition plain (t : Z) : node := mkNode (Some t) EmptyString true true None.

(* ================================================================== *)
(** ** Notions the statements use *)

(** A name as a directory scan returns it: not empty, no separator. *)
Definition entry_like (name : string) : Prop :=
  name <> EmptyString /\ CStr.contains slash name = false.

(** The modification time [cr_stat_and_insert] records for a path: 1 when
    [stat] fails. *)
Definition recorded_mtime (fs : filesystem) (p : string) : Z :=
  match FS.stat p fs with
  | Some t => t
  | None => 1
  end.

Definition old_file_of (fs : filesystem) (dirname filename : string) : OldFile :=
  mkOldFile (recorded_mtime fs (dirname ++ filename)) (dirname ++ filename).

Definition in_family (x : family) (filename : string) : bool :=
  match classify filename with
  | Some y => family_eqb x y
  | None => false
  end.

(** The files of a listing that belong to family [x]. *)
Definition members (x : family) (names : list string) : list string :=
  filter (in_family x) names.

(** The lists the directory loop builds, without the calls it makes. *)
Fixpoint inserted (fs : filesystem) (repodata_path : string)
         (names : list string) (ls : lists) : lists :=
  match names with
  | [] => ls
  | filename :: rest =>
      match classify filename with
      | None => inserted fs repodata_path rest ls
      | Some x =>
          inserted fs repodata_path rest
            (set_list x (g_slist_insert_sorted
                           (ls x) (old_file_of fs repodata_path filename)
                           cr_cmp_old_repodata_files) ls)
      end
  end.

(** The [stat] calls of the directory loop. *)
Definition stat_events (fs : filesystem) (repodata_path : string)
           (names : list string) : list event :=
  flat_map (fun filename =>
              match classify filename with
              | None => []
              | Some _ =>
                  let p := repodata_path ++ filename in
                  [EvStat p (match FS.stat p fs with Some _ => true | None => false end)]
              end) names.

(** Newest first. *)
Definition descending (l : list OldFile) : Prop :=
  StronglySorted (fun a b => mtime b <= mtime a) l.

Definition blacklist_of (s : selection) : list string := snd (fst s).
Definition succeeded (s : selection) : bool := fst (fst s).
Definition error_of (s : selection) : option GError := snd s.

Definition is_dir_open (e : event) : bool :=
  match e with EvDirOpen _ _ => true | _ => false end.

Definition is_remove (e : event) : bool :=
  match e with EvRemove _ _ => true | _ => false end.

(** The names the [x]-th list adds to the blacklist. *)
Definition dropped_names (ls : lists) (retain : nat) (x : family) : list string :=
  map (fun o => g_path_get_basename (path o)) (g_slist_nth (ls x) retain).

(** The directory of the scenario: two names that end with the marker and
    one with a further extension. *)
Definition scenario_repodata (n1 n2 n3 : node) : filesystem :=
  mkFS ["repodata/"]
       [("repodata/a1-primary.xml", n1);
        ("repodata/a2-primary.xml", n2);
        ("repodata/a3-primary.xml.gz", n3)].

(** An old repository that is not there, next to a new one. *)
Definition only_new_repo : filesystem :=
  mkFS ["new/repodata/"] [("new/repodata/b1-primary.xml.gz", plain 500)].

(** A record of the manifest that is put on the blacklist under the base
    name [b]: it has a location reference and no base location. *)
Definition contributes (rec : cr_RepomdRecord) (b : string) : Prop :=
  exists href, location_href rec = Some href
               /\ location_base rec = None
               /\ b = g_path_get_basename href.

(** Whether the walk of the pruner tries to remove the path [p]. *)
Definition doomed (full_repopath : string) (blacklist : list string)
           (names : list string) (p : string) : bool :=
  existsb (fun filename =>
             g_slist_find_strcmp0 blacklist filename
             && String.eqb p (full_repopath ++ filename)) names.

(** A repository with a manifest, a file that cannot be removed and two
    generations of the primary database. *)
Definition stuck (t : Z) : node := mkNode (Some t) EmptyString false false None.

Definition repo_with_manifest : filesystem :=
  mkFS ["repo/repodata/"; "new/"]
       [("repo/repodata/repomd.xml", stuck 900);
        ("repo/repodata/a-primary.sqlite.bz2", plain 100);
        ("repo/repodata/b-primary.sqlite.bz2", stuck 200);
        ("repo/repodata/c-primary.sqlite.bz2", plain 300);
        ("repo/repodata/notes.txt", plain 50);
        ("new/notes.txt", plain 60)].

(** The log lines of the migrator for one entry. *)
Definition skipped_copy_line (old_repo new_repo filename : string) : string :=
  "Skipped copy: " ++ (old_repo ++ filename) ++ " -> " ++ (new_repo ++ filename)
    ++ " (file already exists)".

Definition cannot_copy_line (old_repo new_repo filename : string) : string :=
  "Cannot copy " ++ (old_repo ++ filename) ++ " -> " ++ (new_repo ++ filename).

(** What the migrator does with one entry: the file system it leaves and the
    events, in the four cases of the loop body. *)
Definition entry_step (old_repo new_repo : string) (blacklist : list string)
           (filename : string) (fs fs1 : filesystem) (pre : list event) : Prop :=
  let src := old_repo ++ filename in
  let dst := new_repo ++ filename in
  (g_slist_find_strcmp0 blacklist filename = true
   /\ fs1 = fs /\ pre = [EvDebug ("Blacklisted: " ++ filename)])
  \/ (g_slist_find_strcmp0 blacklist filename = false
      /\ FS.exists_ dst fs = true /\ fs1 = fs
      /\ pre = [EvFileTest dst true;
                EvDebug (skipped_copy_line old_repo new_repo filename)])
  \/ (g_slist_find_strcmp0 blacklist filename = false
      /\ FS.exists_ dst fs = false /\ FS.copy src dst fs = Some fs1
      /\ pre = [EvFileTest dst false; EvCopy src dst true;
                EvDebug ("Copied " ++ src ++ " -> " ++ dst)])
  \/ (g_slist_find_strcmp0 blacklist filename = false
      /\ FS.exists_ dst fs = false /\ FS.copy src dst fs = None /\ fs1 = fs
      /\ pre = [EvFileTest dst false; EvCopy src dst false;
                EvWarning (cannot_copy_line old_repo new_repo filename)]).

(** A run that comes after the events [t]. *)
Definition after {A} (t : list event) (r : A * filesystem * list event)
  : A * filesystem * list event :=
  (result r, final_fs r, (t ++ trace r)%list).

(** The blacklist the pruner and the migrator walk with, given the
    selection's. *)
Definition with_manifest (blacklist : list string) : list string :=
  "repomd.xml" :: blacklist.

Definition copying_line : string :=
  "Copying files from old repository to the new one".

(** The events of a selection: it opens, stats and warns. *)
Definition reads_only (e : event) : bool :=
  match e with
  | EvDirOpen _ _ | EvStat _ _ | EvWarning _ => true
  | _ => false
  end.

(** The name a record is blacklisted under. *)
Definition name_of (o : OldFile) : string := g_path_get_basename (path o).

(** The names the [x]-th list keeps off the blacklist. *)
Definition kept_names (ls : lists) (retain : nat) (x : family) : list string :=
  map name_of (firstn retain (ls x)).

(** No path is listed twice. *)
Definition distinct_paths (fs : filesystem) : Prop :=
  NoDup (map fst (fs_files fs)).

(** A repository in which every file can be removed. *)
Definition removable_repo : filesystem :=
  mkFS ["repo/repodata/"]
       [("repo/repodata/repomd.xml", plain 900);
        ("repo/repodata/a-primary.xml.gz", plain 100);
        ("repo/repodata/b-primary.xml.gz", plain 200);
        ("repo/repodata/c-primary.xml.gz", plain 300);
        ("repo/repodata/notes.txt", plain 50)].

(** An old repository whose manifest parses: one record in the standard
    place, one without a location and one with a base location. *)
Definition parsed_manifest : node :=
  mkNode (Some 900) "<repomd/>" true true
         (Some [mkRecord (Some "repodata/a-primary.xml.gz") None;
                mkRecord None None;
                mkRecord (Some "repodata/b-other.xml.gz")
                         (Some "http://mirror/")]).

Definition repo_with_parsed_manifest : filesystem :=
  mkFS ["old/repodata/"]
       [("old/repodata/repomd.xml", parsed_manifest);
        ("old/repodata/a-primary.xml.gz", plain 100)].

(* ================================================================== *)
(** ** Further notions *)

(** Whether the directory loop routes a name to one of the lists. *)
Definition classified (filename : string) : bool :=
  match classify filename with
  | Some _ => true
  | None => false
  end.

Definition is_copy (e : event) : bool :=
  match e with EvCopy _ _ _ => true | _ => false end.

(** The entry one record of the manifest adds to the blacklist. *)
Definition record_names (rec : cr_RepomdRecord) : list string :=
  match location_href rec, location_base rec with
  | Some href, None => [g_path_get_basename href]
  | _, _ => []
  end.

(** A directory entry on which [stat] fails. *)
Definition unstatable : node := mkNode None EmptyString true true None.

(** A repository with an entry that cannot be stat-ed among its primary
    files. *)
Definition repo_with_unstatable : filesystem :=
  mkFS ["repo/repodata/"; "new/"]
       [("repo/repodata/a-primary.xml.gz", plain 100);
        ("repo/repodata/b-primary.xml.gz", unstatable);
        ("repo/repodata/c-primary.xml.gz", plain 300);
        ("repo/repodata/notes.txt", plain 50)].

(** A path that is a regular file where a repository is expected. *)
Definition file_for_repo : filesystem :=
  mkFS ["new/"] [("old", plain 10)].

(* ================================================================== *)
(** ** Facts on C strings *)

Module CStrFacts.
Import CStr.

Lemma app_assoc (a b c : string) : (a ++ b) ++ c = a ++ (b ++ c).
Proof. induction a as [|x a IH]; simpl; [reflexivity | now rewrite IH]. Qed.

Lemma app_empty_r (a : string) : a ++ EmptyString = a.
Proof. induction a as [|x a IH]; simpl; [reflexivity | now rewrite IH]. Qed.

Lemma app_length (a b : string) :
  String.length (a ++ b) = (String.length a + String.length b)%nat.
Proof. induction a as [|x a IH]; simpl; [reflexivity | now rewrite IH]. Qed.

Lemma app_inv_head (p a b : string) : p ++ a = p ++ b -> a = b.
Proof.
  induction p as [|x p IH]; simpl; intros H; [exact H|].
  injection H as H. now apply IH.
Qed.

Lemma skip_app (p s : string) : skip (String.length p) (p ++ s) = s.
Proof. induction p as [|x p IH]; simpl; [reflexivity | exact IH]. Qed.

Lemma skip_split (n : nat) (s : string) :
  (n <= String.length s)%nat -> exists p, s = p ++ skip n s.
Proof.
  revert s. induction n as [|n IH]; intros s Hn.
  - exists EmptyString. reflexivity.
  - destruct s as [|x s]; simpl in Hn; [lia|].
    destruct (IH s) as [p Hp]; [lia|].
    exists (String x p). simpl. now rewrite <- Hp.
Qed.

Lemma contains_app (c : ascii) (a b : string) :
  contains c (a ++ b) = contains c a || contains c b.
Proof.
  induction a as [|x a IH]; simpl; [reflexivity|].
  rewrite IH. now rewrite orb_assoc.
Qed.

Lemma last_char_app (a b : string) :
  b <> EmptyString -> last_char (a ++ b) = last_char b.
Proof.
  intros Hb. induction a as [|x a IH]; simpl; [reflexivity|].
  destruct (a ++ b) eqn:E; [|exact IH].
  destruct a; simpl in E; [congruence | discriminate].
Qed.

Lemma last_char_snoc (a : string) (c : ascii) :
  last_char (a ++ String c EmptyString) = Some c.
Proof. rewrite last_char_app; [reflexivity | discriminate]. Qed.

Lemma last_char_contains (c : ascii) (s : string) :
  last_char s = Some c -> contains c s = true.
Proof.
  induction s as [|x s IH]; simpl; [discriminate|].
  destruct s as [|y s].
  - intros H. injection H as ->. now rewrite Ascii.eqb_refl.
  - intros H. rewrite (IH H). apply orb_true_r.
Qed.

(** [g_str_has_suffix] is the suffix relation. *)
Lemma has_suffix_iff (s suffix : string) :
  g_str_has_suffix s suffix = true <-> exists p, s = p ++ suffix.
Proof.
  unfold g_str_has_suffix. split.
  - destruct (Nat.ltb_spec (String.length s) (String.length suffix)) as [|Hle];
      [discriminate|].
    intros H. apply String.eqb_eq in H.
    destruct (skip_split (String.length s - String.length suffix) s) as [p Hp];
      [lia|].
    exists p. now rewrite <- H.
  - intros [p ->]. rewrite app_length.
    destruct (Nat.ltb_spec (String.length p + String.length suffix)
                           (String.length suffix)); [lia|].
    replace (String.length p + String.length suffix - String.length suffix)%nat
      with (String.length p) by lia.
    rewrite skip_app. apply String.eqb_refl.
Qed.

Lemma has_suffix_last_char (s suffix : string) :
  suffix <> EmptyString -> g_str_has_suffix s suffix = true ->
  last_char s = last_char suffix.
Proof.
  intros Hne H. apply has_suffix_iff in H. destruct H as [p ->].
  now apply last_char_app.
Qed.

Lemma has_suffix_app (c s suffix : string) :
  g_str_has_suffix s suffix = true ->
  g_str_has_suffix (c ++ s) suffix = true.
Proof.
  intros H. apply has_suffix_iff in H. destruct H as [p ->].
  apply has_suffix_iff. exists (c ++ p). symmetry. apply app_assoc.
Qed.

Lemma before_last_none (c : ascii) (s : string) :
  before_last c s = None <-> contains c s = false.
Proof.
  induction s as [|x s IH]; simpl; [tauto|].
  destruct (before_last c s) as [p|].
  - split; [discriminate|]. intros H. apply orb_false_elim in H.
    destruct H as [_ H]. apply IH in H. discriminate.
  - destruct IH as [IH _]. rewrite (IH eq_refl), orb_false_r.
    destruct (Ascii.eqb x c); split; congruence.
Qed.

Lemma before_last_app (c : ascii) (x e : string) :
  contains c e = false -> before_last c (x ++ String c e) = Some x.
Proof.
  intros He. induction x as [|a x IH]; simpl.
  - apply before_last_none in He. now rewrite He, Ascii.eqb_refl.
  - now rewrite IH.
Qed.

Lemma before_last_inv (c : ascii) (s p : string) :
  before_last c s = Some p ->
  exists e, s = p ++ String c e /\ contains c e = false.
Proof.
  revert p. induction s as [|a s IH]; simpl; intros p H; [discriminate|].
  destruct (before_last c s) as [q|] eqn:E.
  - injection H as <-. destruct (IH q eq_refl) as [e [-> He]].
    exists e. split; [reflexivity | exact He].
  - destruct (Ascii.eqb_spec a c) as [->|]; [|discriminate].
    injection H as <-. exists s. split; [reflexivity|].
    now apply before_last_none.
Qed.

Lemma before_last_prepend (c : ascii) (d s p : string) :
  before_last c s = Some p -> before_last c (d ++ s) = Some (d ++ p).
Proof.
  intros H. induction d as [|a d IH]; simpl; [exact H | now rewrite IH].
Qed.

Lemma after_last_app (c : ascii) (d s : string) :
  contains c s = false -> contains c d = true ->
  after_last c (d ++ s) = after_last c d ++ s.
Proof.
  intros Hs. induction d as [|a d IH]; simpl; [discriminate|].
  rewrite contains_app, Hs, orb_false_r.
  destruct (contains c d) eqn:E.
  - intros _. now apply IH.
  - rewrite orb_false_r. intros Ha. rewrite Ha. reflexivity.
Qed.

Lemma after_last_id (c : ascii) (s : string) :
  contains c s = false -> after_last c s = s.
Proof.
  destruct s as [|a s]; simpl; [reflexivity|].
  intros H. apply orb_false_elim in H. destruct H as [Ha Hs].
  now rewrite Hs, Ha.
Qed.

(** The last component of a path that ends in a name. *)
Lemma after_last_name (c : ascii) (d s : string) :
  contains c s = false ->
  exists d', after_last c (d ++ s) = d' ++ s.
Proof.
  intros Hs. destruct (contains c d) eqn:E.
  - exists (after_last c d). now apply after_last_app.
  - exists d. apply after_last_id. now rewrite contains_app, E, Hs.
Qed.

Lemma after_last_dir (c : ascii) (d s : string) :
  contains c s = false ->
  after_last c ((d ++ String c EmptyString) ++ s) = s.
Proof.
  intros Hs. rewrite after_last_app; [|exact Hs|].
  - f_equal. induction d as [|a d IH]; simpl.
    + now rewrite Ascii.eqb_refl.
    + rewrite contains_app. simpl. rewrite Ascii.eqb_refl, orb_true_r.
      exact IH.
  - rewrite contains_app. simpl. rewrite Ascii.eqb_refl. apply orb_true_r.
Qed.

Lemma strip_trailing_id (c : ascii) (s : string) :
  (forall x, last_char s = Some x -> x <> c) -> strip_trailing c s = s.
Proof.
  induction s as [|a s IH]; simpl; [reflexivity|].
  destruct s as [|b s].
  - intros H. simpl. destruct (Ascii.eqb_spec a c) as [->|]; [|reflexivity].
    now destruct (H c eq_refl).
  - intros H. rewrite (IH H). reflexivity.
Qed.

Lemma strip_prefix_app (p s : string) : strip_prefix p (p ++ s) = Some s.
Proof.
  induction p as [|a p IH]; simpl; [reflexivity|].
  now rewrite Ascii.eqb_refl.
Qed.

Lemma strip_prefix_inv (p s r : string) :
  strip_prefix p s = Some r -> s = p ++ r.
Proof.
  revert s. induction p as [|a p IH]; simpl; intros s H.
  - congruence.
  - destruct s as [|b s]; [discriminate|].
    destruct (Ascii.eqb_spec a b) as [->|]; [|discriminate].
    simpl. f_equal. now apply IH.
Qed.

End CStrFacts.

(* ================================================================== *)
(** ** The primitives on small inputs *)

Example basename_of_paths :
  map g_path_get_basename [EmptyString; "/"; "a/b/"; "a/b"; "b"; "//a//"]
  = ["."; "/"; "b"; "b"; "b"; "a"].
Proof. reflexivity. Qed.

Example build_filename_of_paths :
  map (fun dir => g_build_filename dir "repomd.xml")
      [EmptyString; "old/repodata"; "old/repodata/"; "/"]
  = ["repomd.xml"; "old/repodata/repomd.xml"; "old/repodata/repomd.xml";
     "/repomd.xml"].
Proof. reflexivity. Qed.

Example classify_of_names :
  map classify ["x-primary.xml"; "x-primary.xml.gz"; "x-primary.xml.";
                "primary.xml.tar.gz"; "noext"; "other.sqlite.bz2";
                "x-filelists.sqlite.xz"]
  = [None; Some Primary; Some Primary; None; None; Some OtherDb;
     Some FilelistsDb].
Proof. reflexivity. Qed.

Example insert_sorted_keeps_order :
  map mtime
      (g_slist_insert_sorted
         [mkOldFile 30 "c"; mkOldFile 20 "b"; mkOldFile 10 "a"]
         (mkOldFile 20 "n") cr_cmp_old_repodata_files)
  = [30; 20; 20; 10]
  /\ map path
         (g_slist_insert_sorted
            [mkOldFile 30 "c"; mkOldFile 20 "b"; mkOldFile 10 "a"]
            (mkOldFile 20 "n") cr_cmp_old_repodata_files)
     = ["c"; "n"; "b"; "a"].
Proof. split; reflexivity. Qed.

(** Without the separator at the end of the directory path the selection
    stats and blacklists names that are not in the directory. *)
Example path_without_separator :
  cr_repodata_blacklist_classic
    "repodata" 0 (scenario_repodata (plain 100) (plain 200) (plain 300))
  = ((true, ["repodataa3-primary.xml.gz"], None),
     scenario_repodata (plain 100) (plain 200) (plain 300),
     [EvDirOpen "repodata" true; EvStat "repodataa3-primary.xml.gz" false]).
Proof. reflexivity. Qed.

(* ================================================================== *)
(** ** Base names and classification *)

Section Names.
Import CStr CStrFacts.

Lemma entry_like_last (name : string) :
  entry_like name -> forall x, last_char (name) = Some x -> x <> slash.
Proof.
  intros [_ Hs] x Hx ->. apply last_char_contains in Hx. congruence.
Qed.

Lemma strip_trailing_path (d name : string) :
  entry_like name -> strip_trailing slash (d ++ name) = d ++ name.
Proof.
  intros Hn. apply strip_trailing_id. intros x.
  rewrite last_char_app by apply Hn. now apply entry_like_last.
Qed.

Lemma path_nonempty (d name : string) : name <> EmptyString -> d ++ name <> EmptyString.
Proof. destruct d; simpl; [tauto | discriminate]. Qed.

Lemma basename_unfold (d name : string) :
  entry_like name ->
  g_path_get_basename (d ++ name) = after_last slash (d ++ name).
Proof.
  intros Hn. unfold g_path_get_basename.
  rewrite (strip_trailing_path d name Hn).
  pose proof (path_nonempty d name (proj1 Hn)) as Hne.
  destruct (d ++ name); [congruence | reflexivity].
Qed.

(** Under a directory path that ends in a separator, the base name of an
    entry's path is the entry's name. *)
Lemma basename_in_dir (d name : string) :
  entry_like name -> g_path_get_basename ((d ++ "/") ++ name) = name.
Proof.
  intros Hn. rewrite basename_unfold by exact Hn.
  apply after_last_dir, Hn.
Qed.

(** Whatever the directory path, the base name ends with the entry name. *)
Lemma basename_ends_with_name (d name : string) :
  entry_like name -> exists d', g_path_get_basename (d ++ name) = d' ++ name.
Proof.
  intros Hn. rewrite basename_unfold by exact Hn.
  apply after_last_name, Hn.
Qed.

Lemma family_of_stem_suffix (stem : string) (x : family) :
  family_of_stem stem = Some x -> g_str_has_suffix stem (marker x) = true.
Proof.
  unfold family_of_stem.
  repeat match goal with
         | |- context [if g_str_has_suffix stem ?m then _ else _] =>
             destruct (g_str_has_suffix stem m) eqn:?
         end; intros H; inversion H; subst; simpl; assumption.
Qed.

Lemma family_of_stem_some (stem : string) (x : family) :
  g_str_has_suffix stem (marker x) = true -> family_of_stem stem <> None.
Proof.
  unfold family_of_stem. intros H.
  repeat match goal with
         | |- context [if g_str_has_suffix stem ?m then _ else _] =>
             destruct (g_str_has_suffix stem m) eqn:?
         end; try discriminate.
  destruct x; simpl in H; congruence.
Qed.

(** A classified name is a marker followed by one more extension. *)
Lemma classify_inv (filename : string) (x : family) :
  classify filename = Some x ->
  exists p ext, filename = p ++ marker x ++ String dot ext
                /\ contains dot ext = false.
Proof.
  unfold classify. destruct (before_last dot filename) as [stem|] eqn:E;
    [|discriminate].
  intros H. apply family_of_stem_suffix, has_suffix_iff in H.
  destruct H as [p ->]. apply before_last_inv in E.
  destruct E as [ext [-> He]]. exists p, ext. split; [|exact He].
  apply app_assoc.
Qed.

(** Classification looks at the end of the name only. *)
Lemma classify_prepend (c filename : string) (x : family) :
  classify filename = Some x -> classify (c ++ filename) <> None.
Proof.
  unfold classify. destruct (before_last dot filename) as [stem|] eqn:E;
    [|discriminate].
  intros H. rewrite (before_last_prepend dot c filename stem E).
  apply family_of_stem_some with x, has_suffix_app.
  now apply family_of_stem_suffix.
Qed.

Lemma stem_not_marker (p base : string) (last : ascii) :
  last_char base = Some last -> base <> EmptyString ->
  last <> "l"%char -> last <> "e"%char ->
  family_of_stem (p ++ base) = None.
Proof.
  intros Hl Hne Hx He. unfold family_of_stem.
  repeat match goal with
         | |- context [if g_str_has_suffix ?s ?m then _ else _] =>
             let E := fresh "E" in
             destruct (g_str_has_suffix s m) eqn:E;
             [ apply has_suffix_last_char in E; [|discriminate];
               rewrite last_char_app in E by exact Hne;
               rewrite Hl in E; simpl in E; congruence | ]
         end.
  reflexivity.
Qed.

(** A name that ends with a marker has the marker's own extension as its
    last one, and what is left ends with no marker. *)
Lemma classify_marker_tail (p : string) (x : family) :
  classify (p ++ marker x) = None.
Proof.
  unfold classify.
  assert (H : exists base ext last,
             marker x = base ++ String dot ext
             /\ contains dot ext = false
             /\ last_char base = Some last /\ base <> EmptyString
             /\ last <> "l"%char /\ last <> "e"%char).
  { destruct x; simpl;
      [ exists "primary", "xml", "y"%char
      | exists "primary", "sqlite", "y"%char
      | exists "filelists", "xml", "s"%char
      | exists "filelists", "sqlite", "s"%char
      | exists "other", "xml", "r"%char
      | exists "other", "sqlite", "r"%char ];
      repeat split; discriminate. }
  destruct H as (base & ext & last & -> & Hext & Hl & Hne & H1 & H2).
  rewrite <- app_assoc, (before_last_app dot (p ++ base) ext Hext).
  now apply stem_not_marker with last.
Qed.

End Names.

(* ================================================================== *)
(** ** Runs *)

Lemma result_mk {A} (a : A) (fs : filesystem) (t : list event) :
  result (a, fs, t) = a.
Proof. reflexivity. Qed.

Lemma final_fs_mk {A} (a : A) (fs : filesystem) (t : list event) :
  final_fs (a, fs, t) = fs.
Proof. reflexivity. Qed.

Lemma trace_mk {A} (a : A) (fs : filesystem) (t : list event) :
  trace (a, fs, t) = t.
Proof. reflexivity. Qed.

Ltac run_simpl := rewrite ?result_mk, ?final_fs_mk, ?trace_mk.

Tactic Notation "run_simpl" "in" hyp(H) :=
  rewrite ?result_mk, ?final_fs_mk, ?trace_mk in H.

(* ================================================================== *)
(** ** The directory loop of the classic selection *)

Section Scan.
Variable fs : filesystem.
Variable repodata_path : string.

Lemma family_eqb_eq (x y : family) : family_eqb x y = true <-> x = y.
Proof. destruct x, y; simpl; split; congruence. Qed.

Lemma family_eqb_refl (x : family) : family_eqb x x = true.
Proof. now destruct x. Qed.

Lemma family_eqb_sym (x y : family) : family_eqb x y = family_eqb y x.
Proof. now destruct x, y. Qed.

Lemma stat_and_insert_run (filename : string) (lst : list OldFile) :
  cr_stat_and_insert repodata_path filename lst fs
  = (g_slist_insert_sorted lst (old_file_of fs repodata_path filename)
                           cr_cmp_old_repodata_files,
     fs,
     [EvStat (repodata_path ++ filename)
             (match FS.stat (repodata_path ++ filename) fs with
              | Some _ => true | None => false end)]).
Proof.
  unfold cr_stat_and_insert, bind, stat, ret, old_file_of, recorded_mtime.
  destruct (FS.stat (repodata_path ++ filename) fs); reflexivity.
Qed.

(** The loop reads only: it leaves the file system as it is and makes one
    [stat] call per classified name. *)
Lemma scan_run (names : list string) (ls : lists) :
  scan_repodata repodata_path names ls fs
  = (inserted fs repodata_path names ls, fs,
     stat_events fs repodata_path names).
Proof.
  revert ls. induction names as [|filename rest IH]; intros ls; simpl.
  - reflexivity.
  - unfold stat_events. simpl. destruct (classify filename) as [x|].
    + unfold bind. rewrite stat_and_insert_run, IH. reflexivity.
    + rewrite IH. reflexivity.
Qed.

Lemma insert_sorted_perm (l : list OldFile) (o : OldFile) :
  Permutation (g_slist_insert_sorted l o cr_cmp_old_repodata_files) (o :: l).
Proof.
  induction l as [|e l IH]; simpl; [apply Permutation_refl|].
  destruct (0 <? cr_cmp_old_repodata_files o e).
  - eapply perm_trans; [apply perm_skip, IH | apply perm_swap].
  - apply Permutation_refl.
Qed.

Lemma cmp_positive (a b : OldFile) :
  0 < cr_cmp_old_repodata_files a b <-> mtime a < mtime b.
Proof.
  unfold cr_cmp_old_repodata_files.
  destruct (Z.ltb_spec (mtime a) (mtime b)); [lia|].
  destruct (Z.gtb_spec (mtime a) (mtime b)); lia.
Qed.

Lemma insert_sorted_descending (l : list OldFile) (o : OldFile) :
  descending l ->
  descending (g_slist_insert_sorted l o cr_cmp_old_repodata_files).
Proof.
  unfold descending. induction 1 as [|e l Hl IH He]; simpl.
  - repeat constructor.
  - destruct (Z.ltb_spec 0 (cr_cmp_old_repodata_files o e)) as [Hc|Hc].
    + apply cmp_positive in Hc. constructor; [exact IH|].
      rewrite Forall_forall in *. intros b Hb.
      apply (Permutation_in _ (insert_sorted_perm l o)) in Hb.
      destruct Hb as [<-|Hb]; [lia | now apply He].
    + assert (Hoe : mtime e <= mtime o).
      { destruct (Z.lt_ge_cases (mtime o) (mtime e)) as [Hlt|]; [|lia].
        apply cmp_positive in Hlt. lia. }
      constructor; [now constructor|].
      constructor; [exact Hoe|].
      rewrite Forall_forall in *. intros b Hb. specialize (He b Hb). lia.
Qed.

(** Each list holds the records of its family's files, newest first. *)
Lemma inserted_perm (names : list string) (ls : lists) (x : family) :
  Permutation (inserted fs repodata_path names ls x)
              (map (old_file_of fs repodata_path) (members x names) ++ ls x).
Proof.
  revert ls. induction names as [|filename rest IH]; intros ls; simpl.
  - apply Permutation_refl.
  - unfold members, in_family. simpl.
    destruct (classify filename) as [y|] eqn:E.
    + eapply perm_trans; [apply IH|]. unfold set_list.
      rewrite (family_eqb_sym y x).
      destruct (family_eqb x y) eqn:Exy; [|apply Permutation_refl].
      apply family_eqb_eq in Exy. subst y. simpl.
      fold (in_family x) (members x rest).
      eapply perm_trans;
        [apply Permutation_app_head, insert_sorted_perm|].
      apply Permutation_sym, Permutation_middle.
    + apply IH.
Qed.

End Scan.

(* ================================================================== *)
(** ** The classic selection as a whole *)

Section Classic.
Import CStr CStrFacts.

Lemma inserted_descending fs d (names : list string) (ls : lists) :
  (forall x, descending (ls x)) ->
  forall x, descending (inserted fs d names ls x).
Proof.
  revert ls. induction names as [|filename rest IH]; intros ls Hls; simpl.
  - exact Hls.
  - destruct (classify filename) as [y|]; [|now apply IH].
    apply IH. intros x. unfold set_list.
    destruct (family_eqb y x); [|apply Hls].
    apply insert_sorted_descending, Hls.
Qed.

Lemma no_lists_descending (x : family) : descending (no_lists x).
Proof. constructor. Qed.

Lemma prepend_basenames (l : list OldFile) (bl : list string) :
  fold_left (fun bl old_file => g_path_get_basename (path old_file) :: bl) l bl
  = (rev (map (fun o => g_path_get_basename (path o)) l) ++ bl)%list.
Proof.
  revert bl. induction l as [|o l IH]; intros bl; simpl; [reflexivity|].
  rewrite IH, <- List.app_assoc. reflexivity.
Qed.

Lemma in_skipn {A} (n : nat) (l : list A) (a : A) :
  In a (skipn n l) -> In a l.
Proof.
  intros H. rewrite <- (firstn_skipn n l). apply in_or_app. now right.
Qed.

Lemma append_to_blacklist_eq (ls : lists) (retain : nat) (bl : list string) :
  append_to_blacklist ls retain bl
  = (rev (flat_map (dropped_names ls retain) families) ++ bl)%list.
Proof.
  unfold append_to_blacklist. generalize families. intros fl. revert bl.
  induction fl as [|x fl IH]; intros bl; simpl; [reflexivity|].
  rewrite IH, prepend_basenames, rev_app_distr, <- List.app_assoc.
  reflexivity.
Qed.

Lemma all_families (x : family) : In x families.
Proof. destruct x; simpl; tauto. Qed.

Lemma in_append_to_blacklist (ls : lists) (retain : nat) (b : string) :
  In b (append_to_blacklist ls retain [])
  <-> exists x, In b (dropped_names ls retain x).
Proof.
  rewrite append_to_blacklist_eq, app_nil_r, <- in_rev, in_flat_map.
  split.
  - intros [x [_ H]]. now exists x.
  - intros [x H]. exists x. split; [apply all_families | exact H].
Qed.

(** The selection never changes the file system. *)
Lemma classic_run fs d retain names :
  0 <= retain -> FS.opendir d fs = Some names ->
  cr_repodata_blacklist_classic d retain fs
  = ((true,
      append_to_blacklist (inserted fs d names no_lists) (Z.to_nat retain) [],
      None),
     fs, EvDirOpen d true :: stat_events fs d names).
Proof.
  intros Hr Ho. unfold cr_repodata_blacklist_classic.
  destruct (Z.eqb_spec retain (-1)); [lia|].
  destruct (Z.ltb_spec retain 0); [lia|].
  unfold bind, g_dir_open. rewrite Ho, scan_run. simpl.
  rewrite app_nil_r. reflexivity.
Qed.

Lemma classic_run_closed fs d retain :
  0 <= retain -> FS.opendir d fs = None ->
  cr_repodata_blacklist_classic d retain fs
  = ((false, [], Some (cannot_open_error d)), fs,
     [EvDirOpen d false; EvWarning (ge_message (cannot_open_error d))]).
Proof.
  intros Hr Ho. unfold cr_repodata_blacklist_classic.
  destruct (Z.eqb_spec retain (-1)); [lia|].
  destruct (Z.ltb_spec retain 0); [lia|].
  unfold bind, g_dir_open. rewrite Ho. reflexivity.
Qed.

Lemma classic_run_all fs d :
  cr_repodata_blacklist_classic d (-1) fs = ((true, [], None), fs, []).
Proof. reflexivity. Qed.

Lemma classic_run_badarg fs d retain :
  retain < -1 ->
  cr_repodata_blacklist_classic d retain fs
  = ((false, [], Some badarg_error), fs, []).
Proof.
  intros Hr. unfold cr_repodata_blacklist_classic.
  destruct (Z.eqb_spec retain (-1)); [lia|].
  destruct (Z.ltb_spec retain 0); [reflexivity | lia].
Qed.

Lemma classic_cases fs d retain :
  retain = -1 \/ retain < -1
  \/ (0 <= retain /\ FS.opendir d fs = None)
  \/ (0 <= retain /\ exists names, FS.opendir d fs = Some names).
Proof.
  destruct (Z.eq_dec retain (-1)); [tauto|].
  destruct (Z.lt_ge_cases retain 0); [lia|].
  destruct (FS.opendir d fs) as [names|] eqn:E; eauto 6.
Qed.

Lemma classic_readonly fs d retain :
  final_fs (cr_repodata_blacklist_classic d retain fs) = fs.
Proof.
  destruct (classic_cases fs d retain)
    as [-> | [H | [[H Ho] | [H [names Ho]]]]].
  - reflexivity.
  - now rewrite classic_run_badarg.
  - now rewrite classic_run_closed.
  - now rewrite (classic_run fs d retain names).
Qed.

(** What a directory scan returns. *)
Lemma in_entries (d name : string) (l : list (string * node)) :
  In name (FS.entries d l)
  <-> entry_like name /\ In (d ++ name) (map fst l).
Proof.
  unfold FS.entries. rewrite in_flat_map. split.
  - intros [[p n] [Hin H]]. simpl in H. unfold FS.entry_name in H.
    destruct (strip_prefix d p) as [r|] eqn:E; [|destruct H].
    apply strip_prefix_inv in E. subst p.
    destruct r as [|a r]; [destruct H|].
    destruct (contains slash (String a r)) eqn:Es; [destruct H|].
    destruct H as [<-|[]]. split.
    + split; [discriminate | exact Es].
    + apply in_map_iff. now exists (d ++ String a r, n).
  - intros [[Hne Hs] Hin]. apply in_map_iff in Hin.
    destruct Hin as [[p n] [Hp Hin]]. simpl in Hp. subst p.
    exists (d ++ name, n). split; [exact Hin|]. simpl.
    unfold FS.entry_name. rewrite strip_prefix_app.
    destruct name; [congruence|]. rewrite Hs. now left.
Qed.

Lemma opendir_entry_like fs d names name :
  FS.opendir d fs = Some names -> In name names -> entry_like name.
Proof.
  unfold FS.opendir. destruct (FS.has_dir (FS.as_dir d) fs); [|discriminate].
  intros H. injection H as <-. intros Hin. now apply in_entries in Hin.
Qed.

Lemma in_members (x : family) (names : list string) (name : string) :
  In name (members x names) <-> In name names /\ classify name = Some x.
Proof.
  unfold members, in_family. rewrite filter_In.
  destruct (classify name) as [y|].
  - rewrite family_eqb_eq. split; intros [H1 H2]; split; congruence.
  - split; intros [_ H]; discriminate.
Qed.

(** Each record of a list stands for a file of its family. *)
Lemma in_inserted fs d names x o :
  In o (inserted fs d names no_lists x)
  <-> exists name, In name (members x names) /\ o = old_file_of fs d name.
Proof.
  split.
  - intros H. apply (Permutation_in _ (inserted_perm fs d names no_lists x)) in H.
    unfold no_lists in H. rewrite app_nil_r in H. apply in_map_iff in H.
    destruct H as [name [Ho Hin]]. now exists name.
  - intros [name [Hin ->]].
    apply (Permutation_in _ (Permutation_sym
                               (inserted_perm fs d names no_lists x))).
    unfold no_lists. rewrite app_nil_r. now apply in_map.
Qed.

(** Every name on the blacklist of the classic selection is the base name
    of the path of a classified file of the listing. *)
Lemma classic_blacklisted fs d retain b :
  In b (blacklist_of (result (cr_repodata_blacklist_classic d retain fs))) ->
  exists names x name,
    FS.opendir d fs = Some names /\ In name names
    /\ classify name = Some x /\ b = g_path_get_basename (d ++ name).
Proof.
  destruct (classic_cases fs d retain)
    as [-> | [H | [[H Ho] | [H [names Ho]]]]].
  - intros [].
  - rewrite classic_run_badarg by exact H. intros [].
  - rewrite classic_run_closed by assumption. intros [].
  - rewrite (classic_run fs d retain names) by assumption.
    unfold blacklist_of, result. simpl. intros Hb.
    apply in_append_to_blacklist in Hb. destruct Hb as [x Hb].
    unfold dropped_names, g_slist_nth in Hb. apply in_map_iff in Hb.
    destruct Hb as [o [<- Ho']].
    apply in_skipn in Ho'.
    apply in_inserted in Ho'. destruct Ho' as [name [Hm ->]].
    apply in_members in Hm. destruct Hm as [Hin Hc].
    exists names, x, name. simpl. tauto.
Qed.

End Classic.

(* ================================================================== *)
(** ** Names that end with a marker *)

(** C9: a file name whose last characters are one of the six markers, with
    nothing after the marker, is routed to no family and is on the blacklist
    of the classic selection for no retain count, directory or file system;
    a name that is classified is a marker followed by a dot and one more
    extension, the one that is cut off before the suffix test (so
    [x-primary.xml.gz] is classified and [x-primary.xml] is not). *)
Theorem marker_tail_never_classified (p : string) (x : family) :
  classify (p ++ marker x) = None
  /\ (forall d retain fs,
         ~ In (p ++ marker x)
              (blacklist_of (result (cr_repodata_blacklist_classic d retain fs))))
  /\ (forall filename y,
         classify filename = Some y ->
         exists q ext, filename = q ++ marker y ++ String dot ext
                       /\ CStr.contains dot ext = false)
  /\ classify "x-primary.xml.gz" = Some Primary
  /\ classify "x-primary.xml" = None
  /\ classify "x-filelists.sqlite" = None.
Proof.
  split; [apply classify_marker_tail|].
  split; [|split; [apply classify_inv | repeat split; reflexivity]].
  intros d retain fs Hb. apply classic_blacklisted in Hb.
  destruct Hb as (names & y & name & Ho & Hin & Hc & Hb).
  pose proof (opendir_entry_like fs d names name Ho Hin) as Hn.
  destruct (basename_ends_with_name d name Hn) as [d' Hd].
  apply (classify_prepend d' name y Hc).
  rewrite <- Hd, <- Hb. apply classify_marker_tail.
Qed.

Lemma marker_tail_never_classified_witness :
  classify ("x-" ++ marker FilelistsDb) = None
  /\ ~ In "x-filelists.sqlite"
         (blacklist_of
            (result (cr_repodata_blacklist_classic
                       "repo/repodata/" 0 repo_with_manifest)))
  /\ exists q ext, "c-primary.sqlite.bz2" = q ++ marker PrimaryDb ++ String dot ext
                   /\ CStr.contains dot ext = false.
Proof.
  pose proof (marker_tail_never_classified "x-" FilelistsDb) as T.
  destruct T as (T1 & T2 & T3 & _).
  split; [exact T1|]. split; [apply T2|].
  apply T3. reflexivity.
Defined.

(* ================================================================== *)
(** ** The scenario with three primary files *)

(** C2, as the code has it: in a directory with exactly [a1-primary.xml],
    [a2-primary.xml] and [a3-primary.xml.gz], whatever their modification
    times, the classic selection with retain count 1 routes only
    [a3-primary.xml.gz] to a family (primary), leaves the two names that end
    with the marker unclassified, and returns an empty blacklist. *)
Theorem scenario_blacklist_empty (n1 n2 n3 : node) :
  let fs := scenario_repodata n1 n2 n3 in
  FS.opendir "repodata/" fs
  = Some ["a1-primary.xml"; "a2-primary.xml"; "a3-primary.xml.gz"]
  /\ classify "a1-primary.xml" = None
  /\ classify "a2-primary.xml" = None
  /\ classify "a3-primary.xml.gz" = Some Primary
  /\ result (cr_repodata_blacklist_classic "repodata/" 1 fs) = (true, [], None).
Proof.
  repeat split.
  rewrite (classic_run _ _ 1 ["a1-primary.xml"; "a2-primary.xml";
                              "a3-primary.xml.gz"]); [reflexivity | lia | reflexivity].
Qed.

(** At T1 = 100 and T2 = 200 the file with the further extension is the one
    that is classified, and [a1-primary.xml] is not on the blacklist. *)
Lemma scenario_a1_not_blacklisted :
  classify "a3-primary.xml.gz" = Some Primary
  /\ ~ In "a1-primary.xml"
        (blacklist_of
           (result (cr_repodata_blacklist_classic
                      "repodata/" 1
                      (scenario_repodata (plain 100) (plain 200) (plain 300))))).
Proof. split; [reflexivity | vm_compute; tauto]. Qed.

(* ================================================================== *)
(** ** Retain counts below zero *)

(** C7: with retain count -1 both selections return success and an empty
    blacklist at once: the file system is as before and no call on it was
    made, whatever the directory path. *)
Theorem retain_all_short_circuit (repodata_path : string) (fs : filesystem) :
  cr_repodata_blacklist_classic repodata_path (-1) fs = ((true, [], None), fs, [])
  /\ cr_repodata_blacklist repodata_path (-1) fs = ((true, [], None), fs, []).
Proof. split; reflexivity. Qed.

Lemma manifest_run_badarg fs d retain :
  retain < -1 ->
  cr_repodata_blacklist d retain fs = ((false, [], Some badarg_error), fs, []).
Proof.
  intros Hr. unfold cr_repodata_blacklist.
  destruct (Z.eqb_spec retain (-1)); [lia|].
  destruct (Z.ltb_spec 0 retain); [lia|]. simpl.
  destruct (Z.ltb_spec retain 0); [reflexivity | lia].
Qed.

(** C3, as the code has it: for a retain count below -1 the pruner reports
    the invalid-argument error through its error argument; the migrator
    returns failure with that error when the old repository path exists and
    success without an error when it does not, the existence test being its
    first step; in each case the file system is unchanged and no directory is
    opened. *)
Theorem retain_below_minus_one (retain : Z) (fs : filesystem)
        (repopath old_repo new_repo : string) :
  retain < -1 ->
  let pruned := cr_remove_metadata_classic repopath retain fs in
  let migrated := cr_old_metadata_retention old_repo new_repo retain fs in
  ge_code badarg_error = CRE_BADARG
  /\ snd (result pruned) = Some badarg_error
  /\ final_fs pruned = fs /\ trace pruned = []
  /\ (FS.exists_ old_repo fs = true ->
      result migrated = (false, Some badarg_error))
  /\ (FS.exists_ old_repo fs = false -> result migrated = (true, None))
  /\ final_fs migrated = fs
  /\ filter is_dir_open (trace migrated) = [].
Proof.
  intros Hr pruned migrated. subst pruned migrated.
  unfold cr_remove_metadata_classic, cr_old_metadata_retention, bind,
    g_file_test_exists, compatibility_mode.
  rewrite !classic_run_badarg by exact Hr.
  destruct (FS.exists_ old_repo fs); simpl.
  - rewrite classic_run_badarg by exact Hr. simpl.
    repeat split; congruence.
  - repeat split; congruence.
Qed.

Lemma retain_below_minus_one_witness :
  let fs := scenario_repodata (plain 1) (plain 2) (plain 3) in
  -2 < -1
  /\ snd (result (cr_remove_metadata_classic "." (-2) fs)) = Some badarg_error
  /\ result (cr_old_metadata_retention "repodata/" "new/" (-2) fs)
     = (false, Some badarg_error).
Proof.
  assert (H : -2 < -1) by lia.
  pose proof (retain_below_minus_one
                (-2) (scenario_repodata (plain 1) (plain 2) (plain 3))
                "." "repodata/" "new/" H) as T.
  cbv zeta in T. destruct T as (_ & T1 & _ & _ & T2 & _).
  split; [exact H|]. split; [exact T1|]. apply T2. reflexivity.
Defined.

(** With retain count -2 and an old repository path that does not exist the
    migrator returns success and sets no error. *)
Lemma migrator_absent_old_repo_succeeds :
  result (cr_old_metadata_retention "old/repodata/" "new/repodata/" (-2)
                                    only_new_repo)
  = (true, None).
Proof. reflexivity. Qed.

(** For a retain count below -1 the pruner leaves through [return FALSE]:
    its [int] return value is the one of [CRE_OK], next to the error it
    sets. *)
Lemma pruner_badarg_return_value (repopath : string) (fs : filesystem) :
  result (cr_remove_metadata_classic repopath (-2) fs)
  = (CRE_OK, Some badarg_error).
Proof. reflexivity. Qed.

(* ================================================================== *)
(** ** The selection by the old repomd.xml *)

Section Manifest.

Lemma blacklist_records_fs records bl fs :
  final_fs (blacklist_records records bl fs) = fs.
Proof.
  revert bl. induction records as [|rec rest IH]; intros bl; simpl;
    [reflexivity|].
  destruct (location_href rec) as [href|].
  - destruct (location_base rec) as [base|]; [|apply IH].
    unfold bind, g_debug. specialize (IH bl).
    destruct (blacklist_records rest bl fs) as [[b f] t]. exact IH.
  - unfold bind, g_warning. specialize (IH bl).
    destruct (blacklist_records rest bl fs) as [[b f] t]. exact IH.
Qed.

Lemma blacklist_records_in records bl fs b :
  In b (result (blacklist_records records bl fs))
  <-> In b bl \/ exists rec, In rec records /\ contributes rec b.
Proof.
  revert bl. induction records as [|rec rest IH]; intros bl; simpl.
  - split; [tauto | intros [H | [rec [[] _]]]; exact H].
  - assert (Hskip : (location_href rec = None \/ location_base rec <> None) ->
                    (In b bl \/ (exists r, In r rest /\ contributes r b))
                    <-> (In b bl
                         \/ exists r, (rec = r \/ In r rest) /\ contributes r b)).
    { intros Hs. split.
      - intros [H | [r [Hr Hc]]]; [tauto | right; exists r; tauto].
      - intros [H | [r [[<- | Hr] Hc]]]; [tauto | | right; exists r; tauto].
        destruct Hc as [href [H1 [H2 _]]]. destruct Hs; congruence. }
    destruct (location_href rec) as [href|] eqn:Eh.
    + destruct (location_base rec) as [base|] eqn:Eb.
      * rewrite <- Hskip by (right; discriminate). rewrite <- (IH bl).
        unfold bind, g_debug, result.
        destruct (blacklist_records rest bl fs) as [[b' f] t]. reflexivity.
      * rewrite IH. simpl. split.
        -- intros [[<- | H] | [r [Hr Hc]]].
           ++ right. exists rec. split; [now left|]. now exists href.
           ++ now left.
           ++ right. exists r. tauto.
        -- intros [H | [r [[<- | Hr] Hc]]].
           ++ tauto.
           ++ destruct Hc as [h [H1 [_ ->]]]. left. left. congruence.
           ++ right. exists r. tauto.
    + rewrite <- Hskip by (now left). rewrite <- (IH bl).
      unfold bind, g_warning, result.
      destruct (blacklist_records rest bl fs) as [[b' f] t]. reflexivity.
Qed.

Lemma manifest_run_zero fs d :
  let old_repomd_path := g_build_filename d "repomd.xml" in
  let records := match FS.parse_repomd old_repomd_path fs with
                 | Some records => records
                 | None => []
                 end in
  result (cr_repodata_blacklist d 0 fs)
  = (true, result (blacklist_records records [] fs), None)
  /\ final_fs (cr_repodata_blacklist d 0 fs) = fs.
Proof.
  intros p records. subst records.
  unfold cr_repodata_blacklist. simpl. fold p.
  unfold bind, cr_xml_parse_repomd, g_warning, ret.
  destruct (FS.parse_repomd p fs) as [records|].
  - pose proof (blacklist_records_fs records [] fs) as Hfs.
    unfold result, final_fs in *.
    destruct (blacklist_records records [] fs) as [[b f] t]. simpl in *.
    now subst f.
  - simpl. split; reflexivity.
Qed.

End Manifest.

(** C6: with retain count 0 the selection by the manifest succeeds, sets no
    error and changes nothing; when the manifest parses, its blacklist holds
    exactly the base names of the records with a location reference and no
    base location; when the manifest does not parse, the selection still
    succeeds, with a warning and the empty blacklist. *)
Theorem manifest_selection_zero (repodata_path : string) (fs : filesystem) :
  let run := cr_repodata_blacklist repodata_path 0 fs in
  let old_repomd_path := g_build_filename repodata_path "repomd.xml" in
  succeeded (result run) = true
  /\ error_of (result run) = None
  /\ final_fs run = fs
  /\ (forall records,
         FS.parse_repomd old_repomd_path fs = Some records ->
         forall b, In b (blacklist_of (result run))
                   <-> exists rec, In rec records /\ contributes rec b)
  /\ (FS.parse_repomd old_repomd_path fs = None ->
      blacklist_of (result run) = []
      /\ In (EvWarning ("Cannot parse repomd: " ++ old_repomd_path)) (trace run)).
Proof.
  intros run p. subst run.
  destruct (manifest_run_zero fs repodata_path) as [Hr Hfs]. fold p in Hr.
  rewrite Hr. unfold succeeded, error_of, blacklist_of. simpl.
  split; [reflexivity|]. split; [reflexivity|]. split; [exact Hfs|]. split.
  - intros records Hp b. rewrite Hp, blacklist_records_in. split.
    + intros [[] | H]. exact H.
    + intros H. now right.
  - intros Hp. split.
    + rewrite Hp. reflexivity.
    + unfold cr_repodata_blacklist. simpl. fold p.
      unfold bind, cr_xml_parse_repomd, g_warning, ret, trace.
      rewrite Hp. simpl. right. now left.
Qed.

Lemma manifest_selection_zero_witness :
  let run := cr_repodata_blacklist "old/repodata/" 0 repo_with_parsed_manifest in
  FS.parse_repomd "old/repodata/repomd.xml" repo_with_parsed_manifest
  = n_repomd parsed_manifest
  /\ (forall b, In b (blacklist_of (result run)) <-> b = "a-primary.xml.gz").
Proof.
  pose proof (manifest_selection_zero "old/repodata/" repo_with_parsed_manifest)
    as T.
  cbv zeta in T. destruct T as (_ & _ & _ & T & _).
  split; [reflexivity|]. intros b.
  rewrite (T _ eq_refl b). unfold contributes. split.
  - intros (rec & [<- | [<- | [<- | []]]] & href & H1 & H2 & ->);
      simpl in *; try discriminate.
    injection H1 as <-. reflexivity.
  - intros ->. exists (mkRecord (Some "repodata/a-primary.xml.gz") None).
    split; [now left|]. exists "repodata/a-primary.xml.gz".
    repeat split.
Defined.

(* ================================================================== *)
(** ** Facts on the file system *)

Module FSFacts.
Import FS.

Lemma lookup_unlink (p q : string) (l : list (string * node)) :
  lookup p (unlink q l) = if String.eqb q p then None else lookup p l.
Proof.
  induction l as [|[k n] l IH]; simpl.
  - now destruct (String.eqb q p).
  - destruct (String.eqb_spec k q) as [->|Hkq]; simpl.
    + rewrite IH. now destruct (String.eqb q p).
    + rewrite IH. destruct (String.eqb_spec k p) as [->|Hkp].
      * destruct (String.eqb_spec q p); [congruence | reflexivity].
      * reflexivity.
Qed.

Lemma lookup_write_other (p q : string) (n : node) (l : list (string * node)) :
  p <> q -> lookup p (write q n l) = lookup p l.
Proof.
  intros Hpq. induction l as [|[k m] l IH]; simpl.
  - destruct (String.eqb_spec q p); [congruence | reflexivity].
  - destruct (String.eqb_spec k q) as [->|Hkq]; simpl.
    + destruct (String.eqb_spec q p); [congruence | reflexivity].
    + now rewrite IH.
Qed.

Lemma lookup_in (p : string) (n : node) (l : list (string * node)) :
  lookup p l = Some n -> In p (map fst l).
Proof.
  induction l as [|[k m] l IH]; simpl; [discriminate|].
  destruct (String.eqb_spec k p); [now left | intros H; right; now apply IH].
Qed.

Lemma exists_false (p : string) (fs : filesystem) :
  exists_ p fs = false -> lookup p (fs_files fs) = None.
Proof. unfold exists_. now destruct (lookup p (fs_files fs)). Qed.

(** A copy changes the destination path only. *)
Lemma copy_frame (src dst p : string) (fs fs' : filesystem) :
  copy src dst fs = Some fs' -> p <> dst ->
  lookup p (fs_files fs') = lookup p (fs_files fs)
  /\ fs_dirs fs' = fs_dirs fs.
Proof.
  unfold copy. destruct (lookup src (fs_files fs)) as [n|]; [|discriminate].
  destruct (n_copyable n && has_dir (parent dst) fs); [|discriminate].
  intros H Hp. injection H as <-. simpl.
  split; [now apply lookup_write_other | reflexivity].
Qed.

Lemma exists_congr (p : string) (fs fs' : filesystem) :
  lookup p (fs_files fs') = lookup p (fs_files fs) ->
  fs_dirs fs' = fs_dirs fs ->
  exists_ p fs' = exists_ p fs.
Proof.
  intros Hl Hd. unfold exists_, has_dir. now rewrite Hl, Hd.
Qed.

Lemma as_dir_slash (d : string) : as_dir (d ++ "/") = d ++ "/".
Proof.
  unfold as_dir. rewrite CStrFacts.last_char_snoc. reflexivity.
Qed.

Lemma entry_name_inv (d p name : string) :
  entry_name d p = Some name -> p = d ++ name.
Proof.
  unfold entry_name. destruct (CStr.strip_prefix d p) as [r|] eqn:E;
    [|discriminate].
  apply CStrFacts.strip_prefix_inv in E. subst p.
  destruct r; [discriminate|].
  destruct (CStr.contains slash _); [discriminate|]. congruence.
Qed.

(** The listing of a directory after some of the files are gone. *)
Lemma entries_filter (d : string) (keep : string -> bool)
      (l : list (string * node)) :
  entries d (filter (fun kv => keep (fst kv)) l)
  = filter (fun name => keep (d ++ name)) (entries d l).
Proof.
  unfold entries. induction l as [|[p n] l IH]; simpl; [reflexivity|].
  rewrite filter_app, <- IH.
  destruct (entry_name d p) as [name|] eqn:E; simpl.
  - pose proof (entry_name_inv _ _ _ E) as Hp. rewrite <- Hp.
    destruct (keep p); simpl; [now rewrite E | reflexivity].
  - destruct (keep p); simpl; [now rewrite E | reflexivity].
Qed.

Lemma entries_nodup (d : string) (l : list (string * node)) :
  NoDup (map fst l) -> NoDup (entries d l).
Proof.
  unfold entries. induction l as [|[p n] l IH]; simpl; intros H.
  - constructor.
  - inversion H as [|? ? Hp Hl]; subst.
    destruct (entry_name d p) as [name|] eqn:E; simpl; [|now apply IH].
    constructor; [|now apply IH].
    intros Hin. apply entry_name_inv in E. subst p. apply Hp.
    change (In name (entries d l)) in Hin.
    now apply in_entries in Hin.
Qed.

End FSFacts.

(* ================================================================== *)
(** ** The walk of the pruner *)

Section PrunerWalk.
Variable full_repopath : string.
Variable blacklist : list string.

Let walk := remove_blacklisted full_repopath blacklist.

Lemma walk_unit names fs :
  walk names fs = (tt, final_fs (walk names fs), trace (walk names fs)).
Proof. destruct (walk names fs) as [[[] f] t]. reflexivity. Qed.

Lemma walk_skip filename rest fs :
  g_slist_find_strcmp0 blacklist filename = false ->
  walk (filename :: rest) fs = walk rest fs.
Proof. intros H. unfold walk. simpl. now rewrite H. Qed.

Lemma walk_removed filename rest fs fs' :
  g_slist_find_strcmp0 blacklist filename = true ->
  FS.remove (full_repopath ++ filename) fs = Some fs' ->
  walk (filename :: rest) fs
  = (tt, final_fs (walk rest fs'),
     EvRemove (full_repopath ++ filename) true
       :: EvDebug ("Removed " ++ full_repopath ++ filename)
       :: trace (walk rest fs')).
Proof.
  intros Hb Hr. unfold walk at 1. simpl. rewrite Hb. simpl.
  unfold bind, g_remove, g_debug. rewrite Hr.
  fold (walk rest fs'). now rewrite (walk_unit rest fs').
Qed.

Lemma walk_stuck filename rest fs :
  g_slist_find_strcmp0 blacklist filename = true ->
  FS.remove (full_repopath ++ filename) fs = None ->
  walk (filename :: rest) fs
  = (tt, final_fs (walk rest fs),
     EvRemove (full_repopath ++ filename) false
       :: EvWarning ("Cannot remove " ++ full_repopath ++ filename)
       :: trace (walk rest fs)).
Proof.
  intros Hb Hr. unfold walk at 1. simpl. rewrite Hb. simpl.
  unfold bind, g_remove, g_warning. rewrite Hr.
  fold (walk rest fs). now rewrite (walk_unit rest fs).
Qed.

(** Every blacklisted entry gets its attempt, whatever happened to the
    entries before it, and a failed attempt leaves a warning. *)
Lemma walk_attempts names fs filename :
  In filename names ->
  g_slist_find_strcmp0 blacklist filename = true ->
  exists ok,
    In (EvRemove (full_repopath ++ filename) ok) (trace (walk names fs))
    /\ (ok = false ->
        In (EvWarning ("Cannot remove " ++ full_repopath ++ filename))
           (trace (walk names fs))).
Proof.
  intros Hin Hb. revert fs.
  induction names as [|f rest IH]; intros fs; [destruct Hin|].
  assert (Hrest : forall fs', In filename rest ->
            forall pre, (forall e, In e (trace (walk rest fs')) ->
                                   In e (pre ++ trace (walk rest fs'))%list) ->
            exists ok,
              In (EvRemove (full_repopath ++ filename) ok)
                 (pre ++ trace (walk rest fs'))%list
              /\ (ok = false ->
                  In (EvWarning ("Cannot remove " ++ full_repopath ++ filename))
                     (pre ++ trace (walk rest fs'))%list)).
  { intros fs' Hr pre Hpre. destruct (IH Hr fs') as [ok [H1 H2]].
    exists ok. split; [now apply Hpre | intros E; now apply Hpre, H2]. }
  destruct (g_slist_find_strcmp0 blacklist f) eqn:Ef.
  - destruct (FS.remove (full_repopath ++ f) fs) as [fs'|] eqn:Er.
    + rewrite (walk_removed f rest fs fs' Ef Er). unfold trace at 1 3. simpl snd.
      destruct Hin as [->|Hin].
      * exists true. split; [now left | discriminate].
      * apply (Hrest fs' Hin [_; _]). intros e He. now right; right.
    + rewrite (walk_stuck f rest fs Ef Er). unfold trace at 1 3. simpl snd.
      destruct Hin as [->|Hin].
      * exists false. split; [now left | intros _; right; now left].
      * apply (Hrest fs Hin [_; _]). intros e He. now right; right.
  - rewrite (walk_skip f rest fs Ef).
    destruct Hin as [->|Hin]; [congruence | now apply IH].
Qed.

(** A walk that meets no blacklisted entry does nothing. *)
Lemma walk_idle names fs :
  (forall filename, In filename names ->
                    g_slist_find_strcmp0 blacklist filename = false) ->
  walk names fs = (tt, fs, []).
Proof.
  induction names as [|f rest IH]; intros H; [reflexivity|].
  rewrite walk_skip by (apply H; now left).
  apply IH. intros g Hg. apply H. now right.
Qed.

Lemma doomed_cons_skip f rest p :
  g_slist_find_strcmp0 blacklist f = false ->
  doomed full_repopath blacklist (f :: rest) p
  = doomed full_repopath blacklist rest p.
Proof. intros H. unfold doomed. simpl. now rewrite H. Qed.

Lemma filter_all {A} (l : list A) : filter (fun _ => true) l = l.
Proof. induction l as [|a l IH]; simpl; [reflexivity | now rewrite IH]. Qed.

Lemma filter_twice {A} (g h : A -> bool) (l : list A) :
  filter g (filter h l) = filter (fun a => h a && g a) l.
Proof.
  induction l as [|a l IH]; simpl; [reflexivity|].
  destruct (h a); simpl; [|exact IH].
  destruct (g a); [now rewrite IH | exact IH].
Qed.

Lemma doomed_cons_hit f rest p :
  g_slist_find_strcmp0 blacklist f = true ->
  doomed full_repopath blacklist (f :: rest) p
  = String.eqb p (full_repopath ++ f)
    || doomed full_repopath blacklist rest p.
Proof. intros H. unfold doomed. simpl. now rewrite H. Qed.

Lemma unlink_doomed f rest (files : list (string * node)) :
  g_slist_find_strcmp0 blacklist f = true ->
  filter (fun kv => negb (doomed full_repopath blacklist rest (fst kv)))
         (FS.unlink (full_repopath ++ f) files)
  = filter (fun kv => negb (doomed full_repopath blacklist (f :: rest) (fst kv)))
           files.
Proof.
  intros Ef. unfold FS.unlink. rewrite filter_twice.
  apply filter_ext. intros kv.
  rewrite doomed_cons_hit by exact Ef. symmetry. apply negb_orb.
Qed.

(** When no removal fails, what is left are the files the walk did not
    try to remove. *)
Lemma walk_all_removed names fs :
  (forall p, ~ In (EvRemove p false) (trace (walk names fs))) ->
  final_fs (walk names fs)
  = mkFS (fs_dirs fs)
         (filter (fun kv => negb (doomed full_repopath blacklist names (fst kv)))
                 (fs_files fs)).
Proof.
  revert fs. induction names as [|f rest IH]; intros fs Hok.
  - simpl. unfold final_fs. simpl. destruct fs as [dirs files]. simpl.
    now rewrite filter_all.
  - destruct (g_slist_find_strcmp0 blacklist f) eqn:Ef.
    + destruct (FS.remove (full_repopath ++ f) fs) as [fs'|] eqn:Er.
      * rewrite (walk_removed f rest fs fs' Ef Er) in *.
        unfold final_fs at 1. simpl fst. simpl snd.
        rewrite IH.
        2:{ intros p Hp. apply (Hok p). unfold trace at 1. simpl.
            right. right. exact Hp. }
        clear Hok IH. unfold FS.remove in Er.
        destruct (FS.lookup (full_repopath ++ f) (fs_files fs)) as [n|];
          [|discriminate].
        destruct (n_removable n); [|discriminate].
        injection Er as <-. simpl. f_equal. now apply unlink_doomed.
      * exfalso. apply (Hok (full_repopath ++ f)).
        rewrite (walk_stuck f rest fs Ef Er). unfold trace. simpl. now left.
    + rewrite (walk_skip f rest fs Ef) in *. rewrite IH by exact Hok.
      f_equal. apply filter_ext. intros kv.
      now rewrite doomed_cons_skip.
Qed.

End PrunerWalk.

(* ================================================================== *)
(** ** The walk of the migrator *)

Section MigratorWalk.
Import FSFacts.
Variables old_repo new_repo : string.
Variable blacklist : list string.

Let walk := copy_not_blacklisted old_repo new_repo blacklist.
Let step := entry_step old_repo new_repo blacklist.

Lemma copy_walk_unit names fs :
  walk names fs = (tt, final_fs (walk names fs), trace (walk names fs)).
Proof. destruct (walk names fs) as [[[] f] t]. reflexivity. Qed.

Lemma copy_walk_cons filename rest fs :
  exists fs1 pre,
    walk (filename :: rest) fs
    = (tt, final_fs (walk rest fs1), (pre ++ trace (walk rest fs1))%list)
    /\ step filename fs fs1 pre.
Proof.
  unfold walk at 1, step, entry_step. simpl.
  destruct (g_slist_find_strcmp0 blacklist filename) eqn:Eb.
  - exists fs, [EvDebug ("Blacklisted: " ++ filename)]. split; [|now left].
    unfold bind, g_debug. fold (walk rest fs).
    now rewrite (copy_walk_unit rest fs).
  - unfold bind at 1, g_file_test_exists.
    destruct (FS.exists_ (new_repo ++ filename) fs) eqn:Ee.
    + exists fs, [EvFileTest (new_repo ++ filename) true;
                  EvDebug (skipped_copy_line old_repo new_repo filename)].
      split; [|right; left; tauto].
      unfold bind, g_debug. fold (walk rest fs).
      now rewrite (copy_walk_unit rest fs).
    + unfold bind, cr_cp, g_debug, g_warning.
      destruct (FS.copy (old_repo ++ filename) (new_repo ++ filename) fs)
        as [fs'|] eqn:Ec.
      * exists fs', [EvFileTest (new_repo ++ filename) false;
                     EvCopy (old_repo ++ filename) (new_repo ++ filename) true;
                     EvDebug ("Copied " ++ (old_repo ++ filename) ++ " -> "
                                ++ (new_repo ++ filename))].
        split; [|right; right; left; tauto].
        fold (walk rest fs'). now rewrite (copy_walk_unit rest fs').
      * exists fs, [EvFileTest (new_repo ++ filename) false;
                    EvCopy (old_repo ++ filename) (new_repo ++ filename) false;
                    EvWarning (cannot_copy_line old_repo new_repo filename)].
        split; [|right; right; right; tauto].
        fold (walk rest fs). now rewrite (copy_walk_unit rest fs).
Qed.

(** One entry leaves every path that exists as it is. *)
Lemma step_frame filename fs fs1 pre p :
  step filename fs fs1 pre -> FS.exists_ p fs = true ->
  FS.lookup p (fs_files fs1) = FS.lookup p (fs_files fs)
  /\ fs_dirs fs1 = fs_dirs fs
  /\ forall src ok, ~ In (EvCopy src p ok) pre.
Proof.
  intros Hs Hp.
  destruct Hs as [(_ & -> & ->) | [(_ & _ & -> & ->)
                 | [(_ & He & Hc & ->) | (_ & He & _ & -> & ->)]]].
  - repeat split. intros src ok [H|[]]. discriminate.
  - repeat split. intros src ok [H|[H|[]]]; discriminate.
  - assert (Hne : p <> new_repo ++ filename) by congruence.
    destruct (copy_frame _ _ p _ _ Hc Hne) as [Hl Hd].
    repeat split; try assumption.
    intros src ok [H|[H|[H|[]]]]; try discriminate. congruence.
  - assert (Hne : p <> new_repo ++ filename) by congruence.
    repeat split.
    intros src ok [H|[H|[H|[]]]]; try discriminate. congruence.
Qed.

(** The walk never writes to a path that exists. *)
Lemma copy_walk_frame names fs p :
  FS.exists_ p fs = true ->
  FS.lookup p (fs_files (final_fs (walk names fs))) = FS.lookup p (fs_files fs)
  /\ fs_dirs (final_fs (walk names fs)) = fs_dirs fs
  /\ forall src ok, ~ In (EvCopy src p ok) (trace (walk names fs)).
Proof.
  revert fs. induction names as [|f rest IH]; intros fs Hp.
  - repeat split. intros src ok [].
  - destruct (copy_walk_cons f rest fs) as (fs1 & pre & -> & Hs).
    destruct (step_frame f fs fs1 pre p Hs Hp) as (Hl & Hd & Hpre).
    assert (Hp1 : FS.exists_ p fs1 = true)
      by (now rewrite (exists_congr p fs fs1 Hl Hd)).
    destruct (IH fs1 Hp1) as (Hl' & Hd' & Htr).
    run_simpl.
    split; [congruence|]. split; [congruence|].
    intros src ok Hin. apply in_app_or in Hin.
    destruct Hin as [Hin|Hin]; [now apply (Hpre src ok) | now apply (Htr src ok)].
Qed.

Lemma copy_walk_dirs names fs :
  fs_dirs (final_fs (walk names fs)) = fs_dirs fs.
Proof.
  revert fs. induction names as [|f rest IH]; intros fs; [reflexivity|].
  destruct (copy_walk_cons f rest fs) as (fs1 & pre & -> & Hs).
  run_simpl. rewrite IH.
  destruct Hs as [(_ & -> & _) | [(_ & _ & -> & _)
                 | [(_ & _ & Hc & _) | (_ & _ & _ & -> & _)]]];
    try reflexivity.
  unfold FS.copy in Hc.
  destruct (FS.lookup (old_repo ++ f) (fs_files fs)) as [n|]; [|discriminate].
  destruct (n_copyable n && FS.has_dir (FS.parent (new_repo ++ f)) fs);
    [|discriminate].
  now injection Hc as <-.
Qed.

(** Only entries that are not blacklisted are copied, each to its own
    name in the new repository. *)
Lemma copy_walk_sources names fs src dst ok :
  In (EvCopy src dst ok) (trace (walk names fs)) ->
  exists filename,
    In filename names /\ g_slist_find_strcmp0 blacklist filename = false
    /\ src = old_repo ++ filename /\ dst = new_repo ++ filename.
Proof.
  revert fs. induction names as [|f rest IH]; intros fs; [intros []|].
  destruct (copy_walk_cons f rest fs) as (fs1 & pre & -> & Hs).
  run_simpl. intros Hin. apply in_app_or in Hin.
  destruct Hin as [Hin|Hin].
  - exists f.
    destruct Hs as [(_ & _ & ->) | [(_ & _ & _ & ->)
                   | [(Hb & _ & _ & ->) | (Hb & _ & _ & _ & ->)]]];
      simpl in Hin;
      repeat (destruct Hin as [Hin|Hin]; try discriminate);
      try contradiction;
      injection Hin as <- <- _; repeat split; auto; now left.
  - destruct (IH fs1 Hin) as (g & Hg & H). exists g. split; [now right | exact H].
Qed.


(** An entry whose destination exists is reported as blacklisted or as
    skipped. *)
Lemma copy_walk_skips names fs filename :
  In filename names ->
  FS.exists_ (new_repo ++ filename) fs = true ->
  In (EvDebug ("Blacklisted: " ++ filename)) (trace (walk names fs))
  \/ In (EvDebug (skipped_copy_line old_repo new_repo filename))
        (trace (walk names fs)).
Proof.
  intros Hin. revert fs.
  induction names as [|f rest IH]; intros fs He; [destruct Hin|].
  destruct (copy_walk_cons f rest fs) as (fs1 & pre & -> & Hs).
  run_simpl.
  destruct (step_frame f fs fs1 pre _ Hs He) as (Hl & Hd & _).
  assert (He1 : FS.exists_ (new_repo ++ filename) fs1 = true)
    by (now rewrite (exists_congr _ fs fs1 Hl Hd)).
  destruct Hin as [->|Hin].
  - destruct Hs as [(_ & _ & ->) | [(_ & _ & _ & ->)
                   | [(_ & He' & _) | (_ & He' & _)]]];
      try congruence.
    + left. simpl. tauto.
    + right. simpl. tauto.
  - destruct (IH Hin fs1 He1) as [H|H];
      [left | right]; apply in_or_app; now right.
Qed.

End MigratorWalk.

(* ================================================================== *)
(** ** The pruner and the migrator as a whole *)

Section EntryPoints.
Import FSFacts.

Lemma classic_shape fs d retain :
  cr_repodata_blacklist_classic d retain fs
  = (result (cr_repodata_blacklist_classic d retain fs), fs,
     trace (cr_repodata_blacklist_classic d retain fs)).
Proof.
  pose proof (classic_readonly fs d retain) as H.
  destruct (cr_repodata_blacklist_classic d retain fs) as [[s f] t].
  unfold final_fs in H. simpl in H. now subst f.
Qed.

Lemma after_shape {A} (t : list event) (r : A * filesystem * list event) :
  result (after t r) = result r
  /\ final_fs (after t r) = final_fs r
  /\ trace (after t r) = (t ++ trace r)%list.
Proof. repeat split. Qed.

(** The pruner after a selection that succeeded. *)
Lemma pruner_run fs repopath retain :
  let full := repopath ++ "/repodata/" in
  let sel := cr_repodata_blacklist_classic full retain fs in
  succeeded (result sel) = true ->
  cr_remove_metadata_classic repopath retain fs
  = after (trace sel)
          (remove_metadata_with repopath full
                                (with_manifest (blacklist_of (result sel))) fs).
Proof.
  intros full sel Hs. unfold cr_remove_metadata_classic. fold full.
  unfold bind at 1. subst sel. rewrite (classic_shape fs full retain) at 1.
  destruct (result (cr_repodata_blacklist_classic full retain fs))
    as [[ok bl] err] eqn:E.
  unfold succeeded in Hs. simpl in Hs. subst ok. simpl.
  unfold blacklist_of, with_manifest, after, result, final_fs, trace. simpl.
  destruct (remove_metadata_with repopath full ("repomd.xml" :: bl) fs)
    as [[r f] t]. reflexivity.
Qed.

(** The pruner after a selection that failed: [return FALSE]. *)
Lemma pruner_run_failed fs repopath retain :
  let full := repopath ++ "/repodata/" in
  let sel := cr_repodata_blacklist_classic full retain fs in
  succeeded (result sel) = false ->
  cr_remove_metadata_classic repopath retain fs
  = ((FALSE, error_of (result sel)), fs, trace sel).
Proof.
  intros full sel Hs. unfold cr_remove_metadata_classic. fold full.
  unfold bind at 1. subst sel. rewrite (classic_shape fs full retain) at 1.
  destruct (result (cr_repodata_blacklist_classic full retain fs))
    as [[ok bl] err] eqn:E.
  unfold succeeded in Hs. simpl in Hs. subst ok. simpl.
  now rewrite app_nil_r.
Qed.

Lemma remove_with_run fs repopath full bl names :
  FS.opendir full fs = Some names ->
  remove_metadata_with repopath full bl fs
  = ((CRE_OK, None),
     final_fs (remove_blacklisted full bl names fs),
     EvDirOpen full true :: trace (remove_blacklisted full bl names fs)).
Proof.
  intros Ho. unfold remove_metadata_with, bind, g_dir_open. rewrite Ho.
  destruct (remove_blacklisted full bl names fs) as [[[] f] t]. simpl.
  now rewrite app_nil_r.
Qed.

Lemma remove_with_run_closed fs repopath full bl :
  FS.opendir full fs = None ->
  result (remove_metadata_with repopath full bl fs)
  = (CRE_IO, Some (g_propagate_prefixed_error (g_dir_open_error full)
                                              "Cannot open a dir: "))
  /\ final_fs (remove_metadata_with repopath full bl fs) = fs
  /\ filter is_remove (trace (remove_metadata_with repopath full bl fs)) = [].
Proof.
  intros Ho. unfold remove_metadata_with, bind, g_dir_open. rewrite Ho.
  repeat split.
Qed.

Lemma migrator_run_absent fs old_repo new_repo retain :
  FS.exists_ old_repo fs = false ->
  cr_old_metadata_retention old_repo new_repo retain fs
  = ((true, None), fs, [EvFileTest old_repo false]).
Proof.
  intros He. unfold cr_old_metadata_retention, bind, g_file_test_exists.
  rewrite He. reflexivity.
Qed.

(** The migrator after a selection that succeeded. *)
Lemma migrator_run fs old_repo new_repo retain :
  let sel := cr_repodata_blacklist_classic old_repo retain fs in
  FS.exists_ old_repo fs = true ->
  succeeded (result sel) = true ->
  cr_old_metadata_retention old_repo new_repo retain fs
  = after ([EvFileTest old_repo true; EvDebug copying_line] ++ trace sel)
          (old_metadata_retention_with
             old_repo new_repo (with_manifest (blacklist_of (result sel))) fs).
Proof.
  intros sel He. subst sel.
  unfold cr_old_metadata_retention, compatibility_mode, bind,
    g_file_test_exists, g_debug.
  rewrite He. change (negb true) with false. cbv beta iota.
  generalize (classic_readonly fs old_repo retain).
  destruct (cr_repodata_blacklist_classic old_repo retain fs)
    as [[[[ok bl] err] f] t].
  unfold succeeded, blacklist_of, with_manifest, after, result, final_fs, trace.
  simpl. intros -> ->. simpl.
  destruct (old_metadata_retention_with old_repo new_repo ("repomd.xml" :: bl) fs)
    as [[r f] t']. reflexivity.
Qed.

(** The migrator after a selection that failed. *)
Lemma migrator_run_failed fs old_repo new_repo retain :
  let sel := cr_repodata_blacklist_classic old_repo retain fs in
  FS.exists_ old_repo fs = true ->
  succeeded (result sel) = false ->
  cr_old_metadata_retention old_repo new_repo retain fs
  = ((false, error_of (result sel)), fs,
     ([EvFileTest old_repo true; EvDebug copying_line] ++ trace sel)%list).
Proof.
  intros sel He. subst sel.
  unfold cr_old_metadata_retention, compatibility_mode, bind,
    g_file_test_exists, g_debug.
  rewrite He. change (negb true) with false. cbv beta iota.
  generalize (classic_readonly fs old_repo retain).
  destruct (cr_repodata_blacklist_classic old_repo retain fs)
    as [[[[ok bl] err] f] t].
  unfold succeeded, error_of, result, final_fs, trace.
  simpl. intros -> ->. simpl. now rewrite app_nil_r.
Qed.

Lemma retention_with_run fs old_repo new_repo bl names :
  FS.opendir old_repo fs = Some names ->
  old_metadata_retention_with old_repo new_repo bl fs
  = ((true, None),
     final_fs (copy_not_blacklisted old_repo new_repo bl names fs),
     EvDirOpen old_repo true
       :: trace (copy_not_blacklisted old_repo new_repo bl names fs)).
Proof.
  intros Ho. unfold old_metadata_retention_with, bind, g_dir_open. rewrite Ho.
  destruct (copy_not_blacklisted old_repo new_repo bl names fs) as [[[] f] t].
  simpl. now rewrite app_nil_r.
Qed.

Lemma retention_with_run_closed fs old_repo new_repo bl :
  FS.opendir old_repo fs = None ->
  old_metadata_retention_with old_repo new_repo bl fs
  = ((false, Some (cannot_open_error old_repo)), fs,
     [EvDirOpen old_repo false;
      EvWarning (ge_message (cannot_open_error old_repo))]).
Proof.
  intros Ho. unfold old_metadata_retention_with, bind, g_dir_open.
  rewrite Ho. reflexivity.
Qed.

Lemma classic_succeeded fs d retain :
  succeeded (result (cr_repodata_blacklist_classic d retain fs)) = true
  <-> retain = -1 \/ (0 <= retain /\ exists names, FS.opendir d fs = Some names).
Proof.
  destruct (classic_cases fs d retain)
    as [-> | [H | [[H Ho] | [H [names Ho]]]]].
  - split; [now left | reflexivity].
  - rewrite classic_run_badarg by exact H. split; [discriminate|].
    intros [E | [E _]]; lia.
  - rewrite classic_run_closed by assumption. split; [discriminate|].
    intros [E | [_ [names E]]]; [lia | congruence].
  - rewrite (classic_run fs d retain names) by assumption.
    split; [intros _; right; split; [exact H | now exists names] | reflexivity].
Qed.

Lemma opendir_exists fs d names :
  FS.opendir d fs = Some names -> FS.exists_ d fs = true.
Proof.
  unfold FS.opendir, FS.exists_.
  destruct (FS.has_dir (FS.as_dir d) fs); [|discriminate].
  now destruct (FS.lookup d (fs_files fs)).
Qed.

End EntryPoints.

(* ================================================================== *)
(** ** The manifest *)

Section Manifest_file.
Import FSFacts.

Lemma stat_events_read fs d names :
  Forall (fun e => reads_only e = true) (stat_events fs d names).
Proof.
  unfold stat_events. induction names as [|f rest IH]; simpl; [constructor|].
  destruct (classify f); simpl; [constructor; [reflexivity | exact IH] | exact IH].
Qed.

Lemma classic_reads fs d retain :
  Forall (fun e => reads_only e = true)
         (trace (cr_repodata_blacklist_classic d retain fs)).
Proof.
  destruct (classic_cases fs d retain)
    as [-> | [H | [[H Ho] | [H [names Ho]]]]].
  - constructor.
  - rewrite classic_run_badarg by exact H. constructor.
  - rewrite classic_run_closed by assumption. repeat constructor.
  - rewrite (classic_run fs d retain names) by assumption. run_simpl.
    constructor; [reflexivity | apply stat_events_read].
Qed.

Lemma classic_no_copy fs d retain src dst ok :
  ~ In (EvCopy src dst ok) (trace (cr_repodata_blacklist_classic d retain fs)).
Proof.
  intros Hin. pose proof (classic_reads fs d retain) as H.
  rewrite Forall_forall in H. specialize (H _ Hin). discriminate.
Qed.

Lemma classic_no_remove fs d retain p ok :
  ~ In (EvRemove p ok) (trace (cr_repodata_blacklist_classic d retain fs)).
Proof.
  intros Hin. pose proof (classic_reads fs d retain) as H.
  rewrite Forall_forall in H. specialize (H _ Hin). discriminate.
Qed.

Lemma manifest_found (bl : list string) :
  g_slist_find_strcmp0 (with_manifest bl) "repomd.xml" = true.
Proof. reflexivity. Qed.

(** The migrator never copies the old manifest. *)
Lemma migrator_skips_manifest fs old_repo new_repo retain dst ok :
  ~ In (EvCopy (old_repo ++ "repomd.xml") dst ok)
       (trace (cr_old_metadata_retention old_repo new_repo retain fs)).
Proof.
  destruct (FS.exists_ old_repo fs) eqn:He.
  2:{ rewrite migrator_run_absent by exact He. run_simpl.
      intros [H|[]]. discriminate. }
  destruct (succeeded (result (cr_repodata_blacklist_classic old_repo retain fs)))
    eqn:Hs.
  2:{ rewrite migrator_run_failed by assumption. run_simpl.
      intros [H|[H|H]]; try discriminate.
      now apply classic_no_copy in H. }
  rewrite migrator_run by assumption.
  unfold after. run_simpl. intros Hin. apply in_app_or in Hin.
  destruct Hin as [[H|[H|H]]|Hin]; try discriminate.
  { now apply classic_no_copy in H. }
  destruct (FS.opendir old_repo fs) as [names|] eqn:Eo.
  - rewrite (retention_with_run fs old_repo new_repo _ names Eo) in Hin.
    run_simpl in Hin. destruct Hin as [H|Hin]; [discriminate|].
    apply copy_walk_sources in Hin.
    destruct Hin as (f & _ & Hb & Hsrc & _).
    apply CStrFacts.app_inv_head in Hsrc. subst f.
    rewrite manifest_found in Hb. discriminate.
  - rewrite (retention_with_run_closed fs old_repo new_repo _ Eo) in Hin.
    run_simpl in Hin. destruct Hin as [H|[H|[]]]; discriminate.
Qed.

End Manifest_file.

(** C4: whenever the selection succeeds, the pruner walks the metadata
    directory with a blacklist that holds [repomd.xml], so a manifest that
    is listed there gets its removal attempt, and the migrator walks the old
    repository with a blacklist that holds [repomd.xml]; whatever the retain
    count, the migrator never copies the old manifest. *)
Theorem manifest_always_blacklisted
        (repopath old_repo new_repo : string) (retain : Z) (fs : filesystem) :
  let full := repopath ++ "/repodata/" in
  let sel := cr_repodata_blacklist_classic full retain fs in
  let sel_old := cr_repodata_blacklist_classic old_repo retain fs in
  let pruned := cr_remove_metadata_classic repopath retain fs in
  let migrated := cr_old_metadata_retention old_repo new_repo retain fs in
  (forall bl, In "repomd.xml" (with_manifest bl)
              /\ g_slist_find_strcmp0 (with_manifest bl) "repomd.xml" = true)
  /\ (succeeded (result sel) = true ->
      pruned = after (trace sel)
                     (remove_metadata_with
                        repopath full (with_manifest (blacklist_of (result sel))) fs)
      /\ forall names,
          FS.opendir full fs = Some names -> In "repomd.xml" names ->
          exists ok, In (EvRemove (full ++ "repomd.xml") ok) (trace pruned))
  /\ (FS.exists_ old_repo fs = true -> succeeded (result sel_old) = true ->
      migrated
      = after ([EvFileTest old_repo true; EvDebug copying_line] ++ trace sel_old)
              (old_metadata_retention_with
                 old_repo new_repo
                 (with_manifest (blacklist_of (result sel_old))) fs))
  /\ (forall dst ok,
         ~ In (EvCopy (old_repo ++ "repomd.xml") dst ok) (trace migrated)).
Proof.
  intros full sel sel_old pruned migrated.
  split; [intros bl; split; [now left | reflexivity]|].
  split; [|split].
  - intros Hs. subst pruned sel full.
    rewrite (pruner_run fs repopath retain Hs). split; [reflexivity|].
    intros names Ho Hin. unfold after. run_simpl.
    rewrite (remove_with_run fs repopath _ _ names Ho). run_simpl.
    destruct (walk_attempts (repopath ++ "/repodata/")
                (with_manifest
                   (blacklist_of
                      (result (cr_repodata_blacklist_classic
                                 (repopath ++ "/repodata/") retain fs))))
                names fs "repomd.xml" Hin (manifest_found _)) as (ok & H & _).
    exists ok. apply in_or_app. right. now right.
  - intros He Hs. subst migrated sel_old. now apply migrator_run.
  - intros dst ok. apply migrator_skips_manifest.
Qed.

Lemma manifest_always_blacklisted_witness :
  let fs := repo_with_manifest in
  succeeded (result (cr_repodata_blacklist_classic "repo/repodata/" 0 fs)) = true
  /\ FS.exists_ "repo/repodata/" fs = true
  /\ (exists ok, In (EvRemove "repo/repodata/repomd.xml" ok)
                    (trace (cr_remove_metadata_classic "repo" 0 fs)))
  /\ result (cr_old_metadata_retention "repo/repodata/" "new/" 0 fs)
     = (true, None).
Proof.
  pose proof (manifest_always_blacklisted
                "repo" "repo/repodata/" "new/" 0 repo_with_manifest) as T.
  cbv zeta in T. destruct T as (_ & T1 & T2 & _).
  assert (Hs : succeeded (result (cr_repodata_blacklist_classic
                                    "repo/repodata/" 0 repo_with_manifest)) = true)
    by reflexivity.
  assert (He : FS.exists_ "repo/repodata/" repo_with_manifest = true)
    by reflexivity.
  split; [exact Hs|]. split; [exact He|]. split.
  - destruct (T1 Hs) as [_ T1'].
    apply (T1' ["repomd.xml"; "a-primary.sqlite.bz2"; "b-primary.sqlite.bz2";
                "c-primary.sqlite.bz2"; "notes.txt"]);
      [reflexivity | now left].
  - rewrite (T2 He Hs). reflexivity.
Defined.

(* ================================================================== *)
(** ** Failures on single files *)



(* ================================================================== *)
(** ** Files that are already in the new repository *)

Section NoOverwrite.
Import FSFacts.

Lemma migrator_frame fs old_repo new_repo retain p :
  FS.exists_ p fs = true ->
  let run := cr_old_metadata_retention old_repo new_repo retain fs in
  FS.lookup p (fs_files (final_fs run)) = FS.lookup p (fs_files fs)
  /\ forall src ok, ~ In (EvCopy src p ok) (trace run).
Proof.
  intros Hp run. subst run.
  destruct (FS.exists_ old_repo fs) eqn:He.
  2:{ rewrite migrator_run_absent by exact He. run_simpl.
      split; [reflexivity|]. intros src ok [H|[]]. discriminate. }
  destruct (succeeded (result (cr_repodata_blacklist_classic old_repo retain fs)))
    eqn:Hs.
  2:{ rewrite migrator_run_failed by assumption. run_simpl.
      split; [reflexivity|]. intros src ok [H|[H|H]]; try discriminate.
      now apply classic_no_copy in H. }
  rewrite migrator_run by assumption. unfold after. run_simpl.
  destruct (FS.opendir old_repo fs) as [names|] eqn:Eo.
  - rewrite (retention_with_run fs old_repo new_repo _ names Eo). run_simpl.
    destruct (copy_walk_frame old_repo new_repo
                (with_manifest
                   (blacklist_of
                      (result (cr_repodata_blacklist_classic old_repo retain fs))))
                names fs p Hp) as (Hl & _ & Htr).
    split; [exact Hl|]. intros src ok Hin. apply in_app_or in Hin.
    destruct Hin as [[H|[H|H]]|[H|H]]; try discriminate.
    + now apply classic_no_copy in H.
    + now apply (Htr src ok).
  - rewrite (retention_with_run_closed fs old_repo new_repo _ Eo). run_simpl.
    split; [reflexivity|]. intros src ok Hin. apply in_app_or in Hin.
    destruct Hin as [[H|[H|H]]|[H|[H|[]]]]; try discriminate.
    now apply classic_no_copy in H.
Qed.

Lemma lookup_exists fs p n :
  FS.lookup p (fs_files fs) = Some n -> FS.exists_ p fs = true.
Proof. unfold FS.exists_. now intros ->. Qed.

End NoOverwrite.

(** C5: the migrator leaves every file that exists as it is; for a file
    name that already exists at its destination in the new repository no
    copy to that destination is made, the file there keeps its content, and
    when the walk takes place the call returns [TRUE] with the entry reported
    in the debug log only, as blacklisted or as skipped. *)
Theorem migrator_never_overwrites
        (old_repo new_repo : string) (retain : Z) (fs : filesystem) :
  let run := cr_old_metadata_retention old_repo new_repo retain fs in
  (forall p n,
      FS.lookup p (fs_files fs) = Some n ->
      FS.lookup p (fs_files (final_fs run)) = Some n)
  /\ (forall filename,
         FS.exists_ (new_repo ++ filename) fs = true ->
         (forall src ok, ~ In (EvCopy src (new_repo ++ filename) ok) (trace run))
         /\ (forall names,
                -1 <= retain ->
                FS.opendir old_repo fs = Some names ->
                In filename names ->
                result run = (true, None)
                /\ (In (EvDebug ("Blacklisted: " ++ filename)) (trace run)
                    \/ In (EvDebug (skipped_copy_line old_repo new_repo filename))
                          (trace run)))).
Proof.
  intros run. split.
  - intros p n Hl.
    destruct (migrator_frame fs old_repo new_repo retain p (lookup_exists _ _ _ Hl))
      as [H _].
    subst run. now rewrite H.
  - intros filename He. split.
    + apply (migrator_frame fs old_repo new_repo retain _ He).
    + intros names Hr Ho Hin. subst run.
      assert (Hs : succeeded (result (cr_repodata_blacklist_classic
                                        old_repo retain fs)) = true).
      { apply classic_succeeded.
        destruct (Z.eq_dec retain (-1)); [now left | right].
        split; [lia | now exists names]. }
      rewrite (migrator_run fs old_repo new_repo retain
                            (opendir_exists _ _ _ Ho) Hs).
      unfold after. run_simpl.
      rewrite (retention_with_run fs old_repo new_repo _ names Ho). run_simpl.
      split; [reflexivity|].
      destruct (copy_walk_skips old_repo new_repo
                  (with_manifest
                     (blacklist_of
                        (result (cr_repodata_blacklist_classic old_repo retain fs))))
                  names fs filename Hin He) as [H|H]; [left | right];
        apply in_or_app; right; now right.
Qed.

Lemma migrator_never_overwrites_witness :
  let fs := repo_with_manifest in
  let run := cr_old_metadata_retention "repo/repodata/" "new/" 5 fs in
  FS.exists_ "new/notes.txt" fs = true
  /\ FS.lookup "new/notes.txt" (fs_files (final_fs run)) = Some (plain 60)
  /\ (forall src ok, ~ In (EvCopy src "new/notes.txt" ok) (trace run))
  /\ result run = (true, None).
Proof.
  pose proof (migrator_never_overwrites "repo/repodata/" "new/" 5
                                        repo_with_manifest) as T.
  cbv zeta in T. destruct T as [T1 T2].
  assert (He : FS.exists_ "new/notes.txt" repo_with_manifest = true)
    by reflexivity.
  destruct (T2 "notes.txt" He) as [T3 T4].
  split; [exact He|]. split; [apply T1; reflexivity|]. split; [exact T3|].
  apply (T4 ["repomd.xml"; "a-primary.sqlite.bz2"; "b-primary.sqlite.bz2";
             "c-primary.sqlite.bz2"; "notes.txt"]);
    [lia | reflexivity | simpl; tauto].
Defined.

(* ================================================================== *)
(** ** What the classic selection keeps *)

Section Retention.
Import FSFacts.

Lemma sorted_split {A} (R : A -> A -> Prop) (l : list A) (n : nat) (a b : A) :
  StronglySorted R l -> In a (firstn n l) -> In b (skipn n l) -> R a b.
Proof.
  intros Hs. revert n. induction Hs as [|e l Hl IH He]; intros n Ha Hb.
  - rewrite firstn_nil in Ha. destruct Ha.
  - destruct n as [|n]; [destruct Ha|]. simpl in Ha, Hb.
    destruct Ha as [<-|Ha].
    + rewrite Forall_forall in He. apply He. now apply in_skipn in Hb.
    + now apply (IH n).
Qed.

Lemma nodup_app_disjoint {A} (l1 l2 : list A) (a : A) :
  NoDup (l1 ++ l2) -> In a l1 -> In a l2 -> False.
Proof.
  induction l1 as [|e l1 IH]; simpl; intros Hn H1 H2; [destruct H1|].
  inversion Hn as [|? ? Hne Hn']; subst. destruct H1 as [->|H1].
  - apply Hne, in_or_app. now right.
  - now apply IH.
Qed.

Lemma filter_length_perm {A} (f : A -> bool) (l l' : list A) :
  Permutation l l' -> List.length (filter f l) = List.length (filter f l').
Proof.
  induction 1 as [|a l l' _ IH|a b l|l l' l'' _ IH1 _ IH2]; simpl.
  - reflexivity.
  - destruct (f a); simpl; now rewrite IH.
  - destruct (f a), (f b); reflexivity.
  - now rewrite IH1.
Qed.

Lemma filter_none {A} (f : A -> bool) (l : list A) :
  (forall a, In a l -> f a = false) -> filter f l = [].
Proof.
  induction l as [|a l IH]; simpl; intros H; [reflexivity|].
  rewrite (H a) by now left. apply IH. intros b Hb. apply H. now right.
Qed.

Lemma filter_every {A} (f : A -> bool) (l : list A) :
  (forall a, In a l -> f a = true) -> filter f l = l.
Proof.
  induction l as [|a l IH]; simpl; intros H; [reflexivity|].
  rewrite (H a) by now left. f_equal. apply IH. intros b Hb. apply H. now right.
Qed.

Lemma find_strcmp0_iff (bl : list string) (s : string) :
  g_slist_find_strcmp0 bl s = true <-> In s bl.
Proof.
  unfold g_slist_find_strcmp0. rewrite existsb_exists. split.
  - intros [b [Hb E]]. apply String.eqb_eq in E. now subst.
  - intros H. exists s. split; [exact H | apply String.eqb_refl].
Qed.

Variable fs : filesystem.
Variable d : string.
Variable names : list string.
Hypothesis names_entries : forall name, In name names -> entry_like name.

Let dir := d ++ "/".
Let ls := inserted fs dir names no_lists.

Lemma name_of_old_file (name : string) :
  entry_like name -> name_of (old_file_of fs dir name) = name.
Proof. intros H. unfold name_of, old_file_of. simpl. now apply basename_in_dir. Qed.

(** The records of a list carry the names of their family's files. *)
Lemma list_names_perm (x : family) :
  Permutation (map name_of (ls x)) (members x names).
Proof.
  eapply perm_trans.
  - apply Permutation_map, inserted_perm.
  - unfold no_lists. rewrite app_nil_r, map_map.
    rewrite (map_ext_in _ (fun name => name)), map_id;
      [apply Permutation_refl|].
    intros name Hin. apply name_of_old_file, names_entries.
    now apply in_members in Hin.
Qed.

Lemma kept_dropped_perm (retain : nat) (x : family) :
  Permutation (members x names)
              (kept_names ls retain x ++ dropped_names ls retain x).
Proof.
  unfold kept_names, dropped_names, g_slist_nth.
  fold name_of. change (fun o => name_of o) with name_of.
  rewrite <- map_app, firstn_skipn.
  apply Permutation_sym, list_names_perm.
Qed.

Lemma list_length (x : family) : List.length (ls x) = List.length (members x names).
Proof.
  rewrite <- (Permutation_length (list_names_perm x)). now rewrite length_map.
Qed.

Lemma record_mtime (x : family) (o : OldFile) :
  In o (ls x) -> mtime o = recorded_mtime fs (dir ++ name_of o).
Proof.
  intros H. apply in_inserted in H. destruct H as [name [Hm ->]].
  rewrite name_of_old_file; [reflexivity|].
  apply names_entries. now apply in_members in Hm.
Qed.

(** The files a list drops are not newer than the ones it keeps. *)
Lemma dropped_older (retain : nat) (x : family) (f g : string) :
  In f (dropped_names ls retain x) -> In g (kept_names ls retain x) ->
  recorded_mtime fs (dir ++ f) <= recorded_mtime fs (dir ++ g).
Proof.
  unfold dropped_names, kept_names, g_slist_nth. intros Hf Hg.
  apply in_map_iff in Hf. destruct Hf as [b [<- Hb]].
  apply in_map_iff in Hg. destruct Hg as [a [<- Ha]].
  fold (name_of b).
  rewrite <- (record_mtime x b) by (now apply in_skipn in Hb).
  rewrite <- (record_mtime x a).
  2:{ rewrite <- (firstn_skipn retain (ls x)). apply in_or_app. now left. }
  apply (sorted_split (fun a b => mtime b <= mtime a) (ls x) retain a b);
    [|exact Ha | exact Hb].
  apply inserted_descending. intros y. apply no_lists_descending.
Qed.

Lemma dropped_family (retain : nat) (x : family) (f : string) :
  In f (dropped_names ls retain x) -> classify f = Some x.
Proof.
  intros H.
  assert (Hin : In f (members x names)).
  { apply (Permutation_in _ (Permutation_sym (kept_dropped_perm retain x))).
    apply in_or_app. now right. }
  now apply in_members in Hin.
Qed.

Hypothesis names_distinct : NoDup names.

Lemma kept_not_dropped (retain : nat) (x : family) (g : string) :
  In g (kept_names ls retain x) ->
  ~ In g (append_to_blacklist ls retain []).
Proof.
  intros Hk Hb. apply in_append_to_blacklist in Hb. destruct Hb as [y Hy].
  assert (Hg : In g (members x names)).
  { apply (Permutation_in _ (Permutation_sym (kept_dropped_perm retain x))).
    apply in_or_app. now left. }
  apply in_members in Hg. destruct Hg as [_ Hc].
  pose proof (dropped_family retain y g Hy) as Hc'.
  assert (y = x) by congruence. subst y.
  apply (nodup_app_disjoint (kept_names ls retain x)
                            (dropped_names ls retain x) g); try assumption.
  apply (Permutation_NoDup (kept_dropped_perm retain x)).
  unfold members. now apply NoDup_filter.
Qed.

Lemma blacklisted_count (retain : nat) (x : family) :
  List.length (filter (g_slist_find_strcmp0 (append_to_blacklist ls retain []))
                 (members x names))
  = List.length (dropped_names ls retain x).
Proof.
  rewrite (filter_length_perm _ _ _ (kept_dropped_perm retain x)).
  rewrite filter_app, length_app.
  rewrite filter_none, filter_every; [reflexivity | |].
  - intros f Hf. apply find_strcmp0_iff, in_append_to_blacklist. now exists x.
  - intros g Hg.
    destruct (g_slist_find_strcmp0 (append_to_blacklist ls retain []) g) eqn:E;
      [|reflexivity].
    apply find_strcmp0_iff in E. now apply kept_not_dropped in Hg.
Qed.

End Retention.

(** C1, as the code has it: for a directory path that ends in the
    separator (the code joins the path and a file name with [g_strconcat])
    and a file system with no path listed twice, the classic selection with
    retain count [n >= 0] succeeds when the directory opens, and each of the
    six families is split on its own: of the [k] files of the listing that
    belong to the family, [max (k - n) 0] are on the blacklist and the other
    [min n k] are not, and no blacklisted file of the family has a later
    recorded modification time than a file of the family that is kept. *)
Theorem classic_keeps_newest
        (d : string) (retain : Z) (fs : filesystem) (names : list string) :
  0 <= retain ->
  distinct_paths fs ->
  FS.opendir (d ++ "/") fs = Some names ->
  let dir := d ++ "/" in
  let sel := result (cr_repodata_blacklist_classic dir retain fs) in
  succeeded sel = true
  /\ forall x : family,
      let k := List.length (members x names) in
      exists kept dropped,
        Permutation (members x names) (kept ++ dropped)
        /\ List.length kept = Nat.min (Z.to_nat retain) k
        /\ Z.of_nat (List.length dropped) = Z.max (Z.of_nat k - retain) 0
        /\ (forall f, In f dropped -> In f (blacklist_of sel))
        /\ (forall g, In g kept -> ~ In g (blacklist_of sel))
        /\ (forall f g, In f dropped -> In g kept ->
                        recorded_mtime fs (dir ++ f) <= recorded_mtime fs (dir ++ g))
        /\ Z.of_nat (List.length (filter (g_slist_find_strcmp0 (blacklist_of sel))
                                         (members x names)))
           = Z.max (Z.of_nat k - retain) 0.
Proof.
  intros Hr Hd Ho dir sel. subst sel dir.
  rewrite (classic_run fs (d ++ "/") retain names Hr Ho). run_simpl.
  unfold succeeded, blacklist_of. simpl fst. simpl snd.
  split; [reflexivity|]. intros x. cbv zeta.
  set (k := List.length (members x names)).
  assert (Hentries : forall name, In name names -> entry_like name)
    by (intros name; apply (opendir_entry_like fs (d ++ "/") names name Ho)).
  assert (Hnodup : NoDup names).
  { unfold FS.opendir in Ho.
    destruct (FS.has_dir (FS.as_dir (d ++ "/")) fs); [|discriminate].
    injection Ho as <-. now apply FSFacts.entries_nodup. }
  set (ls := inserted fs (d ++ "/") names no_lists).
  set (n := Z.to_nat retain).
  assert (Hlen : List.length (dropped_names ls n x) = (k - n)%nat).
  { unfold dropped_names, g_slist_nth. rewrite length_map, length_skipn.
    subst ls k. now rewrite (list_length fs d names Hentries x). }
  exists (kept_names ls n x), (dropped_names ls n x).
  split; [apply (kept_dropped_perm fs d names Hentries)|].
  split.
  { unfold kept_names. rewrite length_map, length_firstn.
    subst ls k. now rewrite (list_length fs d names Hentries x). }
  assert (Hmax : Z.of_nat (k - n) = Z.max (Z.of_nat k - retain) 0)
    by (subst n; lia).
  rewrite <- Hmax.
  split; [now rewrite Hlen|].
  split.
  { intros f Hf. apply in_append_to_blacklist. now exists x. }
  split; [apply (kept_not_dropped fs d names Hentries Hnodup)|].
  split; [apply (dropped_older fs d names Hentries)|].
  rewrite <- Hlen. f_equal.
  apply (blacklisted_count fs d names Hentries Hnodup n x).
Qed.

Lemma classic_keeps_newest_witness :
  let fs := repo_with_manifest in
  let sel := result (cr_repodata_blacklist_classic "repo/repodata/" 1 fs) in
  0 <= 1 /\ distinct_paths fs
  /\ succeeded sel = true
  /\ blacklist_of sel = ["a-primary.sqlite.bz2"; "b-primary.sqlite.bz2"]
  /\ Z.of_nat (List.length
                 (filter (g_slist_find_strcmp0 (blacklist_of sel))
                         (members PrimaryDb
                                  ["repomd.xml"; "a-primary.sqlite.bz2";
                                   "b-primary.sqlite.bz2"; "c-primary.sqlite.bz2";
                                   "notes.txt"])))
     = 2.
Proof.
  assert (H1 : 0 <= 1) by lia.
  assert (Hd : distinct_paths repo_with_manifest).
  { unfold distinct_paths. simpl.
    repeat (constructor; [simpl; intuition discriminate|]). constructor. }
  pose proof (classic_keeps_newest "repo/repodata" 1 repo_with_manifest
                ["repomd.xml"; "a-primary.sqlite.bz2"; "b-primary.sqlite.bz2";
                 "c-primary.sqlite.bz2"; "notes.txt"] H1 Hd eq_refl) as T.
  cbv zeta in T. destruct T as [Ts Tx].
  destruct (Tx PrimaryDb) as (kept & dropped & _ & _ & _ & _ & _ & _ & Tc).
  split; [exact H1|]. split; [exact Hd|]. split; [exact Ts|].
  split; [reflexivity | exact Tc].
Defined.

(** On the path [repo/repodata], without the separator at its end, the
    directory opens and lists three files of the primary database family;
    with retain count 1 the selection succeeds and blacklists the names
    [repodataa-primary.sqlite.bz2] and [repodatab-primary.sqlite.bz2]: none
    of the three files of the family is on the blacklist, where two were to
    be. *)
Lemma classic_without_separator_blacklists_none :
  FS.opendir "repo/repodata" repo_with_manifest
  = Some ["repomd.xml"; "a-primary.sqlite.bz2"; "b-primary.sqlite.bz2";
          "c-primary.sqlite.bz2"; "notes.txt"]
  /\ members PrimaryDb ["repomd.xml"; "a-primary.sqlite.bz2";
                        "b-primary.sqlite.bz2"; "c-primary.sqlite.bz2";
                        "notes.txt"]
     = ["a-primary.sqlite.bz2"; "b-primary.sqlite.bz2"; "c-primary.sqlite.bz2"]
  /\ result (cr_repodata_blacklist_classic "repo/repodata" 1 repo_with_manifest)
     = (true,
        ["repodataa-primary.sqlite.bz2"; "repodatab-primary.sqlite.bz2"],
        None)
  /\ filter (g_slist_find_strcmp0
               (blacklist_of
                  (result (cr_repodata_blacklist_classic
                             "repo/repodata" 1 repo_with_manifest))))
            ["a-primary.sqlite.bz2"; "b-primary.sqlite.bz2";
             "c-primary.sqlite.bz2"]
     = []
  /\ Z.of_nat
       (List.length
          (filter (g_slist_find_strcmp0
                     (blacklist_of
                        (result (cr_repodata_blacklist_classic
                                   "repo/repodata" 1 repo_with_manifest))))
                  (members PrimaryDb
                           ["repomd.xml"; "a-primary.sqlite.bz2";
                            "b-primary.sqlite.bz2"; "c-primary.sqlite.bz2";
                            "notes.txt"])))
     <> Z.max (Z.of_nat
                 (List.length
                    (members PrimaryDb
                             ["repomd.xml"; "a-primary.sqlite.bz2";
                              "b-primary.sqlite.bz2"; "c-primary.sqlite.bz2";
                              "notes.txt"])) - 1) 0.
Proof.
  split; [reflexivity|]. split; [reflexivity|]. split; [reflexivity|].
  split; [reflexivity|]. vm_compute. discriminate.
Qed.

(* ================================================================== *)
(** ** Pruning twice *)

Section Idempotence.
Import FSFacts.

Variable fs : filesystem.
Variable d : string.
Variable names : list string.
Variable retain : nat.

Let dir := d ++ "/".

Hypothesis dir_open : FS.opendir dir fs = Some names.

Let ls := inserted fs dir names no_lists.
Let blacklist := with_manifest (append_to_blacklist ls retain []).
Let survivor (name : string) : bool := negb (g_slist_find_strcmp0 blacklist name).

(** The file system after a walk in which every removal succeeded. *)
Let pruned : filesystem :=
  mkFS (fs_dirs fs)
       (filter (fun kv => negb (doomed dir blacklist names (fst kv)))
               (fs_files fs)).

Lemma doomed_entry (name : string) :
  In name names ->
  doomed dir blacklist names (dir ++ name) = g_slist_find_strcmp0 blacklist name.
Proof.
  intros Hin. unfold doomed.
  destruct (g_slist_find_strcmp0 blacklist name) eqn:E.
  - apply existsb_exists. exists name. split; [exact Hin|].
    now rewrite E, String.eqb_refl.
  - destruct (existsb _ names) eqn:Ex; [|reflexivity].
    apply existsb_exists in Ex. destruct Ex as (f & _ & Hf).
    apply andb_true_iff in Hf. destruct Hf as [Hb He].
    apply String.eqb_eq, CStrFacts.app_inv_head in He. congruence.
Qed.

Lemma pruned_listing :
  FS.opendir dir pruned = Some (filter survivor names).
Proof.
  pose proof dir_open as Ho. unfold FS.opendir in *. unfold dir in *.
  rewrite as_dir_slash in *. unfold FS.has_dir in *. simpl.
  destruct (existsb (String.eqb (d ++ "/")) (fs_dirs fs)); [|discriminate].
  injection Ho as Ho. f_equal.
  rewrite (entries_filter (d ++ "/")
             (fun p => negb (doomed (d ++ "/") blacklist names p))).
  rewrite Ho. apply filter_ext_in. intros name Hin.
  unfold survivor. f_equal. now apply doomed_entry.
Qed.

Lemma listing_entries name : In name names -> entry_like name.
Proof. apply (opendir_entry_like fs dir names name dir_open). Qed.

Lemma filter_length_bound {A} (f : A -> bool) (l : list A) :
  (List.length (filter f l) <= List.length l)%nat.
Proof.
  induction l as [|a l IH]; simpl; [lia|]. destruct (f a); simpl; lia.
Qed.

(** After the walk each family holds at most [retain] files. *)
Lemma survivors_bound (x : family) :
  (List.length (members x (filter survivor names)) <= retain)%nat.
Proof.
  unfold members. rewrite filter_twice.
  rewrite (filter_ext _ (fun a => in_family x a && survivor a))
    by (intros a; apply andb_comm).
  rewrite <- filter_twice. fold (members x names).
  rewrite (filter_length_perm _ _ _
             (kept_dropped_perm fs d names listing_entries retain x)).
  rewrite filter_app, length_app. fold dir ls.
  rewrite (filter_none survivor (dropped_names ls retain x)).
  - pose proof (filter_length_bound survivor (kept_names ls retain x)) as Hk.
    unfold kept_names in Hk at 2. rewrite length_map in Hk.
    pose proof (firstn_le_length retain (ls x)). simpl. lia.
  - intros f Hf. unfold survivor, blacklist.
    replace (g_slist_find_strcmp0 _ f) with true; [reflexivity|].
    symmetry. apply find_strcmp0_iff. right.
    apply in_append_to_blacklist. now exists x.
Qed.

Lemma survivors_entries name :
  In name (filter survivor names) -> entry_like name.
Proof. intros H. apply filter_In in H. now apply listing_entries. Qed.

(** The second selection blacklists nothing. *)
Lemma second_blacklist_empty :
  append_to_blacklist (inserted pruned dir (filter survivor names) no_lists)
                      retain []
  = [].
Proof.
  rewrite append_to_blacklist_eq, app_nil_r.
  replace (flat_map _ families) with (@nil string); [reflexivity|].
  symmetry. induction families as [|x fl IH]; simpl; [reflexivity|].
  rewrite IH, app_nil_r. unfold dropped_names, g_slist_nth.
  rewrite skipn_all2; [reflexivity|].
  unfold dir.
  rewrite (list_length pruned d (filter survivor names) survivors_entries x).
  apply survivors_bound.
Qed.

Lemma manifest_gone : ~ In "repomd.xml" (filter survivor names).
Proof.
  intros H. apply filter_In in H. destruct H as [_ H].
  unfold survivor, blacklist in H. rewrite manifest_found in H. discriminate.
Qed.

Lemma second_walk_idle (name : string) :
  In name (filter survivor names) ->
  g_slist_find_strcmp0 (with_manifest []) name = false.
Proof.
  intros H. destruct (g_slist_find_strcmp0 (with_manifest []) name) eqn:E;
    [|reflexivity].
  apply find_strcmp0_iff in E. destruct E as [<-|[]].
  now apply manifest_gone in H.
Qed.

End Idempotence.

Section PruneTwice.
Import FSFacts.

Lemma reads_no_remove (t : list event) :
  Forall (fun e => reads_only e = true) t -> filter is_remove t = [].
Proof.
  intros H. apply filter_none. intros e He.
  rewrite Forall_forall in H. specialize (H e He). now destruct e.
Qed.

Lemma repodata_dir (repopath : string) :
  repopath ++ "/repodata/" = (repopath ++ "/repodata") ++ "/".
Proof. now rewrite CStrFacts.app_assoc. Qed.

(** A run of the pruner over an open directory, spelled out. *)
Lemma pruner_open fs repopath retain names :
  0 <= retain ->
  let full := repopath ++ "/repodata/" in
  FS.opendir full fs = Some names ->
  let bl := with_manifest
              (append_to_blacklist (inserted fs full names no_lists)
                                   (Z.to_nat retain) []) in
  let w := remove_blacklisted full bl names fs in
  cr_remove_metadata_classic repopath retain fs
  = ((CRE_OK, None), final_fs w,
     (EvDirOpen full true :: stat_events fs full names)
       ++ EvDirOpen full true :: trace w)%list.
Proof.
  intros Hr full Ho bl w.
  assert (Hs : succeeded (result (cr_repodata_blacklist_classic full retain fs))
               = true).
  { apply classic_succeeded. right. split; [exact Hr | now exists names]. }
  rewrite (pruner_run fs repopath retain Hs). fold full.
  rewrite (classic_run fs full retain names Hr Ho). run_simpl.
  unfold blacklist_of. simpl snd. fold bl.
  rewrite (remove_with_run fs repopath full bl names Ho). reflexivity.
Qed.

End PruneTwice.

(** C10: for a retain count [n >= 0], when no removal of the first run of
    the pruner fails, a second run with the same count makes no removal
    attempt, leaves the file system as the first run left it and returns the
    same value; the metadata directory then lists no [repomd.xml] and at
    most [n] files of each family. *)
Theorem pruning_idempotent (repopath : string) (retain : Z) (fs : filesystem) :
  0 <= retain ->
  let full := repopath ++ "/repodata/" in
  let first := cr_remove_metadata_classic repopath retain fs in
  (forall p, ~ In (EvRemove p false) (trace first)) ->
  let second := cr_remove_metadata_classic repopath retain (final_fs first) in
  final_fs second = final_fs first
  /\ filter is_remove (trace second) = []
  /\ result second = result first
  /\ (forall names',
         FS.opendir full (final_fs first) = Some names' ->
         ~ In "repomd.xml" names'
         /\ forall x, (List.length (members x names') <= Z.to_nat retain)%nat).
Proof.
  intros Hr full first Hok second.
  destruct (FS.opendir full fs) as [names|] eqn:Ho.
  - pose proof (pruner_open fs repopath retain names Hr Ho) as H1.
    cbv zeta in H1. fold full in H1.
    set (n := Z.to_nat retain) in *.
    set (bl := with_manifest
                 (append_to_blacklist (inserted fs full names no_lists) n []))
      in *.
    set (w := remove_blacklisted full bl names fs) in *.
    assert (Hw : forall p, ~ In (EvRemove p false) (trace w)).
    { intros p Hp. apply (Hok p). subst first. rewrite H1. run_simpl.
      apply in_or_app. right. now right. }
    pose proof (walk_all_removed full bl names fs Hw) as Hfs. fold w in Hfs.
    assert (Hfirst : final_fs first = final_fs w)
      by (subst first; now rewrite H1).
    pose proof (repodata_dir repopath) as Hdir. fold full in Hdir.
    set (d := repopath ++ "/repodata") in *.
    assert (Ho' : FS.opendir (d ++ "/") fs = Some names) by now rewrite <- Hdir.
    pose proof (pruned_listing fs d names n Ho') as Hl.
    pose proof (second_blacklist_empty fs d names n Ho') as He.
    pose proof (second_walk_idle fs d names n) as Hi.
    pose proof (manifest_gone fs d names n) as Hg.
    pose proof (survivors_bound fs d names n Ho') as Hb.
    rewrite <- Hdir in Hl, He, Hi, Hg, Hb. fold bl in Hl, He, Hi, Hg, Hb.
    rewrite <- Hfs in Hl, He.
    set (names2 := filter (fun name => negb (g_slist_find_strcmp0 bl name)) names)
      in *.
    pose proof (pruner_open (final_fs w) repopath retain names2 Hr Hl) as H2.
    cbv zeta in H2. fold full n in H2. rewrite He in H2.
    rewrite (walk_idle full (with_manifest []) names2 (final_fs w) Hi) in H2.
    run_simpl in H2.
    subst second. rewrite Hfirst, H2. run_simpl.
    split; [reflexivity|]. split; [|split].
    + rewrite filter_app. simpl.
      rewrite (reads_no_remove (stat_events (final_fs w) full names2));
        [reflexivity | apply stat_events_read].
    + subst first. now rewrite H1.
    + intros names' Hn. rewrite Hl in Hn. injection Hn as <-.
      split; [exact Hg | exact Hb].
  - assert (Hs : succeeded (result (cr_repodata_blacklist_classic full retain fs))
                 = false)
      by (now rewrite (classic_run_closed fs full retain Hr Ho)).
    pose proof (pruner_run_failed fs repopath retain Hs) as H1.
    fold full in H1. rewrite (classic_run_closed fs full retain Hr Ho) in H1.
    run_simpl in H1.
    assert (Hfirst : final_fs first = fs) by (subst first; now rewrite H1).
    subst second. rewrite Hfirst. fold first.
    split; [exact Hfirst|]. split; [|split].
    + subst first. rewrite H1. reflexivity.
    + reflexivity.
    + intros names' Hn. rewrite Ho in Hn. discriminate.
Qed.

Lemma pruning_idempotent_witness :
  let first := cr_remove_metadata_classic "repo" 1 removable_repo in
  let second := cr_remove_metadata_classic "repo" 1 (final_fs first) in
  0 <= 1
  /\ (forall p, ~ In (EvRemove p false) (trace first))
  /\ final_fs first
     = mkFS ["repo/repodata/"] [("repo/repodata/c-primary.xml.gz", plain 300);
                                ("repo/repodata/notes.txt", plain 50)]
  /\ final_fs second = final_fs first
  /\ filter is_remove (trace second) = [].
Proof.
  assert (H1 : 0 <= 1) by lia.
  assert (Hok : forall p,
             ~ In (EvRemove p false)
                  (trace (cr_remove_metadata_classic "repo" 1 removable_repo))).
  { intros p. vm_compute. intuition discriminate. }
  pose proof (pruning_idempotent "repo" 1 removable_repo H1 Hok) as T.
  cbv zeta in T. destruct T as (T1 & T2 & _).
  split; [exact H1|]. split; [exact Hok|]. split; [reflexivity|].
  split; [exact T1 | exact T2].
Defined.

(* ================================================================== *)
(** * Further properties of helpers.c *)

(* ================================================================== *)
(** ** The comparison and the sorted insertion *)

(** X1: [cr_cmp_old_repodata_files] is a comparison for the order "newer
    first": its value is 1, 0 or -1, it is positive exactly when the first
    file is older, zero exactly when both have the same modification time,
    changes sign when its arguments are swapped, and "not after" is
    transitive. *)
Theorem cmp_old_repodata_files_order (a b c : OldFile) :
  (cr_cmp_old_repodata_files a b = 1
   \/ cr_cmp_old_repodata_files a b = 0
   \/ cr_cmp_old_repodata_files a b = -1)
  /\ (0 < cr_cmp_old_repodata_files a b <-> mtime a < mtime b)
  /\ (cr_cmp_old_repodata_files a b = 0 <-> mtime a = mtime b)
  /\ cr_cmp_old_repodata_files b a = - cr_cmp_old_repodata_files a b
  /\ (cr_cmp_old_repodata_files a b <= 0 ->
      cr_cmp_old_repodata_files b c <= 0 ->
      cr_cmp_old_repodata_files a c <= 0).
Proof.
  unfold cr_cmp_old_repodata_files.
  destruct (Z.ltb_spec (mtime a) (mtime b)), (Z.gtb_spec (mtime a) (mtime b)),
    (Z.ltb_spec (mtime b) (mtime a)), (Z.gtb_spec (mtime b) (mtime a)),
    (Z.ltb_spec (mtime b) (mtime c)), (Z.gtb_spec (mtime b) (mtime c)),
    (Z.ltb_spec (mtime a) (mtime c)), (Z.gtb_spec (mtime a) (mtime c));
    repeat split; intros; try lia; auto.
Qed.

Lemma cmp_old_repodata_files_order_witness :
  let a := mkOldFile 10 "a" in
  let b := mkOldFile 20 "b" in
  let c := mkOldFile 30 "c" in
  cr_cmp_old_repodata_files c b <= 0
  /\ cr_cmp_old_repodata_files b a <= 0
  /\ cr_cmp_old_repodata_files c a <= 0
  /\ cr_cmp_old_repodata_files a c = 1.
Proof.
  pose proof (cmp_old_repodata_files_order
                (mkOldFile 30 "c") (mkOldFile 20 "b") (mkOldFile 10 "a")) as T.
  destruct T as (_ & _ & _ & _ & T).
  assert (H1 : cr_cmp_old_repodata_files (mkOldFile 30 "c") (mkOldFile 20 "b") <= 0)
    by (vm_compute; discriminate).
  assert (H2 : cr_cmp_old_repodata_files (mkOldFile 20 "b") (mkOldFile 10 "a") <= 0)
    by (vm_compute; discriminate).
  split; [exact H1|]. split; [exact H2|]. split; [exact (T H1 H2) | reflexivity].
Defined.

(** X2: on a list that is sorted newest first, [cr_stat_and_insert] makes
    one [stat] call, leaves the file system as it is and returns the list
    with one more record, still sorted newest first; the record carries the
    path [dirname ++ filename] and the modification time of the file, or 1
    when [stat] fails; a record that is not older than the head of the list
    becomes the new head. *)
Theorem stat_and_insert_keeps_order
        (fs : filesystem) (dirname filename : string) (lst : list OldFile) :
  descending lst ->
  let run := cr_stat_and_insert dirname filename lst fs in
  let new := old_file_of fs dirname filename in
  descending (result run)
  /\ Permutation (result run) (new :: lst)
  /\ final_fs run = fs
  /\ (exists ok, trace run = [EvStat (dirname ++ filename) ok])
  /\ path new = dirname ++ filename
  /\ (FS.stat (dirname ++ filename) fs = None -> mtime new = 1)
  /\ (forall t, FS.stat (dirname ++ filename) fs = Some t -> mtime new = t)
  /\ (forall e rest, lst = e :: rest -> mtime e <= mtime new ->
                     result run = new :: lst).
Proof.
  intros Hs run new. subst run new. rewrite stat_and_insert_run. run_simpl.
  split; [now apply insert_sorted_descending|].
  split; [apply insert_sorted_perm|].
  split; [reflexivity|]. split; [eexists; reflexivity|].
  split; [reflexivity|].
  split; [unfold old_file_of, recorded_mtime; simpl; now intros ->|].
  split; [unfold old_file_of, recorded_mtime; simpl; now intros t ->|].
  intros e rest -> He. simpl.
  destruct (Z.ltb_spec 0 (cr_cmp_old_repodata_files
                            (old_file_of fs dirname filename) e)) as [Hc|Hc];
    [|reflexivity].
  apply cmp_positive in Hc. lia.
Qed.

Lemma stat_and_insert_keeps_order_witness :
  let lst := [mkOldFile 300 "repo/repodata/c-primary.xml.gz";
              mkOldFile 100 "repo/repodata/a-primary.xml.gz"] in
  descending lst
  /\ map mtime
         (result (cr_stat_and_insert "repo/repodata/" "b-primary.xml.gz" lst
                                     repo_with_unstatable))
     = [300; 100; 1].
Proof.
  assert (Hs : descending [mkOldFile 300 "repo/repodata/c-primary.xml.gz";
                           mkOldFile 100 "repo/repodata/a-primary.xml.gz"]).
  { repeat constructor. simpl. lia. }
  pose proof (stat_and_insert_keeps_order
                repo_with_unstatable "repo/repodata/" "b-primary.xml.gz" _ Hs) as T.
  cbv zeta in T. destruct T as (_ & _ & _ & _ & _ & T & _).
  split; [exact Hs|]. specialize (T eq_refl). reflexivity.
Defined.

(* ================================================================== *)
(** ** Classification of file names *)

Section Markers.
Import CStr CStrFacts.

Lemma suffix_comparable (p s q t : string) :
  p ++ s = q ++ t -> (String.length s <= String.length t)%nat ->
  exists r, t = r ++ s.
Proof.
  revert p. induction q as [|a q IH]; intros p H Hl.
  - exists p. now rewrite H.
  - destruct p as [|b p].
    + simpl in H. subst s. simpl in Hl. rewrite app_length in Hl. lia.
    + injection H as _ H. now apply (IH p).
Qed.

Lemma marker_suffix_of_marker (x y : family) :
  g_str_has_suffix (marker x) (marker y) = true -> x = y.
Proof. destruct x, y; vm_compute; congruence. Qed.

Lemma family_of_marker (x : family) : family_of_stem (marker x) = Some x.
Proof. now destruct x. Qed.

(** A stem is routed by the marker at its end, whatever comes before. *)
Lemma family_of_stem_prepend (c stem : string) (x : family) :
  family_of_stem stem = Some x -> family_of_stem (c ++ stem) = Some x.
Proof.
  intros H. apply family_of_stem_suffix in H.
  pose proof (has_suffix_app c stem (marker x) H) as Hx.
  destruct (family_of_stem (c ++ stem)) as [y|] eqn:E.
  2:{ now apply family_of_stem_some in Hx. }
  f_equal. apply family_of_stem_suffix in E.
  apply has_suffix_iff in Hx. destruct Hx as [p Hp].
  apply has_suffix_iff in E. destruct E as [q Hq].
  rewrite Hp in Hq.
  destruct (Nat.le_ge_cases (String.length (marker x)) (String.length (marker y)))
    as [Hl|Hl].
  - destruct (suffix_comparable p (marker x) q (marker y) Hq Hl) as [r Hr].
    apply marker_suffix_of_marker, has_suffix_iff. now exists r.
  - symmetry in Hq.
    destruct (suffix_comparable q (marker y) p (marker x) Hq Hl) as [r Hr].
    symmetry. apply marker_suffix_of_marker, has_suffix_iff. now exists r.
Qed.

Lemma classify_marker_ext (q ext : string) (x : family) :
  contains dot ext = false ->
  classify (q ++ marker x ++ String dot ext) = Some x.
Proof.
  intros He. unfold classify.
  rewrite <- app_assoc, (before_last_app dot (q ++ marker x) ext He).
  apply family_of_stem_prepend, family_of_marker.
Qed.

End Markers.

(** X3: a file name is routed to family [x] exactly when it is some prefix,
    the marker of [x], a dot and one last extension without a dot (the
    extension may be empty); so every name of the form
    [<hash>-primary.xml.gz] is a primary file and nothing else is. *)
Theorem classify_characterised (filename : string) (x : family) :
  classify filename = Some x
  <-> exists q ext, filename = q ++ marker x ++ String dot ext
                    /\ CStr.contains dot ext = false.
Proof.
  split; [apply classify_inv|].
  intros (q & ext & -> & He). now apply classify_marker_ext.
Qed.

Lemma classify_characterised_witness :
  classify "0a1b-other.sqlite.bz2" = Some OtherDb
  /\ exists q ext, "x-filelists.xml.gz" = q ++ marker Filelists ++ String dot ext
                   /\ CStr.contains dot ext = false.
Proof.
  split.
  - apply (proj2 (classify_characterised "0a1b-other.sqlite.bz2" OtherDb)).
    exists "0a1b-", "bz2". split; reflexivity.
  - apply (proj1 (classify_characterised "x-filelists.xml.gz" Filelists)).
    reflexivity.
Defined.

(** X4: the family of a classified name does not change when anything is
    put in front of the name, a name without a dot belongs to no family, and
    a name belongs to at most the one family whose marker ends its stem. *)
Theorem classify_prefix_invariant (c filename : string) (x : family) :
  (classify filename = Some x -> classify (c ++ filename) = Some x)
  /\ (CStr.contains dot filename = false -> classify filename = None)
  /\ (forall stem ext,
         filename = stem ++ String dot ext -> CStr.contains dot ext = false ->
         classify filename = Some x ->
         g_str_has_suffix stem (marker x) = true
         /\ forall y, g_str_has_suffix stem (marker y) = true -> y = x).
Proof.
  split; [|split].
  - unfold classify.
    destruct (CStr.before_last dot filename) as [stem|] eqn:E; [|discriminate].
    intros H. rewrite (CStrFacts.before_last_prepend dot c filename stem E).
    now apply family_of_stem_prepend.
  - intros H. unfold classify.
    now rewrite (proj2 (CStrFacts.before_last_none dot filename) H).
  - intros stem ext -> He. unfold classify.
    rewrite (CStrFacts.before_last_app dot stem ext He). intros H.
    split; [now apply family_of_stem_suffix|].
    intros y Hy. apply CStrFacts.has_suffix_iff in Hy. destruct Hy as [p ->].
    pose proof (family_of_stem_prepend p (marker y) y (family_of_marker y)) as Hp.
    congruence.
Qed.

Lemma classify_prefix_invariant_witness :
  classify ("dir-" ++ "x-primary.xml.gz") = Some Primary
  /\ classify "README" = None.
Proof.
  pose proof (classify_prefix_invariant "dir-" "x-primary.xml.gz" Primary) as T.
  pose proof (classify_prefix_invariant "dir-" "README" Primary) as U.
  destruct T as (T & _). destruct U as (_ & U & _).
  split; [apply T; reflexivity | apply U; reflexivity].
Defined.

(* ================================================================== *)
(** ** More on the classic selection *)

Section ClassicMore.
Import FSFacts.

Lemma blacklist_records_quiet records bl fs :
  Forall (fun e => is_remove e = false /\ is_copy e = false)
         (trace (blacklist_records records bl fs)).
Proof.
  revert bl. induction records as [|rec rest IH]; intros bl; simpl.
  - constructor.
  - destruct (location_href rec) as [href|].
    + destruct (location_base rec) as [base|]; [|apply IH].
      unfold bind, g_debug. specialize (IH bl).
      destruct (blacklist_records rest bl fs) as [[b f] t].
      constructor; [split; reflexivity | exact IH].
    + unfold bind, g_warning. specialize (IH bl).
      destruct (blacklist_records rest bl fs) as [[b f] t].
      constructor; [split; reflexivity | exact IH].
Qed.

Lemma manifest_cases (retain : Z) :
  retain = 0 \/ retain < -1 \/ retain = -1 \/ 0 < retain.
Proof. lia. Qed.

Lemma manifest_run_idle fs d retain :
  retain = -1 \/ 0 < retain ->
  cr_repodata_blacklist d retain fs = ((true, [], None), fs, []).
Proof.
  intros H. unfold cr_repodata_blacklist.
  destruct (Z.eqb_spec retain (-1)); [reflexivity|].
  destruct (Z.ltb_spec 0 retain); [reflexivity | lia].
Qed.

Lemma manifest_trace_zero fs d :
  Forall (fun e => is_remove e = false /\ is_copy e = false)
         (trace (cr_repodata_blacklist d 0 fs)).
Proof.
  unfold cr_repodata_blacklist. simpl.
  set (p := g_build_filename d "repomd.xml").
  unfold bind, cr_xml_parse_repomd, g_warning, ret.
  destruct (FS.parse_repomd p fs) as [records|].
  - pose proof (blacklist_records_quiet records [] fs) as H.
    pose proof (blacklist_records_fs records [] fs) as Hfs.
    destruct (blacklist_records records [] fs) as [[b f] t].
    unfold trace in *. simpl in *. rewrite app_nil_r.
    constructor; [split; reflexivity | exact H].
  - simpl. repeat constructor.
Qed.

Lemma quiet_filters (t : list event) :
  Forall (fun e => is_remove e = false /\ is_copy e = false) t ->
  filter is_remove t = [] /\ filter is_copy t = [].
Proof.
  intros H. rewrite Forall_forall in H.
  split; apply filter_none; intros e He; now destruct (H e He).
Qed.

Lemma reads_quiet (t : list event) :
  Forall (fun e => reads_only e = true) t ->
  Forall (fun e => is_remove e = false /\ is_copy e = false) t.
Proof.
  intros H. eapply Forall_impl; [|exact H].
  intros e He. destruct e; simpl in *; (discriminate || split; reflexivity).
Qed.

Lemma stat_events_map fs d names :
  stat_events fs d names
  = map (fun f => EvStat (d ++ f)
                         (match FS.stat (d ++ f) fs with
                          | Some _ => true | None => false end))
        (filter classified names).
Proof.
  unfold stat_events, classified.
  induction names as [|f rest IH]; simpl; [reflexivity|].
  destruct (classify f); simpl; now rewrite IH.
Qed.

Lemma skipn_more {A} (n n' : nat) (l : list A) (a : A) :
  (n <= n')%nat -> In a (skipn n' l) -> In a (skipn n l).
Proof.
  intros Hn H. replace n' with ((n' - n) + n)%nat in H by lia.
  rewrite <- skipn_skipn in H. now apply in_skipn in H.
Qed.

Lemma inserted_length fs d names x :
  List.length (inserted fs d names no_lists x) = List.length (members x names).
Proof.
  rewrite (Permutation_length (inserted_perm fs d names no_lists x)).
  unfold no_lists. now rewrite app_nil_r, length_map.
Qed.

Lemma dropped_length fs d names n x :
  List.length (dropped_names (inserted fs d names no_lists) n x)
  = (List.length (members x names) - n)%nat.
Proof.
  unfold dropped_names, g_slist_nth.
  now rewrite length_map, length_skipn, inserted_length.
Qed.

Lemma flat_map_length_sum {A B} (f : A -> list B) (l : list A) :
  List.length (flat_map f l) = list_sum (map (fun a => List.length (f a)) l).
Proof.
  induction l as [|a l IH]; simpl; [reflexivity|].
  now rewrite length_app, IH.
Qed.

(** A selection over an open directory, with what the lemmas on the lists
    need. *)
Lemma classic_open fs d retain names :
  0 <= retain -> FS.opendir d fs = Some names ->
  blacklist_of (result (cr_repodata_blacklist_classic d retain fs))
  = append_to_blacklist (inserted fs d names no_lists) (Z.to_nat retain) []
  /\ (forall name, In name names -> entry_like name).
Proof.
  intros Hr Ho. rewrite (classic_run fs d retain names Hr Ho).
  split; [reflexivity|].
  intros name. apply (opendir_entry_like fs d names name Ho).
Qed.

Lemma opendir_nodup fs d names :
  distinct_paths fs -> FS.opendir d fs = Some names -> NoDup names.
Proof.
  unfold FS.opendir. intros Hd Ho.
  destruct (FS.has_dir (FS.as_dir d) fs); [|discriminate].
  injection Ho as <-. now apply entries_nodup.
Qed.

End ClassicMore.

(** X5: neither selection ever changes the file system, removes a file or
    copies one, whatever the path and the retain count. *)
Theorem selections_only_read (repodata_path : string) (retain : Z)
        (fs : filesystem) :
  let classic := cr_repodata_blacklist_classic repodata_path retain fs in
  let by_manifest := cr_repodata_blacklist repodata_path retain fs in
  final_fs classic = fs
  /\ filter is_remove (trace classic) = []
  /\ filter is_copy (trace classic) = []
  /\ final_fs by_manifest = fs
  /\ filter is_remove (trace by_manifest) = []
  /\ filter is_copy (trace by_manifest) = [].
Proof.
  intros classic by_manifest. subst classic by_manifest.
  split; [apply classic_readonly|].
  destruct (quiet_filters _ (reads_quiet _ (classic_reads fs repodata_path retain)))
    as [H1 H2].
  split; [exact H1|]. split; [exact H2|].
  destruct (manifest_cases retain) as [-> | [H | [H | H]]].
  - destruct (manifest_run_zero fs repodata_path) as [_ Hfs].
    destruct (quiet_filters _ (manifest_trace_zero fs repodata_path)) as [H3 H4].
    repeat split; assumption.
  - rewrite manifest_run_badarg by exact H. repeat split.
  - rewrite manifest_run_idle by (now left). repeat split.
  - rewrite manifest_run_idle by (now right). repeat split.
Qed.

(** X6: on a directory that opens, the classic selection with a retain
    count [>= 0] makes one [g_dir_open] call and then one [stat] call for
    each classified entry, in the order of the listing, on the path
    [repodata_path ++ filename]; it makes no call for an entry that belongs
    to no family. *)
Theorem classic_calls (repodata_path : string) (retain : Z) (fs : filesystem)
        (names : list string) :
  0 <= retain ->
  FS.opendir repodata_path fs = Some names ->
  trace (cr_repodata_blacklist_classic repodata_path retain fs)
  = EvDirOpen repodata_path true
      :: map (fun f => EvStat (repodata_path ++ f)
                              (match FS.stat (repodata_path ++ f) fs with
                               | Some _ => true | None => false end))
             (filter classified names).
Proof.
  intros Hr Ho. rewrite (classic_run fs repodata_path retain names Hr Ho).
  run_simpl. now rewrite stat_events_map.
Qed.

Lemma classic_calls_witness :
  trace (cr_repodata_blacklist_classic "repo/repodata/" 0 repo_with_unstatable)
  = [EvDirOpen "repo/repodata/" true;
     EvStat "repo/repodata/a-primary.xml.gz" true;
     EvStat "repo/repodata/b-primary.xml.gz" false;
     EvStat "repo/repodata/c-primary.xml.gz" true].
Proof.
  assert (H0 : 0 <= 0) by lia.
  rewrite (classic_calls "repo/repodata/" 0 repo_with_unstatable
             ["a-primary.xml.gz"; "b-primary.xml.gz"; "c-primary.xml.gz";
              "notes.txt"] H0 eq_refl).
  reflexivity.
Defined.

(** X7: when the directory cannot be opened, the classic selection with a
    retain count [>= 0] fails with an error of code [CRE_IO] in the domain of
    the helpers, leaves the blacklist empty, logs the message of the error as
    a warning and makes no [stat] call. *)
Theorem classic_closed_directory (repodata_path : string) (retain : Z)
        (fs : filesystem) :
  0 <= retain ->
  FS.opendir repodata_path fs = None ->
  let run := cr_repodata_blacklist_classic repodata_path retain fs in
  succeeded (result run) = false
  /\ blacklist_of (result run) = []
  /\ (exists e, error_of (result run) = Some e
                /\ ge_domain e = CR_HELPER_ERROR /\ ge_code e = CRE_IO
                /\ trace run = [EvDirOpen repodata_path false;
                                EvWarning (ge_message e)])
  /\ final_fs run = fs.
Proof.
  intros Hr Ho run. subst run. rewrite classic_run_closed by assumption.
  split; [reflexivity|]. split; [reflexivity|]. split; [|reflexivity].
  exists (cannot_open_error repodata_path). repeat split.
Qed.

Lemma classic_closed_directory_witness :
  0 <= 3 /\ FS.opendir "old" file_for_repo = None
  /\ succeeded (result (cr_repodata_blacklist_classic "old" 3 file_for_repo))
     = false.
Proof.
  assert (H3 : 0 <= 3) by lia.
  assert (Ho : FS.opendir "old" file_for_repo = None) by reflexivity.
  pose proof (classic_closed_directory "old" 3 file_for_repo H3 Ho) as T.
  cbv zeta in T. destruct T as (T & _).
  split; [exact H3|]. split; [exact Ho | exact T].
Defined.

(** X8: raising the retain count never adds to the blacklist: every name
    blacklisted with the larger count is blacklisted with the smaller. *)
Theorem classic_blacklist_shrinks (repodata_path : string) (n n' : Z)
        (fs : filesystem) (b : string) :
  0 <= n -> n <= n' ->
  In b (blacklist_of (result (cr_repodata_blacklist_classic repodata_path n' fs))) ->
  In b (blacklist_of (result (cr_repodata_blacklist_classic repodata_path n fs))).
Proof.
  intros Hn Hn'.
  destruct (FS.opendir repodata_path fs) as [names|] eqn:Ho.
  - rewrite (proj1 (classic_open fs repodata_path n' names ltac:(lia) Ho)).
    rewrite (proj1 (classic_open fs repodata_path n names Hn Ho)).
    rewrite !in_append_to_blacklist. intros [x Hx]. exists x.
    unfold dropped_names, g_slist_nth in *. apply in_map_iff in Hx.
    destruct Hx as (o & <- & Ho'). apply in_map_iff. exists o.
    split; [reflexivity|].
    apply (skipn_more (Z.to_nat n) (Z.to_nat n')); [lia | exact Ho'].
  - rewrite (classic_run_closed fs repodata_path n') by (assumption || lia).
    intros [].
Qed.

Lemma classic_blacklist_shrinks_witness :
  0 <= 1 /\ 1 <= 2
  /\ In "a-primary.sqlite.bz2"
        (blacklist_of (result (cr_repodata_blacklist_classic
                                 "repo/repodata/" 1 repo_with_manifest))).
Proof.
  assert (H1 : 0 <= 1) by lia. assert (H2 : 1 <= 2) by lia.
  split; [exact H1|]. split; [exact H2|].
  apply (classic_blacklist_shrinks "repo/repodata/" 1 2 repo_with_manifest
                                   "a-primary.sqlite.bz2" H1 H2).
  vm_compute. tauto.
Defined.

(** X9: on a directory that opens, the blacklist of the classic selection
    has one entry for each file beyond the first [n] of each family: its
    length is the sum over the six families of [k - n], cut off at 0; it is
    empty exactly when no family has more than [n] files. *)
Theorem classic_blacklist_length (repodata_path : string) (retain : Z)
        (fs : filesystem) (names : list string) :
  0 <= retain ->
  FS.opendir repodata_path fs = Some names ->
  let bl := blacklist_of
              (result (cr_repodata_blacklist_classic repodata_path retain fs)) in
  List.length bl
  = list_sum (map (fun x => (List.length (members x names) - Z.to_nat retain)%nat)
                  families)
  /\ (bl = [] <->
      forall x, (List.length (members x names) <= Z.to_nat retain)%nat).
Proof.
  intros Hr Ho bl. subst bl.
  rewrite (proj1 (classic_open fs repodata_path retain names Hr Ho)).
  rewrite append_to_blacklist_eq, app_nil_r.
  assert (Hlen : List.length
                   (rev (flat_map (dropped_names
                                     (inserted fs repodata_path names no_lists)
                                     (Z.to_nat retain)) families))
                 = list_sum (map (fun x => (List.length (members x names)
                                            - Z.to_nat retain)%nat) families)).
  { rewrite length_rev, flat_map_length_sum. f_equal.
    apply map_ext. intros x. apply dropped_length. }
  split; [exact Hlen|]. split.
  - intros E x. rewrite E in Hlen. simpl in Hlen.
    destruct x; simpl in Hlen; lia.
  - intros H. apply length_zero_iff_nil. rewrite Hlen. simpl.
    pose proof (H Primary). pose proof (H PrimaryDb). pose proof (H Filelists).
    pose proof (H FilelistsDb). pose proof (H Other). pose proof (H OtherDb).
    lia.
Qed.

Lemma classic_blacklist_length_witness :
  0 <= 1
  /\ List.length
       (blacklist_of (result (cr_repodata_blacklist_classic
                                "repo/repodata/" 1 repo_with_manifest)))
     = 2%nat.
Proof.
  assert (H1 : 0 <= 1) by lia.
  pose proof (classic_blacklist_length
                "repo/repodata/" 1 repo_with_manifest
                ["repomd.xml"; "a-primary.sqlite.bz2"; "b-primary.sqlite.bz2";
                 "c-primary.sqlite.bz2"; "notes.txt"] H1 eq_refl) as T.
  cbv zeta in T. destruct T as [T _].
  split; [exact H1|]. rewrite T. reflexivity.
Defined.

(** X10: with retain count 0 and a directory path that ends in the
    separator, the blacklist of the classic selection holds exactly the
    names of the listing that belong to a family. *)
Theorem classic_zero_blacklists_families (d : string) (fs : filesystem)
        (names : list string) (f : string) :
  FS.opendir (d ++ "/") fs = Some names ->
  In f (blacklist_of (result (cr_repodata_blacklist_classic (d ++ "/") 0 fs)))
  <-> In f names /\ classified f = true.
Proof.
  intros Ho. split.
  - intros Hb. apply classic_blacklisted in Hb.
    destruct Hb as (names' & x & name & Ho' & Hin & Hc & ->).
    rewrite Ho in Ho'. injection Ho' as <-.
    rewrite basename_in_dir
      by (apply (opendir_entry_like fs (d ++ "/") names name Ho Hin)).
    split; [exact Hin|]. unfold classified. now rewrite Hc.
  - intros [Hin Hc]. unfold classified in Hc.
    destruct (classify f) as [x|] eqn:E; [|discriminate].
    destruct (classic_open fs (d ++ "/") 0 names (Z.le_refl 0) Ho) as [-> He].
    apply in_append_to_blacklist. exists x. simpl.
    assert (Hm : In f (members x names)) by (apply in_members; tauto).
    apply (Permutation_in _ (kept_dropped_perm fs d names He 0 x)) in Hm.
    exact Hm.
Qed.

Lemma classic_zero_blacklists_families_witness :
  In "b-primary.xml.gz"
     (blacklist_of (result (cr_repodata_blacklist_classic
                              ("repo/repodata" ++ "/") 0 repo_with_unstatable)))
  /\ ~ In "notes.txt"
          (blacklist_of (result (cr_repodata_blacklist_classic
                                   ("repo/repodata" ++ "/") 0
                                   repo_with_unstatable))).
Proof.
  assert (Ho : FS.opendir ("repo/repodata" ++ "/") repo_with_unstatable
               = Some ["a-primary.xml.gz"; "b-primary.xml.gz";
                       "c-primary.xml.gz"; "notes.txt"]) by reflexivity.
  split.
  - apply (classic_zero_blacklists_families _ _ _ "b-primary.xml.gz" Ho).
    split; [simpl; tauto | reflexivity].
  - intros H.
    apply (classic_zero_blacklists_families _ _ _ "notes.txt" Ho) in H.
    destruct H as [_ H]. discriminate.
Defined.

Section Extremes.
Import FSFacts.

Variable fs : filesystem.
Variable d : string.
Variable names : list string.
Variable retain : Z.

Hypothesis retain_valid : 0 <= retain.
Hypothesis paths_distinct : distinct_paths fs.
Hypothesis dir_open : FS.opendir (d ++ "/") fs = Some names.

Let dir := d ++ "/".
Let n := Z.to_nat retain.
Let ls := inserted fs dir names no_lists.
Let bl := blacklist_of (result (cr_repodata_blacklist_classic dir retain fs)).

Lemma extremes_entries name : In name names -> entry_like name.
Proof. apply (opendir_entry_like fs dir names name dir_open). Qed.

Lemma extremes_nodup : NoDup names.
Proof. apply (opendir_nodup fs dir names paths_distinct dir_open). Qed.

Lemma extremes_blacklist : bl = append_to_blacklist ls n [].
Proof. apply (classic_open fs dir retain names retain_valid dir_open). Qed.

(** A file of a family is kept or dropped, not both. *)
Lemma kept_or_dropped (x : family) (f : string) :
  In f names -> classify f = Some x ->
  (In f (kept_names ls n x) /\ ~ In f bl)
  \/ (In f (dropped_names ls n x) /\ In f bl).
Proof.
  intros Hin Hc.
  assert (Hm : In f (members x names)) by (apply in_members; tauto).
  apply (Permutation_in _ (kept_dropped_perm fs d names extremes_entries n x))
    in Hm.
  apply in_app_or in Hm. rewrite extremes_blacklist.
  destruct Hm as [Hk|Hd]; [left | right]; split; try assumption.
  - now apply (kept_not_dropped fs d names extremes_entries extremes_nodup n x).
  - apply in_append_to_blacklist. now exists x.
Qed.

Lemma kept_dropped_distinct (x : family) (f g : string) :
  In f (dropped_names ls n x) -> In g (kept_names ls n x) -> f <> g.
Proof.
  intros Hf Hg ->.
  apply (nodup_app_disjoint (kept_names ls n x) (dropped_names ls n x) g);
    try assumption.
  apply (Permutation_NoDup (kept_dropped_perm fs d names extremes_entries n x)).
  unfold members. apply NoDup_filter, extremes_nodup.
Qed.

Lemma kept_in_family (x : family) (g : string) :
  In g (kept_names ls n x) -> In g names /\ classify g = Some x.
Proof.
  intros H. apply in_members.
  apply (Permutation_in
           _ (Permutation_sym
                (kept_dropped_perm fs d names extremes_entries n x))).
  apply in_or_app. now left.
Qed.

Lemma dropped_in_family (x : family) (g : string) :
  In g (dropped_names ls n x) -> In g names /\ classify g = Some x.
Proof.
  intros H. apply in_members.
  apply (Permutation_in
           _ (Permutation_sym
                (kept_dropped_perm fs d names extremes_entries n x))).
  apply in_or_app. now right.
Qed.

Lemma kept_length (x : family) :
  List.length (kept_names ls n x) = Nat.min n (List.length (members x names)).
Proof.
  unfold kept_names. rewrite length_map, length_firstn.
  unfold ls. now rewrite inserted_length.
Qed.

Lemma dropped_length_here (x : family) :
  List.length (dropped_names ls n x) = (List.length (members x names) - n)%nat.
Proof. apply dropped_length. Qed.

End Extremes.

(** X11: with a retain count of at least 1, a directory path that ends in
    the separator and no path listed twice, the file of a family whose
    recorded modification time is later than that of every other file of the
    family is never blacklisted by the classic selection. *)
Theorem newest_file_is_kept (d : string) (retain : Z) (fs : filesystem)
        (names : list string) (x : family) (f : string) :
  1 <= retain ->
  distinct_paths fs ->
  FS.opendir (d ++ "/") fs = Some names ->
  In f names -> classify f = Some x ->
  (forall g, In g names -> classify g = Some x -> g <> f ->
             recorded_mtime fs ((d ++ "/") ++ g)
             < recorded_mtime fs ((d ++ "/") ++ f)) ->
  ~ In f (blacklist_of
            (result (cr_repodata_blacklist_classic (d ++ "/") retain fs))).
Proof.
  intros Hr Hd Ho Hin Hc Hnew.
  assert (Hr0 : 0 <= retain) by lia.
  destruct (kept_or_dropped fs d names retain Hr0 Hd Ho x f Hin Hc)
    as [[_ H]|[Hdrop _]]; [exact H|].
  pose proof (kept_length fs d names retain x) as Hk.
  assert (Hm : In f (members x names)) by (apply in_members; tauto).
  destruct (kept_names (inserted fs (d ++ "/") names no_lists)
                       (Z.to_nat retain) x) as [|g kept] eqn:E.
  { simpl in Hk. destruct (members x names); [destruct Hm | simpl in Hk; lia]. }
  assert (Hg : In g (kept_names (inserted fs (d ++ "/") names no_lists)
                                (Z.to_nat retain) x))
    by (rewrite E; now left).
  pose proof (dropped_older fs d names (extremes_entries fs d names Ho)
                            (Z.to_nat retain) x f g Hdrop Hg) as Hle.
  destruct (kept_in_family fs d names retain Ho x g Hg) as [Hgn Hgc].
  pose proof (kept_dropped_distinct fs d names retain Hd Ho x f g Hdrop Hg) as Hne.
  specialize (Hnew g Hgn Hgc (fun e => Hne (eq_sym e))). lia.
Qed.

Lemma newest_file_is_kept_witness :
  1 <= 1
  /\ ~ In "c-primary.xml.gz"
          (blacklist_of
             (result (cr_repodata_blacklist_classic
                        ("repo/repodata" ++ "/") 1 repo_with_unstatable))).
Proof.
  assert (H1 : 1 <= 1) by lia.
  split; [exact H1|].
  apply (newest_file_is_kept
           "repo/repodata" 1 repo_with_unstatable
           ["a-primary.xml.gz"; "b-primary.xml.gz"; "c-primary.xml.gz";
            "notes.txt"] Primary "c-primary.xml.gz" H1).
  - unfold distinct_paths. simpl.
    repeat (constructor; [simpl; intuition discriminate|]). constructor.
  - reflexivity.
  - simpl. tauto.
  - reflexivity.
  - intros g [<- | [<- | [<- | [<- | []]]]] Hc Hne;
      try (vm_compute; reflexivity); try discriminate; congruence.
Defined.

(** X12: with a retain count [n >= 0], a directory path that ends in the
    separator and no path listed twice, in a family of more than [n] files
    the file whose recorded modification time is earlier than that of every
    other file of the family is blacklisted; an entry on which [stat] fails
    is recorded with time 1, so it is blacklisted when the other files of the
    family have later times. *)
Theorem oldest_file_is_blacklisted (d : string) (retain : Z) (fs : filesystem)
        (names : list string) (x : family) (f : string) :
  0 <= retain ->
  retain < Z.of_nat (List.length (members x names)) ->
  distinct_paths fs ->
  FS.opendir (d ++ "/") fs = Some names ->
  In f names -> classify f = Some x ->
  (forall g, In g names -> classify g = Some x -> g <> f ->
             recorded_mtime fs ((d ++ "/") ++ f)
             < recorded_mtime fs ((d ++ "/") ++ g)) ->
  In f (blacklist_of
          (result (cr_repodata_blacklist_classic (d ++ "/") retain fs)))
  /\ (FS.stat ((d ++ "/") ++ f) fs = None ->
      recorded_mtime fs ((d ++ "/") ++ f) = 1).
Proof.
  intros Hr Hk Hd Ho Hin Hc Hold.
  split; [|unfold recorded_mtime; now intros ->].
  destruct (kept_or_dropped fs d names retain Hr Hd Ho x f Hin Hc)
    as [[Hkept _]|[_ H]]; [|exact H].
  pose proof (dropped_length_here fs d names retain x) as Hl.
  destruct (dropped_names (inserted fs (d ++ "/") names no_lists)
                          (Z.to_nat retain) x) as [|g dropped] eqn:E.
  { simpl in Hl. lia. }
  assert (Hg : In g (dropped_names (inserted fs (d ++ "/") names no_lists)
                                   (Z.to_nat retain) x))
    by (rewrite E; now left).
  pose proof (dropped_older fs d names (extremes_entries fs d names Ho)
                            (Z.to_nat retain) x g f Hg Hkept) as Hle.
  destruct (dropped_in_family fs d names retain Ho x g Hg) as [Hgn Hgc].
  pose proof (kept_dropped_distinct fs d names retain Hd Ho x g f Hg Hkept) as Hne.
  specialize (Hold g Hgn Hgc Hne). lia.
Qed.

Lemma oldest_file_is_blacklisted_witness :
  0 <= 2
  /\ FS.stat "repo/repodata/b-primary.xml.gz" repo_with_unstatable = None
  /\ In "b-primary.xml.gz"
        (blacklist_of
           (result (cr_repodata_blacklist_classic
                      ("repo/repodata" ++ "/") 2 repo_with_unstatable))).
Proof.
  assert (H2 : 0 <= 2) by lia.
  split; [exact H2|]. split; [reflexivity|].
  apply (oldest_file_is_blacklisted
           "repo/repodata" 2 repo_with_unstatable
           ["a-primary.xml.gz"; "b-primary.xml.gz"; "c-primary.xml.gz";
            "notes.txt"] Primary "b-primary.xml.gz" H2).
  - vm_compute. reflexivity.
  - unfold distinct_paths. simpl.
    repeat (constructor; [simpl; intuition discriminate|]). constructor.
  - reflexivity.
  - simpl. tauto.
  - reflexivity.
  - intros g [<- | [<- | [<- | [<- | []]]]] Hc Hne;
      try (vm_compute; reflexivity); try discriminate; congruence.
Defined.

(* ================================================================== *)
(** ** More on the selection by the manifest *)

Lemma blacklist_records_exact records bl fs :
  result (blacklist_records records bl fs)
  = (rev (flat_map record_names records) ++ bl)%list.
Proof.
  revert bl. induction records as [|rec rest IH]; intros bl; simpl;
    [reflexivity|].
  unfold record_names at 1.
  destruct (location_href rec) as [href|].
  - destruct (location_base rec) as [base|].
    + simpl. rewrite <- (IH bl). unfold bind, g_debug, result.
      destruct (blacklist_records rest bl fs) as [[b f] t]. reflexivity.
    + rewrite IH. simpl. now rewrite <- List.app_assoc.
  - simpl. rewrite <- (IH bl). unfold bind, g_warning, result.
    destruct (blacklist_records rest bl fs) as [[b f] t]. reflexivity.
Qed.

(** X13: the selection by the manifest reads the manifest for retain count
    0 only: for every other count it makes no call at all and leaves the
    blacklist empty, succeeding for -1 and for positive counts and failing
    with the invalid-argument error for counts below -1; for 0 its first call
    is the parse of [repomd.xml] under the given directory. *)
Theorem manifest_selection_reads_at_zero_only
        (repodata_path : string) (retain : Z) (fs : filesystem) :
  let run := cr_repodata_blacklist repodata_path retain fs in
  (retain <> 0 ->
   trace run = [] /\ blacklist_of (result run) = [] /\ final_fs run = fs
   /\ (-1 <= retain -> result run = (true, [], None))
   /\ (retain < -1 -> result run = (false, [], Some badarg_error)))
  /\ (retain = 0 ->
      exists ok rest,
        trace run
        = EvParseRepomd (g_build_filename repodata_path "repomd.xml") ok :: rest).
Proof.
  intros run. subst run. split.
  - intros Hne. destruct (manifest_cases retain) as [-> | [H | [H | H]]];
      [congruence | | |].
    + rewrite manifest_run_badarg by exact H.
      repeat split; try reflexivity. lia.
    + rewrite manifest_run_idle by (now left).
      repeat split; try reflexivity. lia.
    + rewrite manifest_run_idle by (now right).
      repeat split; try reflexivity. lia.
  - intros ->. unfold cr_repodata_blacklist. simpl.
    set (p := g_build_filename repodata_path "repomd.xml").
    unfold bind, cr_xml_parse_repomd.
    destruct (FS.parse_repomd p fs) as [records|].
    + simpl. destruct (blacklist_records records [] fs) as [[b f] t].
      simpl. eexists _, _. reflexivity.
    + unfold g_warning, ret. simpl. eexists _, _. reflexivity.
Qed.

Lemma manifest_selection_reads_at_zero_only_witness :
  5 <> 0
  /\ trace (cr_repodata_blacklist "old/repodata/" 5 repo_with_parsed_manifest) = []
  /\ exists ok rest,
      trace (cr_repodata_blacklist "old/repodata/" 0 repo_with_parsed_manifest)
      = EvParseRepomd "old/repodata/repomd.xml" ok :: rest.
Proof.
  assert (H5 : 5 <> 0) by discriminate.
  pose proof (manifest_selection_reads_at_zero_only
                "old/repodata/" 5 repo_with_parsed_manifest) as T.
  pose proof (manifest_selection_reads_at_zero_only
                "old/repodata/" 0 repo_with_parsed_manifest) as U.
  cbv zeta in T, U. destruct T as [T _]. destruct U as [_ U].
  split; [exact H5|]. split; [apply (T H5) | apply (U eq_refl)].
Defined.

(** X14: with retain count 0 the blacklist of the selection by the manifest
    has one entry, the base name of the location, for each record with a
    location and no base location, in the reverse of the order of the
    records, a name that occurs twice being listed twice; a manifest that
    does not parse counts as one without records. *)
Theorem manifest_blacklist_exact (repodata_path : string) (fs : filesystem) :
  let old_repomd_path := g_build_filename repodata_path "repomd.xml" in
  let records := match FS.parse_repomd old_repomd_path fs with
                 | Some records => records
                 | None => []
                 end in
  blacklist_of (result (cr_repodata_blacklist repodata_path 0 fs))
  = rev (flat_map record_names records).
Proof.
  intros p records. subst records.
  destruct (manifest_run_zero fs repodata_path) as [Hr _]. fold p in Hr.
  rewrite Hr. unfold blacklist_of. simpl.
  now rewrite blacklist_records_exact, app_nil_r.
Qed.

(* ================================================================== *)
(** ** More on the walk of the pruner *)

Section PrunerWalkMore.
Import FSFacts.

Variable full_repopath : string.
Variable blacklist : list string.

Lemma walk_cases filename rest fs :
  exists fs1 pre,
    remove_blacklisted full_repopath blacklist (filename :: rest) fs
    = (tt, final_fs (remove_blacklisted full_repopath blacklist rest fs1),
       (pre ++ trace (remove_blacklisted full_repopath blacklist rest fs1))%list)
    /\ ((g_slist_find_strcmp0 blacklist filename = false
         /\ fs1 = fs /\ pre = [])
        \/ (g_slist_find_strcmp0 blacklist filename = true
            /\ FS.remove (full_repopath ++ filename) fs = Some fs1
            /\ pre = [EvRemove (full_repopath ++ filename) true;
                      EvDebug ("Removed " ++ full_repopath ++ filename)])
        \/ (g_slist_find_strcmp0 blacklist filename = true
            /\ FS.remove (full_repopath ++ filename) fs = None
            /\ fs1 = fs
            /\ pre = [EvRemove (full_repopath ++ filename) false;
                      EvWarning ("Cannot remove " ++ full_repopath ++ filename)])).
Proof.
  destruct (g_slist_find_strcmp0 blacklist filename) eqn:Eb.
  - destruct (FS.remove (full_repopath ++ filename) fs) as [fs'|] eqn:Er.
    + exists fs', [EvRemove (full_repopath ++ filename) true;
                   EvDebug ("Removed " ++ full_repopath ++ filename)].
      split; [now apply walk_removed | right; left; tauto].
    + exists fs, [EvRemove (full_repopath ++ filename) false;
                  EvWarning ("Cannot remove " ++ full_repopath ++ filename)].
      split; [now apply walk_stuck | right; right; tauto].
  - exists fs, []. split; [|left; tauto].
    rewrite walk_skip by exact Eb. apply walk_unit.
Qed.

Lemma remove_lookup p q fs fs1 :
  FS.remove q fs = Some fs1 ->
  FS.lookup p (fs_files fs1)
  = (if String.eqb q p then None else FS.lookup p (fs_files fs))
  /\ fs_dirs fs1 = fs_dirs fs.
Proof.
  unfold FS.remove. destruct (FS.lookup q (fs_files fs)) as [n|]; [|discriminate].
  destruct (n_removable n); [|discriminate].
  intros H. injection H as <-. simpl. split; [apply lookup_unlink | reflexivity].
Qed.

(** The walk removes files, it never adds or changes one. *)
Lemma walk_shrinks names fs p n :
  FS.lookup p (fs_files (final_fs (remove_blacklisted full_repopath blacklist
                                                      names fs))) = Some n ->
  FS.lookup p (fs_files fs) = Some n.
Proof.
  revert fs. induction names as [|f rest IH]; intros fs; [trivial|].
  destruct (walk_cases f rest fs) as (fs1 & pre & -> & Hc). run_simpl.
  intros H. apply IH in H.
  destruct Hc as [(_ & -> & _) | [(_ & Hr & _) | (_ & _ & -> & _)]];
    try exact H.
  destruct (remove_lookup p _ _ _ Hr) as [Hl _]. rewrite Hl in H.
  destruct (String.eqb (full_repopath ++ f) p); [discriminate | exact H].
Qed.

Lemma walk_dirs names fs :
  fs_dirs (final_fs (remove_blacklisted full_repopath blacklist names fs))
  = fs_dirs fs.
Proof.
  revert fs. induction names as [|f rest IH]; intros fs; [reflexivity|].
  destruct (walk_cases f rest fs) as (fs1 & pre & -> & Hc). run_simpl.
  rewrite IH.
  destruct Hc as [(_ & -> & _) | [(_ & Hr & _) | (_ & _ & -> & _)]];
    try reflexivity.
  apply (remove_lookup EmptyString _ _ _ Hr).
Qed.

(** A path the walk does not try to remove keeps its file. *)
Lemma walk_untouched names fs p :
  doomed full_repopath blacklist names p = false ->
  FS.lookup p (fs_files (final_fs (remove_blacklisted full_repopath blacklist
                                                      names fs)))
  = FS.lookup p (fs_files fs).
Proof.
  revert fs. induction names as [|f rest IH]; intros fs Hd; [reflexivity|].
  destruct (walk_cases f rest fs) as (fs1 & pre & -> & Hc). run_simpl.
  destruct Hc as [(Hb & -> & _) | [(Hb & Hr & _) | (Hb & _ & -> & _)]].
  - rewrite doomed_cons_skip in Hd by exact Hb. now apply IH.
  - rewrite doomed_cons_hit in Hd by exact Hb.
    apply orb_false_elim in Hd. destruct Hd as [Hp Hd].
    rewrite IH by exact Hd.
    destruct (remove_lookup p _ _ _ Hr) as [Hl _]. rewrite Hl.
    now rewrite String.eqb_sym, Hp.
  - rewrite doomed_cons_hit in Hd by exact Hb.
    apply orb_false_elim in Hd. destruct Hd as [_ Hd]. now apply IH.
Qed.

(** Every removal attempt is on a blacklisted entry of the listing. *)
Lemma walk_remove_events names fs p ok :
  In (EvRemove p ok) (trace (remove_blacklisted full_repopath blacklist names fs)) ->
  exists filename,
    In filename names /\ g_slist_find_strcmp0 blacklist filename = true
    /\ p = full_repopath ++ filename.
Proof.
  revert fs. induction names as [|f rest IH]; intros fs; [intros []|].
  destruct (walk_cases f rest fs) as (fs1 & pre & -> & Hc). run_simpl.
  intros Hin. apply in_app_or in Hin. destruct Hin as [Hin|Hin].
  - exists f.
    destruct Hc as [(_ & _ & ->) | [(Hb & _ & ->) | (Hb & _ & _ & ->)]];
      simpl in Hin;
      repeat (destruct Hin as [Hin|Hin]; try discriminate);
      try contradiction;
      injection Hin as <- _; repeat split; auto; now left.
  - destruct (IH fs1 Hin) as (g & Hg & H). exists g.
    split; [now right | exact H].
Qed.

(** A blacklisted entry that can be removed is gone after the walk. *)
Lemma walk_removes names fs filename :
  In filename names ->
  g_slist_find_strcmp0 blacklist filename = true ->
  (forall n, FS.lookup (full_repopath ++ filename) (fs_files fs) = Some n ->
             n_removable n = true) ->
  FS.lookup (full_repopath ++ filename)
            (fs_files (final_fs (remove_blacklisted full_repopath blacklist
                                                    names fs)))
  = None.
Proof.
  intros Hin Hb. revert fs.
  induction names as [|f rest IH]; intros fs Hrm; [destruct Hin|].
  destruct (walk_cases f rest fs) as (fs1 & pre & -> & Hc). run_simpl.
  set (p := full_repopath ++ filename) in *.
  assert (Hgone : FS.lookup p (fs_files fs1) = None ->
                  FS.lookup p (fs_files (final_fs (remove_blacklisted
                                                     full_repopath blacklist
                                                     rest fs1))) = None).
  { intros Hn.
    destruct (FS.lookup p (fs_files (final_fs (remove_blacklisted
                                                 full_repopath blacklist
                                                 rest fs1)))) as [n|] eqn:E;
      [|reflexivity].
    apply walk_shrinks in E. congruence. }
  destruct (String.eqb_spec f filename) as [->|Hne].
  - destruct Hc as [(Hb' & _) | [(_ & Hr & _) | (_ & Hr & -> & _)]].
    + congruence.
    + apply Hgone. destruct (remove_lookup p _ _ _ Hr) as [Hl _].
      rewrite Hl. fold p. now rewrite String.eqb_refl.
    + apply Hgone. unfold FS.remove in Hr. fold p in Hr.
      destruct (FS.lookup p (fs_files fs)) as [n|] eqn:El; [|reflexivity].
      rewrite (Hrm n eq_refl) in Hr. discriminate.
  - destruct Hin as [Hin|Hin]; [congruence|].
    apply (IH Hin).
    destruct Hc as [(_ & -> & _) | [(_ & Hr & _) | (_ & _ & -> & _)]];
      try exact Hrm.
    intros n Hn. destruct (remove_lookup p _ _ _ Hr) as [Hl _].
    rewrite Hl in Hn.
    destruct (String.eqb (full_repopath ++ f) p); [discriminate|].
    now apply Hrm.
Qed.

End PrunerWalkMore.

(* ================================================================== *)
(** ** More on the pruner *)

Section PrunerMore.
Import FSFacts.

Variable repopath : string.
Variable retain : Z.
Variable fs : filesystem.

Let full := repopath ++ "/repodata/".
Let sel := cr_repodata_blacklist_classic full retain fs.
Let bl := with_manifest (blacklist_of (result sel)).
Let run := cr_remove_metadata_classic repopath retain fs.

(** The three ways a run of the pruner goes. *)
Lemma pruner_shape :
  (succeeded (result sel) = false
   /\ run = ((FALSE, error_of (result sel)), fs, trace sel))
  \/ (succeeded (result sel) = true /\ FS.opendir full fs = None
      /\ run = ((CRE_IO,
                 Some (g_propagate_prefixed_error (g_dir_open_error full)
                                                  "Cannot open a dir: ")),
                fs,
                (trace sel
                   ++ [EvDirOpen full false;
                       EvDebug ("cr_remove_metadata_classic: Path " ++ repopath
                                  ++ " doesn't exist")])%list))
  \/ (exists names,
         succeeded (result sel) = true /\ FS.opendir full fs = Some names
         /\ run = ((CRE_OK, None),
                   final_fs (remove_blacklisted full bl names fs),
                   (trace sel
                      ++ EvDirOpen full true
                      :: trace (remove_blacklisted full bl names fs))%list)).
Proof.
  destruct (succeeded (result sel)) eqn:Hs.
  - right. pose proof (pruner_run fs repopath retain Hs) as H.
    fold full sel bl run in H.
    destruct (FS.opendir full fs) as [names|] eqn:Ho.
    + right. exists names. split; [reflexivity|]. split; [reflexivity|].
      rewrite H. unfold after.
      now rewrite (remove_with_run fs repopath full bl names Ho).
    + left. split; [reflexivity|]. split; [reflexivity|].
      rewrite H. unfold after, remove_metadata_with, bind, g_dir_open.
      rewrite Ho. reflexivity.
  - left. split; [reflexivity|]. apply (pruner_run_failed fs repopath retain Hs).
Qed.

Lemma not_doomed names p :
  (forall f, p = full ++ f -> g_slist_find_strcmp0 bl f = false) ->
  doomed full bl names p = false.
Proof.
  intros H. unfold doomed.
  destruct (existsb _ names) eqn:E; [|reflexivity].
  apply existsb_exists in E. destruct E as (f & _ & Hf).
  apply andb_true_iff in Hf. destruct Hf as [Hb Hp].
  apply String.eqb_eq in Hp. rewrite (H f Hp) in Hb. discriminate.
Qed.

(** The pruner only removes, and only blacklisted entries of its
    directory. *)
Lemma pruner_frame :
  (forall p ok,
      In (EvRemove p ok) (trace run) ->
      exists names f,
        FS.opendir full fs = Some names /\ In f names
        /\ g_slist_find_strcmp0 bl f = true /\ p = full ++ f)
  /\ (forall p n, FS.lookup p (fs_files (final_fs run)) = Some n ->
                  FS.lookup p (fs_files fs) = Some n)
  /\ fs_dirs (final_fs run) = fs_dirs fs
  /\ (forall p,
         (forall f, p = full ++ f -> g_slist_find_strcmp0 bl f = false) ->
         FS.lookup p (fs_files (final_fs run)) = FS.lookup p (fs_files fs)).
Proof.
  destruct pruner_shape as [[_ ->] | [(_ & _ & ->) | (names & _ & Ho & ->)]];
    run_simpl.
  - split; [|repeat split; trivial].
    intros p ok H. now apply classic_no_remove in H.
  - split; [|repeat split; trivial].
    intros p ok H. apply in_app_or in H.
    destruct H as [H | [H | [H | []]]]; try discriminate.
    now apply classic_no_remove in H.
  - split; [|split; [|split]].
    + intros p ok H. apply in_app_or in H.
      destruct H as [H | [H | H]]; try discriminate.
      * now apply classic_no_remove in H.
      * apply walk_remove_events in H. destruct H as (f & Hf & Hb & ->).
        now exists names, f.
    + intros p n. apply walk_shrinks.
    + apply walk_dirs.
    + intros p H. apply walk_untouched. now apply not_doomed.
Qed.

End PrunerMore.

(** X15: when the metadata directory cannot be opened, the pruner changes
    nothing and attempts no removal, and it reports the failure in two ways:
    with retain count -1 it returns [CRE_IO] and passes on the error of
    [g_dir_open] with the prefix "Cannot open a dir: "; with a retain count
    [>= 0] the selection has failed before, and the pruner returns [FALSE]
    with the selection's error, whose code is [CRE_IO]. *)
Theorem pruner_closed_directory (repopath : string) (retain : Z)
        (fs : filesystem) :
  -1 <= retain ->
  let full := repopath ++ "/repodata/" in
  FS.opendir full fs = None ->
  let run := cr_remove_metadata_classic repopath retain fs in
  final_fs run = fs
  /\ filter is_remove (trace run) = []
  /\ (retain = -1 ->
      result run
      = (CRE_IO, Some (g_propagate_prefixed_error (g_dir_open_error full)
                                                  "Cannot open a dir: ")))
  /\ (0 <= retain ->
      result run = (FALSE, Some (cannot_open_error full))
      /\ ge_code (cannot_open_error full) = CRE_IO).
Proof.
  intros Hr full Ho run. subst run.
  destruct (Z.eq_dec retain (-1)) as [->|Hne].
  - unfold cr_remove_metadata_classic, bind. fold full.
    rewrite classic_run_all. simpl.
    unfold remove_metadata_with, bind, g_dir_open. rewrite Ho. simpl.
    repeat split; try reflexivity; lia.
  - assert (H0 : 0 <= retain) by lia.
    assert (Hs : succeeded (result (cr_repodata_blacklist_classic full retain fs))
                 = false)
      by (now rewrite (classic_run_closed fs full retain H0 Ho)).
    rewrite (pruner_run_failed fs repopath retain Hs). fold full.
    rewrite (classic_run_closed fs full retain H0 Ho). run_simpl.
    repeat split; try reflexivity. congruence.
Qed.

Lemma pruner_closed_directory_witness :
  -1 <= -1 /\ -1 <= 1
  /\ FS.opendir ("gone" ++ "/repodata/") file_for_repo = None
  /\ fst (result (cr_remove_metadata_classic "gone" (-1) file_for_repo)) = CRE_IO
  /\ fst (result (cr_remove_metadata_classic "gone" 1 file_for_repo)) = FALSE.
Proof.
  assert (Ha : -1 <= -1) by lia. assert (Hb : -1 <= 1) by lia.
  assert (Ho : FS.opendir ("gone" ++ "/repodata/") file_for_repo = None)
    by reflexivity.
  pose proof (pruner_closed_directory "gone" (-1) file_for_repo Ha Ho) as T.
  pose proof (pruner_closed_directory "gone" 1 file_for_repo Hb Ho) as U.
  cbv zeta in T, U.
  destruct T as (_ & _ & T & _). destruct U as (_ & _ & _ & U).
  split; [exact Ha|]. split; [exact Hb|]. split; [exact Ho|]. split.
  - now rewrite (T eq_refl).
  - destruct U as [U _]; [lia|]. now rewrite U.
Defined.



(** X17: with retain count -1 the pruner attempts one kind of removal only,
    that of [repomd.xml] in the metadata directory, and every other path
    keeps its file. *)
Theorem pruner_retain_all_removes_manifest_only (repopath : string)
        (fs : filesystem) :
  let full := repopath ++ "/repodata/" in
  let run := cr_remove_metadata_classic repopath (-1) fs in
  (forall p ok, In (EvRemove p ok) (trace run) -> p = full ++ "repomd.xml")
  /\ (forall p, p <> full ++ "repomd.xml" ->
                FS.lookup p (fs_files (final_fs run)) = FS.lookup p (fs_files fs)).
Proof.
  intros full run.
  destruct (pruner_frame repopath (-1) fs) as (H1 & _ & _ & H2).
  fold full run in H1, H2. rewrite classic_run_all in H1, H2.
  unfold blacklist_of in H1, H2. simpl snd in H1, H2. simpl fst in H1, H2.
  assert (Hm : forall f, g_slist_find_strcmp0 (with_manifest []) f = true ->
                         f = "repomd.xml").
  { intros f Hf. apply find_strcmp0_iff in Hf. now destruct Hf as [<-|[]]. }
  split.
  - intros p ok Hp. destruct (H1 p ok Hp) as (names & f & _ & _ & Hb & ->).
    now rewrite (Hm f Hb).
  - intros p Hp. apply H2. intros f ->.
    destruct (g_slist_find_strcmp0 (with_manifest []) f) eqn:E; [|reflexivity].
    apply Hm in E. subst f. congruence.
Qed.

Lemma pruner_retain_all_removes_manifest_only_witness :
  final_fs (cr_remove_metadata_classic "repo" (-1) removable_repo)
  = mkFS ["repo/repodata/"]
         [("repo/repodata/a-primary.xml.gz", plain 100);
          ("repo/repodata/b-primary.xml.gz", plain 200);
          ("repo/repodata/c-primary.xml.gz", plain 300);
          ("repo/repodata/notes.txt", plain 50)]
  /\ FS.lookup "repo/repodata/notes.txt"
               (fs_files (final_fs (cr_remove_metadata_classic
                                      "repo" (-1) removable_repo)))
     = Some (plain 50).
Proof.
  pose proof (pruner_retain_all_removes_manifest_only "repo" removable_repo) as T.
  cbv zeta in T. destruct T as [_ T].
  split; [reflexivity|]. rewrite T; [reflexivity | discriminate].
Defined.

(** X18: whatever the retain count, the pruner leaves alone every entry of
    the metadata directory that belongs to no family and is not
    [repomd.xml]. *)
Theorem pruner_keeps_unclassified (repopath : string) (retain : Z)
        (fs : filesystem) (f : string) :
  classify f = None -> f <> "repomd.xml" ->
  let full := repopath ++ "/repodata/" in
  let run := cr_remove_metadata_classic repopath retain fs in
  FS.lookup (full ++ f) (fs_files (final_fs run))
  = FS.lookup (full ++ f) (fs_files fs)
  /\ forall ok, ~ In (EvRemove (full ++ f) ok) (trace run).
Proof.
  intros Hc Hne full run.
  destruct (pruner_frame repopath retain fs) as (H1 & _ & _ & H2).
  fold full run in H1, H2.
  assert (Hb : g_slist_find_strcmp0
                 (with_manifest
                    (blacklist_of
                       (result (cr_repodata_blacklist_classic full retain fs))))
                 f = false).
  { destruct (g_slist_find_strcmp0 _ f) eqn:E; [|reflexivity].
    apply find_strcmp0_iff in E. destruct E as [E|E]; [congruence|].
    apply classic_blacklisted in E.
    destruct E as (names & x & name & Ho & Hin & Hx & ->).
    pose proof (opendir_entry_like fs full names name Ho Hin) as He.
    unfold full in Hc. rewrite repodata_dir, basename_in_dir in Hc by exact He.
    congruence. }
  split.
  - apply H2. intros g Hg. apply CStrFacts.app_inv_head in Hg. now subst g.
  - intros ok Hin. destruct (H1 _ ok Hin) as (names & g & _ & _ & Hg & Hp).
    apply CStrFacts.app_inv_head in Hp. subst g. congruence.
Qed.

Lemma pruner_keeps_unclassified_witness :
  classify "notes.txt" = None
  /\ FS.lookup ("repo" ++ "/repodata/" ++ "notes.txt")
               (fs_files (final_fs (cr_remove_metadata_classic
                                      "repo" 0 repo_with_manifest)))
     = Some (plain 50).
Proof.
  assert (Hc : classify "notes.txt" = None) by reflexivity.
  assert (Hne : "notes.txt" <> "repomd.xml") by discriminate.
  pose proof (pruner_keeps_unclassified "repo" 0 repo_with_manifest
                                        "notes.txt" Hc Hne) as T.
  cbv zeta in T. destruct T as [T _].
  split; [exact Hc|]. exact T.
Defined.

(** X19: when the metadata directory opens, an entry that is [repomd.xml]
    or on the blacklist of the selection and that can be removed is gone
    after the run, whatever happened to the other entries. *)
Theorem pruner_removes_what_it_can (repopath : string) (retain : Z)
        (fs : filesystem) (names : list string) (f : string) (n : node) :
  -1 <= retain ->
  let full := repopath ++ "/repodata/" in
  FS.opendir full fs = Some names ->
  In f names ->
  In f (with_manifest
          (blacklist_of (result (cr_repodata_blacklist_classic full retain fs)))) ->
  FS.lookup (full ++ f) (fs_files fs) = Some n ->
  n_removable n = true ->
  FS.lookup (full ++ f)
            (fs_files (final_fs (cr_remove_metadata_classic repopath retain fs)))
  = None.
Proof.
  intros Hr full Ho Hin Hb Hl Hrm.
  destruct (pruner_shape repopath retain fs)
    as [[Hs _] | [(_ & Ho' & _) | (names' & _ & Ho' & ->)]].
  - fold full in Hs.
    assert (succeeded (result (cr_repodata_blacklist_classic full retain fs))
            = true); [|congruence].
    apply classic_succeeded.
    destruct (Z.eq_dec retain (-1)); [now left | right].
    split; [lia | now exists names].
  - fold full in Ho'. congruence.
  - fold full in Ho'. rewrite Ho in Ho'. injection Ho' as <-. run_simpl.
    apply walk_removes; [exact Hin | now apply find_strcmp0_iff |].
    intros m Hm. fold full in Hm. congruence.
Qed.

Lemma pruner_removes_what_it_can_witness :
  -1 <= 0
  /\ FS.lookup "repo/repodata/c-primary.sqlite.bz2"
               (fs_files (final_fs (cr_remove_metadata_classic
                                      "repo" 0 repo_with_manifest)))
     = None
  /\ FS.lookup "repo/repodata/b-primary.sqlite.bz2"
               (fs_files (final_fs (cr_remove_metadata_classic
                                      "repo" 0 repo_with_manifest)))
     = Some (stuck 200).
Proof.
  assert (H0 : -1 <= 0) by lia.
  split; [exact H0|]. split; [|reflexivity].
  apply (pruner_removes_what_it_can
           "repo" 0 repo_with_manifest
           ["repomd.xml"; "a-primary.sqlite.bz2"; "b-primary.sqlite.bz2";
            "c-primary.sqlite.bz2"; "notes.txt"]
           "c-primary.sqlite.bz2" (plain 300) H0).
  - reflexivity.
  - simpl. tauto.
  - vm_compute. tauto.
  - reflexivity.
  - reflexivity.
Defined.

(* ================================================================== *)
(** ** More on the walk of the migrator *)

Section MigratorWalkMore.
Import FSFacts.

Variables old_repo new_repo : string.
Variable blacklist : list string.

Lemma lookup_write_same (q : string) (n : node) (l : list (string * node)) :
  FS.lookup q (FS.write q n l) = Some n.
Proof.
  induction l as [|[k m] l IH]; simpl.
  - now rewrite String.eqb_refl.
  - destruct (String.eqb_spec k q) as [->|Hk]; simpl.
    + now rewrite String.eqb_refl.
    + destruct (String.eqb_spec k q); [congruence | exact IH].
Qed.

Lemma copy_result src dst fs n :
  FS.lookup src (fs_files fs) = Some n -> n_copyable n = true ->
  FS.has_dir (FS.parent dst) fs = true ->
  exists fs1, FS.copy src dst fs = Some fs1
              /\ FS.lookup dst (fs_files fs1) = Some n.
Proof.
  intros Hl Hc Hd. unfold FS.copy. rewrite Hl, Hc, Hd. simpl.
  eexists. split; [reflexivity|]. simpl. apply lookup_write_same.
Qed.

(** A path that is no destination of a listed entry off the blacklist keeps
    what it has. *)
Lemma copy_walk_untouched names fs p :
  (forall f, In f names -> g_slist_find_strcmp0 blacklist f = false ->
             p <> new_repo ++ f) ->
  FS.lookup p (fs_files (final_fs (copy_not_blacklisted old_repo new_repo
                                                        blacklist names fs)))
  = FS.lookup p (fs_files fs).
Proof.
  revert fs. induction names as [|f rest IH]; intros fs Hp; [reflexivity|].
  destruct (copy_walk_cons old_repo new_repo blacklist f rest fs)
    as (fs1 & pre & -> & Hs).
  run_simpl. rewrite IH by (intros g Hg; apply Hp; now right).
  destruct Hs as [(_ & -> & _) | [(_ & _ & -> & _)
                 | [(Hb & _ & Hc & _) | (_ & _ & _ & -> & _)]]];
    try reflexivity.
  apply (copy_frame _ _ p _ _ Hc). apply Hp; [now left | exact Hb].
Qed.

Lemma copy_walk_no_remove names fs :
  filter is_remove (trace (copy_not_blacklisted old_repo new_repo
                                                blacklist names fs)) = [].
Proof.
  revert fs. induction names as [|f rest IH]; intros fs; [reflexivity|].
  destruct (copy_walk_cons old_repo new_repo blacklist f rest fs)
    as (fs1 & pre & -> & Hs).
  run_simpl. rewrite filter_app, IH, app_nil_r.
  destruct Hs as [(_ & _ & ->) | [(_ & _ & _ & ->)
                 | [(_ & _ & _ & ->) | (_ & _ & _ & _ & ->)]]];
    reflexivity.
Qed.

(** A listed entry off the blacklist, with a source that can be copied, a
    destination directory and no file at the destination, is at its
    destination after the walk. *)
Lemma copy_walk_lands names fs filename n :
  In filename names ->
  g_slist_find_strcmp0 blacklist filename = false ->
  FS.exists_ (new_repo ++ filename) fs = false ->
  FS.lookup (old_repo ++ filename) (fs_files fs) = Some n ->
  n_copyable n = true ->
  FS.has_dir (FS.parent (new_repo ++ filename)) fs = true ->
  FS.lookup (new_repo ++ filename)
            (fs_files (final_fs (copy_not_blacklisted old_repo new_repo
                                                      blacklist names fs)))
  = Some n
  /\ In (EvCopy (old_repo ++ filename) (new_repo ++ filename) true)
        (trace (copy_not_blacklisted old_repo new_repo blacklist names fs)).
Proof.
  intros Hin Hb. revert fs.
  induction names as [|f rest IH]; intros fs He Hl Hc Hd; [destruct Hin|].
  destruct (copy_walk_cons old_repo new_repo blacklist f rest fs)
    as (fs1 & pre & -> & Hs).
  run_simpl.
  destruct (String.eqb_spec f filename) as [->|Hne].
  - destruct (copy_result _ (new_repo ++ filename) fs n Hl Hc Hd)
      as (fs' & Hcp & Hl').
    destruct Hs as [(Hb' & _) | [(_ & He' & _)
                   | [(_ & _ & Hcp' & ->) | (_ & _ & Hcp' & _)]]];
      try congruence.
    rewrite Hcp in Hcp'. injection Hcp' as <-.
    split; [|simpl; tauto].
    destruct (copy_walk_frame old_repo new_repo blacklist rest fs'
                              (new_repo ++ filename)
                              (lookup_exists _ _ _ Hl')) as (H & _).
    now rewrite H.
  - destruct Hin as [Hin|Hin]; [congruence|].
    assert (Hdst : new_repo ++ filename <> new_repo ++ f).
    { intros E. apply CStrFacts.app_inv_head in E. congruence. }
    destruct (step_frame old_repo new_repo blacklist f fs fs1 pre
                         (old_repo ++ filename) Hs (lookup_exists _ _ _ Hl))
      as (Hsrc & Hdirs & _).
    assert (He1 : FS.exists_ (new_repo ++ filename) fs1 = false).
    { destruct Hs as [(_ & -> & _) | [(_ & _ & -> & _)
                     | [(_ & _ & Hcp & _) | (_ & _ & _ & -> & _)]]];
        try exact He.
      destruct (copy_frame _ _ _ _ _ Hcp Hdst) as [Hl1 Hd1].
      now rewrite (exists_congr _ fs fs1 Hl1 Hd1). }
    destruct (IH Hin fs1 He1) as [H1 H2].
    + now rewrite Hsrc.
    + exact Hc.
    + unfold FS.has_dir in *. now rewrite Hdirs.
    + split; [exact H1 | apply in_or_app; now right].
Qed.

End MigratorWalkMore.

(* ================================================================== *)
(** ** More on the migrator *)

Section MigratorMore.
Import FSFacts.

Variables old_repo new_repo : string.
Variable retain : Z.
Variable fs : filesystem.

Let sel := cr_repodata_blacklist_classic old_repo retain fs.
Let bl := with_manifest (blacklist_of (result sel)).
Let run := cr_old_metadata_retention old_repo new_repo retain fs.
Let head := [EvFileTest old_repo true; EvDebug copying_line].

(** The four ways a run of the migrator goes. *)
Lemma migrator_shape :
  (FS.exists_ old_repo fs = false
   /\ run = ((true, None), fs, [EvFileTest old_repo false]))
  \/ (FS.exists_ old_repo fs = true /\ succeeded (result sel) = false
      /\ run = ((false, error_of (result sel)), fs, (head ++ trace sel)%list))
  \/ (FS.exists_ old_repo fs = true /\ succeeded (result sel) = true
      /\ FS.opendir old_repo fs = None
      /\ run = ((false, Some (cannot_open_error old_repo)), fs,
                ((head ++ trace sel)
                   ++ [EvDirOpen old_repo false;
                       EvWarning (ge_message (cannot_open_error old_repo))])%list))
  \/ (exists names,
         FS.exists_ old_repo fs = true /\ succeeded (result sel) = true
         /\ FS.opendir old_repo fs = Some names
         /\ run = ((true, None),
                   final_fs (copy_not_blacklisted old_repo new_repo bl names fs),
                   ((head ++ trace sel)
                      ++ EvDirOpen old_repo true
                      :: trace (copy_not_blacklisted old_repo new_repo
                                                     bl names fs))%list)).
Proof.
  destruct (FS.exists_ old_repo fs) eqn:He.
  2:{ left. split; [reflexivity|]. now apply migrator_run_absent. }
  right. destruct (succeeded (result sel)) eqn:Hs.
  2:{ left. split; [reflexivity|]. split; [reflexivity|].
      now apply migrator_run_failed. }
  right. pose proof (migrator_run fs old_repo new_repo retain He Hs) as H.
  fold sel bl run head in H.
  destruct (FS.opendir old_repo fs) as [names|] eqn:Ho.
  - right. exists names. repeat split. rewrite H. unfold after.
    now rewrite (retention_with_run fs old_repo new_repo bl names Ho).
  - left. repeat split. rewrite H. unfold after.
    now rewrite (retention_with_run_closed fs old_repo new_repo bl Ho).
Qed.

Lemma head_quiet (t : list event) :
  filter is_remove (head ++ t)%list = filter is_remove t
  /\ filter is_copy (head ++ t)%list = filter is_copy t.
Proof. split; reflexivity. Qed.

(** What the migrator leaves alone. *)
Lemma migrator_writes :
  filter is_remove (trace run) = []
  /\ fs_dirs (final_fs run) = fs_dirs fs
  /\ (forall src dst ok,
         In (EvCopy src dst ok) (trace run) ->
         exists names f,
           FS.opendir old_repo fs = Some names /\ In f names
           /\ g_slist_find_strcmp0 bl f = false
           /\ src = old_repo ++ f /\ dst = new_repo ++ f)
  /\ (forall p,
         (forall names f, FS.opendir old_repo fs = Some names -> In f names ->
                          g_slist_find_strcmp0 bl f = false ->
                          p <> new_repo ++ f) ->
         FS.lookup p (fs_files (final_fs run)) = FS.lookup p (fs_files fs)).
Proof.
  pose proof (proj1 (quiet_filters
                       _ (reads_quiet _ (classic_reads fs old_repo retain))))
    as Hsel.
  fold sel in Hsel.
  destruct migrator_shape
    as [[_ ->] | [(_ & _ & ->) | [(_ & _ & _ & ->) | (names & _ & _ & Ho & ->)]]];
    run_simpl.
  - repeat split; trivial. intros src dst ok [H|[]]. discriminate.
  - split; [now rewrite (proj1 (head_quiet _))|]. split; [reflexivity|].
    split; [|reflexivity].
    intros src dst ok H. apply in_app_or in H.
    destruct H as [[H|[H|[]]]|H]; try discriminate.
    now apply classic_no_copy in H.
  - split; [rewrite filter_app, (proj1 (head_quiet _)), Hsel; reflexivity|].
    split; [reflexivity|]. split; [|reflexivity].
    intros src dst ok H. apply in_app_or in H.
    destruct H as [H|[H|[H|[]]]]; try discriminate.
    apply in_app_or in H. destruct H as [[H|[H|[]]]|H]; try discriminate.
    now apply classic_no_copy in H.
  - split; [|split; [|split]].
    + rewrite filter_app, (proj1 (head_quiet _)), Hsel. simpl.
      apply copy_walk_no_remove.
    + apply copy_walk_dirs.
    + intros src dst ok H. apply in_app_or in H.
      destruct H as [H|[H|H]]; try discriminate.
      * apply in_app_or in H. destruct H as [[H|[H|[]]]|H]; try discriminate.
        now apply classic_no_copy in H.
      * apply copy_walk_sources in H. destruct H as (f & Hf & Hb & -> & ->).
        now exists names, f.
    + intros p Hp. apply copy_walk_untouched. intros f Hf Hb.
      now apply (Hp names f).
Qed.

End MigratorMore.

(** X20: when the old repository path does not exist, the migrator returns
    [TRUE] without an error after the existence test alone, whatever the new
    repository and the retain count, valid or not, and the file system is as
    before. *)
Theorem migrator_absent_old_repo (old_repo new_repo : string) (retain : Z)
        (fs : filesystem) :
  FS.exists_ old_repo fs = false ->
  cr_old_metadata_retention old_repo new_repo retain fs
  = ((true, None), fs, [EvFileTest old_repo false]).
Proof. apply migrator_run_absent. Qed.

Lemma migrator_absent_old_repo_witness :
  FS.exists_ "old/repodata/" only_new_repo = false
  /\ final_fs (cr_old_metadata_retention "old/repodata/" "new/repodata/" 3
                                         only_new_repo)
     = only_new_repo.
Proof.
  assert (He : FS.exists_ "old/repodata/" only_new_repo = false) by reflexivity.
  split; [exact He|].
  now rewrite (migrator_absent_old_repo "old/repodata/" "new/repodata/" 3
                                        only_new_repo He).
Defined.

(** X21: when the old repository path exists but cannot be opened as a
    directory, the migrator returns [FALSE] with the error "Cannot open
    directory" of code [CRE_IO], for retain count -1 as for counts [>= 0],
    copies nothing and leaves the file system as it is. *)
Theorem migrator_closed_directory (old_repo new_repo : string) (retain : Z)
        (fs : filesystem) :
  -1 <= retain ->
  FS.exists_ old_repo fs = true ->
  FS.opendir old_repo fs = None ->
  let run := cr_old_metadata_retention old_repo new_repo retain fs in
  result run = (false, Some (cannot_open_error old_repo))
  /\ ge_code (cannot_open_error old_repo) = CRE_IO
  /\ final_fs run = fs
  /\ filter is_copy (trace run) = []
  /\ In (EvWarning (ge_message (cannot_open_error old_repo))) (trace run).
Proof.
  intros Hr He Ho run. subst run.
  destruct (migrator_shape old_repo new_repo retain fs)
    as [[He' _] | [(_ & Hs & ->) | [(_ & Hs & _ & ->) | (names & _ & _ & Ho' & _)]]];
    try congruence; run_simpl.
  - assert (H0 : 0 <= retain).
    { destruct (Z.eq_dec retain (-1)) as [->|]; [|lia].
      rewrite classic_run_all in Hs. discriminate. }
    rewrite (classic_run_closed fs old_repo retain H0 Ho). run_simpl.
    repeat split. simpl. tauto.
  - assert (Hm : retain = -1).
    { destruct (Z.eq_dec retain (-1)) as [|Hne]; [assumption|].
      rewrite (classic_run_closed fs old_repo retain) in Hs
        by (assumption || lia).
      discriminate. }
    subst retain. rewrite classic_run_all. run_simpl.
    repeat split. simpl. tauto.
Qed.

Lemma migrator_closed_directory_witness :
  -1 <= -1 /\ -1 <= 2
  /\ FS.exists_ "old" file_for_repo = true
  /\ FS.opendir "old" file_for_repo = None
  /\ result (cr_old_metadata_retention "old" "new/" (-1) file_for_repo)
     = result (cr_old_metadata_retention "old" "new/" 2 file_for_repo).
Proof.
  assert (Ha : -1 <= -1) by lia. assert (Hb : -1 <= 2) by lia.
  assert (He : FS.exists_ "old" file_for_repo = true) by reflexivity.
  assert (Ho : FS.opendir "old" file_for_repo = None) by reflexivity.
  pose proof (migrator_closed_directory "old" "new/" (-1) file_for_repo
                                        Ha He Ho) as T.
  pose proof (migrator_closed_directory "old" "new/" 2 file_for_repo
                                        Hb He Ho) as U.
  cbv zeta in T, U. destruct T as [T _]. destruct U as [U _].
  split; [exact Ha|]. split; [exact Hb|]. split; [exact He|].
  split; [exact Ho|]. now rewrite T, U.
Defined.

(** X22: when the walk takes place, a listed entry that is not blacklisted,
    has no file at its destination, can be copied and has a directory to go
    to is copied: afterwards the destination holds the file of the source,
    with its attributes, whatever happened to the other entries. *)
Theorem migrator_copy_lands (old_repo new_repo : string) (retain : Z)
        (fs : filesystem) (names : list string) (f : string) (n : node) :
  -1 <= retain ->
  FS.opendir old_repo fs = Some names ->
  In f names ->
  g_slist_find_strcmp0
    (with_manifest
       (blacklist_of (result (cr_repodata_blacklist_classic old_repo retain fs))))
    f = false ->
  FS.exists_ (new_repo ++ f) fs = false ->
  FS.lookup (old_repo ++ f) (fs_files fs) = Some n ->
  n_copyable n = true ->
  FS.has_dir (FS.parent (new_repo ++ f)) fs = true ->
  let run := cr_old_metadata_retention old_repo new_repo retain fs in
  FS.lookup (new_repo ++ f) (fs_files (final_fs run)) = Some n
  /\ In (EvCopy (old_repo ++ f) (new_repo ++ f) true) (trace run)
  /\ FS.lookup (old_repo ++ f) (fs_files (final_fs run)) = Some n.
Proof.
  intros Hr Ho Hin Hb He Hl Hc Hd run. subst run.
  assert (Hs : succeeded (result (cr_repodata_blacklist_classic
                                    old_repo retain fs)) = true).
  { apply classic_succeeded.
    destruct (Z.eq_dec retain (-1)); [now left | right].
    split; [lia | now exists names]. }
  destruct (migrator_shape old_repo new_repo retain fs)
    as [[He' _] | [(_ & Hs' & _) | [(_ & _ & Ho' & _) | (names' & _ & _ & Ho' & ->)]]];
    try congruence.
  { rewrite (opendir_exists _ _ _ Ho) in He'. discriminate. }
  rewrite Ho in Ho'. injection Ho' as <-. run_simpl.
  destruct (copy_walk_lands old_repo new_repo _ names fs f n Hin Hb He Hl Hc Hd)
    as [H1 H2].
  split; [exact H1|]. split; [apply in_or_app; right; now right|].
  destruct (copy_walk_frame old_repo new_repo
              (with_manifest
                 (blacklist_of
                    (result (cr_repodata_blacklist_classic old_repo retain fs))))
              names fs (old_repo ++ f) (lookup_exists _ _ _ Hl)) as (H & _).
  now rewrite H.
Qed.

Lemma migrator_copy_lands_witness :
  -1 <= 5
  /\ FS.lookup "new/c-primary.sqlite.bz2"
               (fs_files (final_fs (cr_old_metadata_retention
                                      "repo/repodata/" "new/" 5
                                      repo_with_manifest)))
     = Some (plain 300).
Proof.
  assert (H5 : -1 <= 5) by lia.
  split; [exact H5|].
  apply (migrator_copy_lands
           "repo/repodata/" "new/" 5 repo_with_manifest
           ["repomd.xml"; "a-primary.sqlite.bz2"; "b-primary.sqlite.bz2";
            "c-primary.sqlite.bz2"; "notes.txt"]
           "c-primary.sqlite.bz2" (plain 300) H5);
    try reflexivity.
  simpl. tauto.
Defined.



(** X24: every copy the migrator attempts is from [old_repo ++ filename] to
    [new_repo ++ filename] for an entry of the old repository that is neither
    [repomd.xml] nor on the blacklist of the selection: a blacklisted file is
    never copied. *)
Theorem migrator_copies_only_unlisted (old_repo new_repo : string)
        (retain : Z) (fs : filesystem) (src dst : string) (ok : bool) :
  let bl := blacklist_of
              (result (cr_repodata_blacklist_classic old_repo retain fs)) in
  In (EvCopy src dst ok)
     (trace (cr_old_metadata_retention old_repo new_repo retain fs)) ->
  exists names f,
    FS.opendir old_repo fs = Some names /\ In f names
    /\ f <> "repomd.xml" /\ ~ In f bl
    /\ src = old_repo ++ f /\ dst = new_repo ++ f.
Proof.
  intros bl Hin.
  destruct (migrator_writes old_repo new_repo retain fs) as (_ & _ & H & _).
  destruct (H src dst ok Hin) as (names & f & Ho & Hf & Hb & Hs & Hd).
  exists names, f. repeat split; try assumption.
  - intros ->. rewrite manifest_found in Hb. discriminate.
  - intros Hbl.
    assert (g_slist_find_strcmp0 (with_manifest bl) f = true)
      by (apply find_strcmp0_iff; now right).
    subst bl. congruence.
Qed.

Lemma migrator_copies_only_unlisted_witness :
  In (EvCopy "repo/repodata/c-primary.sqlite.bz2" "new/c-primary.sqlite.bz2" true)
     (trace (cr_old_metadata_retention "repo/repodata/" "new/" 1
                                       repo_with_manifest))
  /\ exists names f,
      FS.opendir "repo/repodata/" repo_with_manifest = Some names
      /\ In f names /\ f <> "repomd.xml"
      /\ "new/c-primary.sqlite.bz2" = "new/" ++ f.
Proof.
  assert (Hin : In (EvCopy "repo/repodata/c-primary.sqlite.bz2"
                           "new/c-primary.sqlite.bz2" true)
                   (trace (cr_old_metadata_retention
                             "repo/repodata/" "new/" 1 repo_with_manifest)))
    by (vm_compute; tauto).
  split; [exact Hin|].
  destruct (migrator_copies_only_unlisted _ _ _ _ _ _ _ Hin)
    as (names & f & Ho & Hf & Hne & _ & _ & Hd).
  now exists names, f.
Defined.

(** X25: with retain count -1 the migrator carries forward everything but
    the manifest: the selection opens nothing, and every listed entry other
    than [repomd.xml] that can be copied, has a directory to go to and no
    file at its destination is at its destination afterwards. *)
Theorem migrator_retain_all_copies (old_repo new_repo : string)
        (fs : filesystem) (names : list string) (f : string) (n : node) :
  FS.opendir old_repo fs = Some names ->
  In f names -> f <> "repomd.xml" ->
  FS.exists_ (new_repo ++ f) fs = false ->
  FS.lookup (old_repo ++ f) (fs_files fs) = Some n ->
  n_copyable n = true ->
  FS.has_dir (FS.parent (new_repo ++ f)) fs = true ->
  let run := cr_old_metadata_retention old_repo new_repo (-1) fs in
  result run = (true, None)
  /\ filter is_dir_open (trace run) = [EvDirOpen old_repo true]
  /\ FS.lookup (new_repo ++ f) (fs_files (final_fs run)) = Some n.
Proof.
  intros Ho Hin Hne He Hl Hc Hd run. subst run.
  assert (Hb : g_slist_find_strcmp0 (with_manifest []) f = false).
  { destruct (g_slist_find_strcmp0 (with_manifest []) f) eqn:E; [|reflexivity].
    apply find_strcmp0_iff in E. destruct E as [E|[]]. congruence. }
  destruct (migrator_shape old_repo new_repo (-1) fs)
    as [[He' _] | [(_ & Hs' & _) | [(_ & _ & Ho' & _) | (names' & _ & _ & Ho' & ->)]]];
    try congruence.
  { rewrite (opendir_exists _ _ _ Ho) in He'. discriminate. }
  { rewrite classic_run_all in Hs'. discriminate. }
  rewrite Ho in Ho'. injection Ho' as <-. run_simpl.
  rewrite classic_run_all. run_simpl. unfold blacklist_of. simpl snd. simpl fst.
  split; [reflexivity|]. split.
  - simpl. f_equal. apply filter_none. intros e He'.
    assert (Hk : forall names0 fs0,
               Forall (fun e => is_dir_open e = false)
                      (trace (copy_not_blacklisted old_repo new_repo
                                                   (with_manifest []) names0 fs0))).
    { induction names0 as [|g rest IH]; intros fs0; [constructor|].
      destruct (copy_walk_cons old_repo new_repo (with_manifest []) g rest fs0)
        as (fs1 & pre & -> & Hs).
      run_simpl. apply Forall_app. split; [|apply IH].
      destruct Hs as [(_ & _ & ->) | [(_ & _ & _ & ->)
                     | [(_ & _ & _ & ->) | (_ & _ & _ & _ & ->)]]];
        repeat constructor. }
    specialize (Hk names fs). rewrite Forall_forall in Hk. now apply Hk.
  - apply (copy_walk_lands old_repo new_repo (with_manifest []) names fs f n
                           Hin Hb He Hl Hc Hd).
Qed.

Lemma migrator_retain_all_copies_witness :
  FS.lookup "new/a-primary.sqlite.bz2"
            (fs_files (final_fs (cr_old_metadata_retention
                                   "repo/repodata/" "new/" (-1)
                                   repo_with_manifest)))
  = Some (plain 100).
Proof.
  apply (migrator_retain_all_copies
           "repo/repodata/" "new/" repo_with_manifest
           ["repomd.xml"; "a-primary.sqlite.bz2"; "b-primary.sqlite.bz2";
            "c-primary.sqlite.bz2"; "notes.txt"]
           "a-primary.sqlite.bz2" (plain 100));
    try reflexivity; [simpl; tauto | discriminate].
Defined.

(** X26: for a retain count [>= 0], when the metadata directory opens and no
    removal fails, the directory lists after the run of the pruner exactly
    the entries that were neither [repomd.xml] nor on the blacklist of the
    selection, in the order they had. *)
Theorem pruner_listing_after (repopath : string) (retain : Z)
        (fs : filesystem) (names : list string) :
  0 <= retain ->
  let full := repopath ++ "/repodata/" in
  FS.opendir full fs = Some names ->
  let run := cr_remove_metadata_classic repopath retain fs in
  (forall p, ~ In (EvRemove p false) (trace run)) ->
  let bl := with_manifest
              (blacklist_of
                 (result (cr_repodata_blacklist_classic full retain fs))) in
  FS.opendir full (final_fs run)
  = Some (filter (fun name => negb (g_slist_find_strcmp0 bl name)) names).
Proof.
  intros Hr full Ho run Hok bl. subst run bl.
  pose proof (pruner_open fs repopath retain names Hr Ho) as H1.
  cbv zeta in H1. fold full in H1.
  rewrite (classic_run fs full retain names Hr Ho). run_simpl.
  unfold blacklist_of. simpl snd. simpl fst.
  set (bl := with_manifest
               (append_to_blacklist (inserted fs full names no_lists)
                                    (Z.to_nat retain) [])) in *.
  assert (Hw : forall p, ~ In (EvRemove p false)
                              (trace (remove_blacklisted full bl names fs))).
  { intros p Hp. apply (Hok p). rewrite H1. run_simpl.
    apply in_or_app. right. now right. }
  rewrite H1. run_simpl. rewrite (walk_all_removed full bl names fs Hw).
  pose proof (repodata_dir repopath) as Hdir. fold full in Hdir.
  assert (Ho' : FS.opendir ((repopath ++ "/repodata") ++ "/") fs = Some names)
    by now rewrite <- Hdir.
  pose proof (pruned_listing fs (repopath ++ "/repodata") names
                             (Z.to_nat retain) Ho') as Hl.
  rewrite <- Hdir in Hl. exact Hl.
Qed.

Lemma pruner_listing_after_witness :
  0 <= 1
  /\ FS.opendir "repo/repodata/"
                (final_fs (cr_remove_metadata_classic "repo" 1 removable_repo))
     = Some ["c-primary.xml.gz"; "notes.txt"].
Proof.
  assert (H1 : 0 <= 1) by lia.
  assert (Hok : forall p,
             ~ In (EvRemove p false)
                  (trace (cr_remove_metadata_classic "repo" 1 removable_repo))).
  { intros p. vm_compute. intuition discriminate. }
  pose proof (pruner_listing_after
                "repo" 1 removable_repo
                ["repomd.xml"; "a-primary.xml.gz"; "b-primary.xml.gz";
                 "c-primary.xml.gz"; "notes.txt"] H1 eq_refl Hok) as T.
  split; [exact H1|]. refine (eq_trans T _). reflexivity.
Defined.
